(** * doc_qa: chunking, index store, retrieval and grounded answer composition

    A shallow embedding of the Python package [doc_qa] (extractor.py,
    indexer.py, retriever.py, composer.py) together with the part of the Python
    runtime those modules rely on (str methods, dicts, binary64 floats,
    the json module), followed by the properties of the specification.

    Conventions of the embedding.
    - A Python [str] is a Rocq [string]; one [ascii] stands for the code
      point of the same number, so the embedding covers text whose code
      points are below 256.
    - A Python value that travels through dicts and JSON is a [pyval];
      a dict is an association list in insertion order with distinct keys.
    - A Python [float] is a primitive binary64 [float].
    - A call that may raise returns a [result]; the exception is a value
      of [exn].
    - What the package obtains from outside (the MD5 digest, the UUID
      generator, the rank_bm25 scorer, the generation backend) is a
      variable of the section that uses it.
    - Paths are those of a POSIX system: [Path(a) / b] drops empty and
      [.] components and lets an absolute [b] replace [a]. A file is
      kept by the text of its path; the texts are those of files of the
      index directory, without [..] and links. *)

From Stdlib Require Import ZArith List String Ascii Bool Lia Floats Uint63.
From Stdlib Require Import Permutation Sorted.
From stdpp Require Import gmap strings list.

Local Open Scope Z_scope.

(** ** Exceptions and results *)

Inductive exn : Type :=
| FileNotFoundError
| JSONDecodeError (msg : string)
| KeyError (key : string)
| IndexError
| AttributeError
| TypeError
| ZeroDivisionError
| APIError
| CodePointAbove255.

Inductive result (A : Type) : Type :=
| Ok (a : A)
| Raise (e : exn).

Arguments Ok {A} a.
Arguments Raise {A} e.

Definition result_bind {A B : Type} (f : A -> result B) (r : result A) : result B :=
  match r with
  | Ok a => f a
  | Raise e => Raise e
  end.

#[global] Instance result_ret : MRet result := fun A a => Ok a.
#[global] Instance result_mbind : MBind result := fun A B f r => result_bind f r.
#[global] Instance result_fmap : FMap result :=
  fun A B f r => result_bind (fun a => Ok (f a)) r.

(** [mapM] for [result]: the list comprehension [[f(c) for c in l]] when
    [f] may raise; the first exception, in list order, propagates. *)
Fixpoint result_mapM {A B : Type} (f : A -> result B) (l : list A) : result (list B) :=
  match l with
  | [] => Ok []
  | x :: xs =>
      match f x with
      | Raise e => Raise e
      | Ok y =>
          match result_mapM f xs with
          | Raise e => Raise e
          | Ok ys => Ok (y :: ys)
          end
      end
  end.

(** ** Python [str] *)

Definition chr (n : nat) : ascii := ascii_of_nat n.
Definition ord (c : ascii) : nat := nat_of_ascii c.

(** The double quote, which a string literal of this file cannot hold. *)
Definition dquote : ascii := "034"%char.
Definition backslash : ascii := "092"%char.

(** [c.isspace()] for a code point below 256. *)
Definition is_space (c : ascii) : bool :=
  let n := ord c in
  ((9 <=? n) && (n <=? 13) || (28 <=? n) && (n <=? 32) || (n =? 133) || (n =? 160))%nat.

(** [s.lower()] for code points below 256: A-Z, and the Latin-1 capitals
    U+00C0..U+00DE without the multiplication sign U+00D7. *)
Definition lower_char (c : ascii) : ascii :=
  let n := ord c in
  if ((65 <=? n) && (n <=? 90) || (192 <=? n) && (n <=? 222) && negb (n =? 215))%nat
  then chr (n + 32) else c.

Fixpoint str_lower (s : string) : string :=
  match s with
  | EmptyString => EmptyString
  | String c s' => String (lower_char c) (str_lower s')
  end.

(** [s.split()]: the maximal runs of non-whitespace characters, in order.
    [cur] is the run being read, if any. *)
Fixpoint split_go (cur : option string) (s : string) : list string :=
  match s with
  | EmptyString => match cur with Some w => [w] | None => [] end
  | String c s' =>
      if is_space c
      then match cur with
           | Some w => w :: split_go None s'
           | None => split_go None s'
           end
      else split_go (Some (match cur with Some w => w +:+ String c "" | None => String c "" end)) s'
  end.

Definition str_split (s : string) : list string := split_go None s.

(** [sep.join(l)]. *)
Definition str_join (sep : string) (l : list string) : string := String.concat sep l.

Fixpoint lstrip (s : string) : string :=
  match s with
  | EmptyString => EmptyString
  | String c s' => if is_space c then lstrip s' else s
  end.

Fixpoint rstrip (s : string) : string :=
  match s with
  | EmptyString => EmptyString
  | String c s' =>
      match rstrip s' with
      | EmptyString => if is_space c then EmptyString else String c EmptyString
      | r => String c r
      end
  end.

(** [s.strip()]. *)
Definition str_strip (s : string) : string := rstrip (lstrip s).

(** [s] without the prefix [p], when [s.startswith(p)]. *)
Fixpoint strip_prefix (p s : string) : option string :=
  match p with
  | EmptyString => Some s
  | String a p' =>
      match s with
      | String b s' => if Ascii.eqb a b then strip_prefix p' s' else None
      | EmptyString => None
      end
  end.

(** [s.partition(sep)] at the first occurrence of a non-empty [sep]:
    the text before and the text after it, or [None] when [sep] does not
    occur. *)
Fixpoint str_find (sep s : string) : option (string * string) :=
  match strip_prefix sep s with
  | Some after => Some (EmptyString, after)
  | None =>
      match s with
      | EmptyString => None
      | String c s' =>
          match str_find sep s' with
          | Some (before, after) => Some (String c before, after)
          | None => None
          end
      end
  end.

(** [sep in s]. *)
Definition str_contains (sep s : string) : bool :=
  match str_find sep s with Some _ => true | None => false end.

(** [s.split(sep, 1)[1]], used only where [sep in s] holds. *)
Definition split1_snd (sep s : string) : result string :=
  match str_find sep s with
  | Some (_, after) => Ok after
  | None => Raise IndexError
  end.

(** [s.split(sep, 1)[0]]: all of [s] when [sep] does not occur. *)
Definition split1_fst (sep s : string) : string :=
  match str_find sep s with
  | Some (before, _) => before
  | None => s
  end.

(** Decimal digits of a natural number, most significant first. *)
Definition digit_char (d : nat) : ascii := chr (48 + d).

Fixpoint digits_go (fuel : nat) (n : N) (acc : string) : string :=
  match fuel with
  | O => acc
  | S fuel' =>
      let acc' := String (digit_char (N.to_nat (n mod 10))) acc in
      if (n <? 10)%N then acc' else digits_go fuel' (n / 10)%N acc'
  end.

Definition N_str (n : N) : string := digits_go (S (N.to_nat (N.log2 n))) n EmptyString.

(** [str(z)] for an [int]. *)
Definition int_str (z : Z) : string :=
  match z with
  | Z0 => "0"
  | Zpos p => N_str (Npos p)
  | Zneg p => String "-" (N_str (Npos p))
  end.

Definition hex_char (d : nat) : ascii :=
  if (d <? 10)%nat then chr (48 + d) else chr (87 + d).

(** Two lower-case hexadecimal digits of a code point below 256. *)
Definition hex2 (c : ascii) : string :=
  let n := ord c in
  String (hex_char (n / 16)) (String (hex_char (n mod 16)) EmptyString).

(** ** Python [float]: conversions between binary64 and decimal text

    Arithmetic on floats is the kernel's; what Python adds is the
    correctly rounded conversion from and to decimal text ([float(s)],
    [repr(x)]) and [round(x, 4)]. They are computed here on exact
    integers. *)

Definition Z_to_float (q : Z) : float := PrimFloat.of_uint63 (Uint63.of_Z q).

(** The quotient [n / d] rounded to the nearest integer, ties to even
    ([0 <= n], [0 < d]). *)
Definition div_half_even (n d : Z) : Z :=
  let q := n / d in
  let r := n mod d in
  if 2 * r <? d then q
  else if d <? 2 * r then q + 1
  else if Z.even q then q else q + 1.

(** The binary64 value nearest to [num / den], ties to even
    ([0 <= num], [0 < den]); infinity on overflow. *)
Definition float_of_ratio (num den : Z) : float :=
  if num =? 0 then PrimFloat.zero
  else
    let k := Z.log2 num - Z.log2 den in
    let ge := if 0 <=? k then den * 2 ^ k <=? num else den <=? num * 2 ^ (- k) in
    let fl := if ge then k else k - 1 in
    let e := Z.max (fl - 52) (-1074) in
    let q := if 0 <=? e then div_half_even num (den * 2 ^ e)
             else div_half_even (num * 2 ^ (- e)) den in
    Z.ldexp (Z_to_float q) e.

(** The float nearest to [(-1)^neg * m * 10^e]. *)
Definition float_of_decimal (neg : bool) (m e : Z) : float :=
  let f := if 0 <=? e then float_of_ratio (m * 10 ^ e) 1
           else float_of_ratio m (10 ^ (- e)) in
  if neg then (- f)%float else f.

(** [round(x, 4)]: the decimal with four digits after the point nearest
    to the exact value of [x] (ties to even), converted back to binary64. *)
Definition round4 (x : float) : float :=
  match Prim2SF x with
  | S754_finite s m e =>
      let d := if 0 <=? e then Zpos m * 2 ^ e * 10000
               else div_half_even (Zpos m * 10000) (2 ^ (- e)) in
      let f := float_of_ratio d 10000 in
      if s then (- f)%float else f
  | _ => x
  end.

Definition is_digit (c : ascii) : bool := ((48 <=? ord c) && (ord c <=? 57))%nat.

(** The value of a run of decimal digits read after the value [acc]. *)
Fixpoint digits_value (acc : Z) (s : string) : Z :=
  match s with
  | EmptyString => acc
  | String c s' => digits_value (10 * acc + Z.of_nat (ord c - 48)) s'
  end.

(** [repr(x)] for a finite non-zero [x = m * 2^e > 0]: the shortest
    decimal that converts back to [x], nearest to [x] when several do. *)
Definition round_trips (x : float) (d e10 : Z) : bool :=
  PrimFloat.eqb (float_of_decimal false d e10) x.

(** [x / 10^e10] as a ratio of integers, for [x = m * 2^e]. *)
Definition scaled_ratio (m e e10 : Z) : Z * Z :=
  let '(n1, d1) := if 0 <=? e then (m * 2 ^ e, 1) else (m, 2 ^ (- e)) in
  if 0 <=? e10 then (n1, d1 * 10 ^ e10) else (n1 * 10 ^ (- e10), d1).

(** Candidates with [n] significant digits, [p] being the position of
    the first digit: floor and ceiling of [x / 10^(p-n+1)]. *)
Definition shortest_at (x : float) (m e p : Z) (n : Z) : option (Z * Z) :=
  let e10 := p - n + 1 in
  let '(a, b) := scaled_ratio m e e10 in
  let lo := a / b in
  let hi := lo + 1 in
  let lo_ok := round_trips x lo e10 in
  let hi_ok := round_trips x hi e10 in
  if lo_ok && hi_ok then
    (if 2 * (a mod b) <=? b then Some (lo, e10) else Some (hi, e10))
  else if lo_ok then Some (lo, e10)
  else if hi_ok then Some (hi, e10)
  else None.

Fixpoint shortest_go (fuel : nat) (x : float) (m e p : Z) (n : Z) : Z * Z :=
  match fuel with
  | O => (0, 0)
  | S fuel' =>
      match shortest_at x m e p n with
      | Some r => r
      | None => shortest_go fuel' x m e p (n + 1)
      end
  end.

(** Position of the leading decimal digit of [m * 2^e]: the [p] with
    [10^p <= m * 2^e < 10^(p+1)]. *)
Definition decimal_exponent (m e : Z) : Z :=
  let guess := ((Z.log2 m + e) * 30103) / 100000 in
  let ge10 (p : Z) :=
    let '(a, b) := scaled_ratio m e p in b <=? a in
  if ge10 (guess + 1) then guess + 1
  else if ge10 guess then guess
  else guess - 1.

Fixpoint strip_zeros (fuel : nat) (d e10 : Z) : Z * Z :=
  match fuel with
  | O => (d, e10)
  | S fuel' => if (d mod 10 =? 0) && negb (d =? 0) then strip_zeros fuel' (d / 10) (e10 + 1) else (d, e10)
  end.

Fixpoint zeros (n : nat) : string :=
  match n with O => EmptyString | S n' => String "0" (zeros n') end.

(** The layout of [repr]: digits [ds] with the decimal point after the
    first [decpt] of them; exponent notation when [decpt <= -4] or
    [decpt > 16]. *)
Definition float_layout (ds : string) (decpt : Z) : string :=
  let n := Z.of_nat (String.length ds) in
  if (decpt <=? -4) || (16 <? decpt) then
    let ex := decpt - 1 in
    let mant := match ds with
                | String c EmptyString => ds
                | String c rest => String c (String "." rest)
                | EmptyString => ds
                end in
    let exs := int_str (Z.abs ex) in
    let exs := if (String.length exs <? 2)%nat then String "0" exs else exs in
    mant +:+ "e" +:+ (if ex <? 0 then "-" else "+") +:+ exs
  else if decpt <=? 0 then "0." +:+ zeros (Z.to_nat (- decpt)) +:+ ds
  else if n <=? decpt then ds +:+ zeros (Z.to_nat (decpt - n)) +:+ ".0"
  else String.substring 0 (Z.to_nat decpt) ds +:+ "." +:+
       String.substring (Z.to_nat decpt) (Z.to_nat (n - decpt)) ds.

(** [repr(x)]. *)
Definition float_repr (x : float) : string :=
  match Prim2SF x with
  | S754_nan => "nan"
  | S754_infinity s => if s then "-inf" else "inf"
  | S754_zero s => if s then "-0.0" else "0.0"
  | S754_finite s m e =>
      let ax := PrimFloat.abs x in
      let p := decimal_exponent (Zpos m) e in
      let '(d, e10) := shortest_go 18 ax (Zpos m) e p 1 in
      let '(d, e10) := strip_zeros 18 d e10 in
      let ds := int_str d in
      let body := float_layout ds (Z.of_nat (String.length ds) + e10) in
      if s then String "-" body else body
  end.

(** ** Python values *)

#[local] Unset Elimination Schemes.

Inductive pyval : Type :=
| PNone
| PBool (b : bool)
| PInt (z : Z)
| PFloat (f : float)
| PStr (s : string)
| PList (l : list pyval)
| PDict (d : list (string * pyval)).

#[local] Set Elimination Schemes.

(** [bool(v)], the truth value that [not], [or] and [if] test. *)
Definition py_truth (v : pyval) : bool :=
  match v with
  | PNone => false
  | PBool b => b
  | PInt z => negb (z =? 0)
  | PFloat f => negb (PrimFloat.eqb f PrimFloat.zero)
  | PStr s => negb (String.eqb s "")
  | PList l => match l with [] => false | _ => true end
  | PDict d => match d with [] => false | _ => true end
  end.

(** [d.get(k)]: the value stored under [k], if any. *)
Fixpoint dict_get (k : string) (d : list (string * pyval)) : option pyval :=
  match d with
  | [] => None
  | (k', v) :: d' => if String.eqb k k' then Some v else dict_get k d'
  end.

(** [d[k] = v]: replaces the value of an existing key in place, appends
    a new key at the end. *)
Fixpoint dict_set (k : string) (v : pyval) (d : list (string * pyval)) : list (string * pyval) :=
  match d with
  | [] => [(k, v)]
  | (k', v') :: d' => if String.eqb k k' then (k, v) :: d' else (k', v') :: dict_set k v d'
  end.

(** [dict(pairs)]. *)
Definition dict_of_pairs (pairs : list (string * pyval)) : list (string * pyval) :=
  fold_left (fun d kv => dict_set (fst kv) (snd kv) d) pairs [].

(** [v.get(k, default)]: only a dict has the method. *)
Definition py_get (v : pyval) (k : string) (default : pyval) : result pyval :=
  match v with
  | PDict d => Ok (match dict_get k d with Some x => x | None => default end)
  | _ => Raise AttributeError
  end.

(** [v[k]] for a string key: [KeyError] on a dict without the key,
    [TypeError] on anything that is not a dict. *)
Definition py_item (v : pyval) (k : string) : result pyval :=
  match v with
  | PDict d => match dict_get k d with Some x => Ok x | None => Raise (KeyError k) end
  | _ => Raise TypeError
  end.

(** The field [k] of a chunk: [c.get(k)] where [c] is a dict. *)
Definition chunk_field (k : string) (c : pyval) : option pyval :=
  match c with
  | PDict d => dict_get k d
  | _ => None
  end.

(** [repr(s)] for a [str]: single quotes unless the text holds a single
    quote and no double quote; control and non-printable code points as
    hexadecimal escapes. *)
Definition str_has (c : ascii) (s : string) : bool :=
  existsb (fun x => Ascii.eqb x c) (list_ascii_of_string s).

Definition repr_char (q c : ascii) : string :=
  let n := ord c in
  if Ascii.eqb c q || Ascii.eqb c backslash then String backslash (String c "")
  else if (n =? 9)%nat then String backslash "t"
  else if (n =? 10)%nat then String backslash "n"
  else if (n =? 13)%nat then String backslash "r"
  else if ((n <? 32) || (127 <=? n) && (n <=? 160) || (n =? 173))%nat
       then String backslash (String "x" (hex2 c))
  else String c "".

Fixpoint repr_chars (q : ascii) (s : string) : string :=
  match s with
  | EmptyString => EmptyString
  | String c s' => repr_char q c +:+ repr_chars q s'
  end.

Definition str_repr (s : string) : string :=
  let q := if str_has "'" s && negb (str_has dquote s) then dquote else "'"%char in
  String q (repr_chars q s +:+ String q "").

(** [repr(v)]. *)
Fixpoint py_repr (v : pyval) : string :=
  match v with
  | PNone => "None"
  | PBool b => if b then "True" else "False"
  | PInt z => int_str z
  | PFloat f => float_repr f
  | PStr s => str_repr s
  | PList l => "[" +:+ str_join ", " (List.map py_repr l) +:+ "]"
  | PDict d =>
      "{" +:+ str_join ", " (List.map (fun kv => str_repr (fst kv) +:+ ": " +:+ py_repr (snd kv)) d) +:+ "}"
  end.

(** [str(v)], which an f-string applies to each field. *)
Definition py_str (v : pyval) : string :=
  match v with
  | PStr s => s
  | _ => py_repr v
  end.

(** ** The json module: [json.dump(obj, f, indent=2)]

    Every encoder takes the text that follows, so that
    [encode lvl v rest] is the encoding of [v] followed by [rest]. *)

Definition newline : ascii := "010"%char.

Fixpoint indent_to (lvl : nat) (rest : string) : string :=
  match lvl with
  | O => rest
  | S lvl' => String " " (String " " (indent_to lvl' rest))
  end.

(** A line break and the indentation of nesting level [lvl]. *)
Definition newline_indent (lvl : nat) (rest : string) : string :=
  String newline (indent_to lvl rest).

(** [encode_basestring_ascii]: every character outside space..tilde is
    escaped, as are the double quote and the backslash. *)
Definition escape_char (c : ascii) (rest : string) : string :=
  let n := ord c in
  if Ascii.eqb c dquote then String backslash (String dquote rest)
  else if Ascii.eqb c backslash then String backslash (String backslash rest)
  else if (n =? 10)%nat then String backslash (String "n" rest)
  else if (n =? 13)%nat then String backslash (String "r" rest)
  else if (n =? 9)%nat then String backslash (String "t" rest)
  else if (n =? 12)%nat then String backslash (String "f" rest)
  else if (n =? 8)%nat then String backslash (String "b" rest)
  else if ((n <? 32) || (126 <? n))%nat
       then String backslash (String "u" (String "0" (String "0"
              (String (hex_char (n / 16)) (String (hex_char (n mod 16)) rest)))))
  else String c rest.

Fixpoint escape_str (s : string) (rest : string) : string :=
  match s with
  | EmptyString => rest
  | String c s' => escape_char c (escape_str s' rest)
  end.

Definition encode_str (s : string) (rest : string) : string :=
  String dquote (escape_str s (String dquote rest)).

(** [float.__repr__], except for the three values JSON has no text for. *)
Definition encode_float (f : float) : string :=
  if PrimFloat.is_nan f then "NaN"
  else if PrimFloat.eqb f PrimFloat.infinity then "Infinity"
  else if PrimFloat.eqb f PrimFloat.neg_infinity then "-Infinity"
  else float_repr f.

Section EncodeItems.

(** The encoder of a value at the nesting level of the items, the level
    of the container, and the text after the container. *)
Variable enc : pyval -> string -> string.
Variable lvl : nat.
Variable rest : string.

(** The items of a list after the first, and the closing bracket. *)
Fixpoint encode_items (l : list pyval) : string :=
  match l with
  | [] => newline_indent lvl (String "]" rest)
  | y :: ys => String "," (newline_indent (S lvl) (enc y (encode_items ys)))
  end.

(** The members of a dict after the first, and the closing brace. *)
Fixpoint encode_members (d : list (string * pyval)) : string :=
  match d with
  | [] => newline_indent lvl (String "}" rest)
  | (k, y) :: ys =>
      String "," (newline_indent (S lvl)
        (encode_str k (String ":" (String " " (enc y (encode_members ys))))))
  end.

End EncodeItems.

(** [_iterencode] with [indent=2]: items one per line, separated by a
    comma, keys followed by a colon and a space; an empty list or dict
    on one line. *)
Fixpoint encode (lvl : nat) (v : pyval) (rest : string) : string :=
  match v with
  | PNone => "null" +:+ rest
  | PBool b => (if b then "true" else "false") +:+ rest
  | PInt z => int_str z +:+ rest
  | PFloat f => encode_float f +:+ rest
  | PStr s => encode_str s rest
  | PList l =>
      match l with
      | [] => String "[" (String "]" rest)
      | x :: xs =>
          String "[" (newline_indent (S lvl)
            (encode (S lvl) x (encode_items (encode (S lvl)) lvl rest xs)))
      end
  | PDict d =>
      match d with
      | [] => String "{" (String "}" rest)
      | (k, x) :: xs =>
          String "{" (newline_indent (S lvl)
            (encode_str k (String ":" (String " "
              (encode (S lvl) x (encode_members (encode (S lvl)) lvl rest xs))))))
      end
  end.

(** The text [json.dump(v, f, indent=2)] writes. *)
Definition json_dumps (v : pyval) : string := encode 0 v EmptyString.

(** ** The json module: [json.loads] *)

(** JSON's own whitespace: space, tab, line feed, carriage return. *)
Definition is_json_ws (c : ascii) : bool :=
  let n := ord c in ((n =? 32) || (n =? 9) || (n =? 10) || (n =? 13))%nat.

Fixpoint skip_ws (s : string) : string :=
  match s with
  | EmptyString => EmptyString
  | String c s' => if is_json_ws c then skip_ws s' else s
  end.

Definition hex_value (c : ascii) : option nat :=
  let n := ord c in
  if ((48 <=? n) && (n <=? 57))%nat then Some (n - 48)%nat
  else if ((97 <=? n) && (n <=? 102))%nat then Some (n - 87)%nat
  else if ((65 <=? n) && (n <=? 70))%nat then Some (n - 55)%nat
  else None.

Definition hex4 (a b c d : ascii) : option nat :=
  match hex_value a, hex_value b, hex_value c, hex_value d with
  | Some x, Some y, Some z, Some w => Some (((x * 16 + y) * 16 + z) * 16 + w)%nat
  | _, _, _, _ => None
  end.

(** The characters a backslash may introduce, [u] apart. *)
Definition unescape (c : ascii) : option ascii :=
  if Ascii.eqb c dquote then Some dquote
  else if Ascii.eqb c backslash then Some backslash
  else if Ascii.eqb c "/" then Some "/"%char
  else if Ascii.eqb c "b" then Some (chr 8)
  else if Ascii.eqb c "f" then Some (chr 12)
  else if Ascii.eqb c "n" then Some (chr 10)
  else if Ascii.eqb c "r" then Some (chr 13)
  else if Ascii.eqb c "t" then Some (chr 9)
  else None.

Definition cons_char (c : ascii) (r : result (string * string)) : result (string * string) :=
  match r with
  | Ok (s, rest) => Ok (String c s, rest)
  | Raise e => Raise e
  end.

(** [scanstring] in strict mode, from the character after the opening
    quote: the decoded text and what follows the closing quote. *)
Fixpoint scanstring (s : string) : result (string * string) :=
  match s with
  | EmptyString => Raise (JSONDecodeError "Unterminated string starting at")
  | String c s' =>
      if Ascii.eqb c dquote then Ok (EmptyString, s')
      else if Ascii.eqb c backslash then
        match s' with
        | EmptyString => Raise (JSONDecodeError "Unterminated string starting at")
        | String e s'' =>
            if Ascii.eqb e "u" then
              match s'' with
              | String h1 (String h2 (String h3 (String h4 s3))) =>
                  match hex4 h1 h2 h3 h4 with
                  | Some n =>
                      if (n <? 256)%nat then cons_char (chr n) (scanstring s3)
                      else Raise CodePointAbove255
                  | None => Raise (JSONDecodeError "Invalid \uXXXX escape")
                  end
              | _ => Raise (JSONDecodeError "Invalid \uXXXX escape")
              end
            else
              match unescape e with
              | Some c' => cons_char c' (scanstring s'')
              | None => Raise (JSONDecodeError "Invalid \escape")
              end
        end
      else if (ord c <? 32)%nat then Raise (JSONDecodeError "Invalid control character at")
      else cons_char c (scanstring s')
  end.

(** The longest prefix of decimal digits, and the rest. *)
Fixpoint span_digits (s : string) : string * string :=
  match s with
  | EmptyString => (EmptyString, EmptyString)
  | String c s' =>
      if is_digit c
      then let '(ds, rest) := span_digits s' in (String c ds, rest)
      else (EmptyString, s)
  end.

(** The integer part of a number: [0], or a non-zero digit and digits. *)
Definition scan_int (s : string) : option (string * string) :=
  match s with
  | String c s' =>
      if Ascii.eqb c "0" then Some ("0", s')
      else if is_digit c then let '(ds, rest) := span_digits s' in Some (String c ds, rest)
      else None
  | EmptyString => None
  end.

(** The fraction: a point and at least one digit, or nothing. *)
Definition scan_frac (s : string) : option string * string :=
  match s with
  | String "." s' =>
      match span_digits s' with
      | (EmptyString, _) => (None, s)
      | (ds, rest) => (Some ds, rest)
      end
  | _ => (None, s)
  end.

(** The exponent: [e] or [E], an optional sign, at least one digit. *)
Definition scan_exp (s : string) : option Z * string :=
  match s with
  | String c s' =>
      if Ascii.eqb c "e" || Ascii.eqb c "E" then
        let '(neg, s'') :=
          match s' with
          | String "-" t => (true, t)
          | String "+" t => (false, t)
          | _ => (false, s')
          end in
        match span_digits s'' with
        | (EmptyString, _) => (None, s)
        | (ds, rest) => (Some (if neg then - digits_value 0 ds else digits_value 0 ds), rest)
        end
      else (None, s)
  | EmptyString => (None, s)
  end.

(** [NUMBER_RE]: an [int] without fraction and exponent, else a [float]. *)
Definition match_number (s : string) : option (pyval * string) :=
  let '(neg, s1) := match s with String "-" t => (true, t) | _ => (false, s) end in
  match scan_int s1 with
  | None => None
  | Some (ip, s2) =>
      let '(frac, s3) := scan_frac s2 in
      let '(ex, s4) := scan_exp s3 in
      match frac, ex with
      | None, None =>
          let n := digits_value 0 ip in
          Some (PInt (if neg then - n else n), s4)
      | _, _ =>
          let fd := match frac with Some ds => ds | None => EmptyString end in
          let e := match ex with Some e => e | None => 0 end in
          Some (PFloat (float_of_decimal neg (digits_value 0 (ip +:+ fd))
                          (e - Z.of_nat (String.length fd))), s4)
      end
  end.

(** The values that are neither a string nor a container. *)
Definition scan_atom (s : string) : result (pyval * string) :=
  match strip_prefix "null" s with
  | Some r => Ok (PNone, r)
  | None =>
  match strip_prefix "true" s with
  | Some r => Ok (PBool true, r)
  | None =>
  match strip_prefix "false" s with
  | Some r => Ok (PBool false, r)
  | None =>
  match match_number s with
  | Some r => Ok r
  | None =>
  match strip_prefix "NaN" s with
  | Some r => Ok (PFloat PrimFloat.nan, r)
  | None =>
  match strip_prefix "Infinity" s with
  | Some r => Ok (PFloat PrimFloat.infinity, r)
  | None =>
  match strip_prefix "-Infinity" s with
  | Some r => Ok (PFloat PrimFloat.neg_infinity, r)
  | None => Raise (JSONDecodeError "Expecting value")
  end end end end end end end.

(** The fuel is spent on nesting and on items; [json_loads] supplies
    more than any text of that length can use ([json_loads_fuel]). *)
Definition OutOfFuel : exn := JSONDecodeError "out of fuel".

(** [scan_once], [JSONArray] and [JSONObject]: one value at the head of
    [s], and the text after it. [array_items] reads the items of a
    non-empty array from the first character of an item on, after the
    items [acc] (latest first); [object_items] the members of an object
    from the character after the opening quote of a key on. *)
Fixpoint scan_once (fuel : nat) (s : string) {struct fuel} : result (pyval * string) :=
  match fuel with
  | O => Raise OutOfFuel
  | S fuel' =>
      match s with
      | EmptyString => Raise (JSONDecodeError "Expecting value")
      | String c s' =>
          if Ascii.eqb c dquote then
            match scanstring s' with
            | Ok (str, rest) => Ok (PStr str, rest)
            | Raise e => Raise e
            end
          else if Ascii.eqb c "{" then
            match skip_ws s' with
            | String c1 s1 =>
                if Ascii.eqb c1 "}" then Ok (PDict [], s1)
                else if Ascii.eqb c1 dquote then
                  match object_items fuel' s1 [] with
                  | Ok (pairs, rest) => Ok (PDict (dict_of_pairs pairs), rest)
                  | Raise e => Raise e
                  end
                else Raise (JSONDecodeError "Expecting property name enclosed in double quotes")
            | EmptyString =>
                Raise (JSONDecodeError "Expecting property name enclosed in double quotes")
            end
          else if Ascii.eqb c "[" then
            match strip_prefix "]" (skip_ws s') with
            | Some s1 => Ok (PList [], s1)
            | None =>
                match array_items fuel' (skip_ws s') [] with
                | Ok (values, rest) => Ok (PList values, rest)
                | Raise e => Raise e
                end
            end
          else scan_atom s
      end
  end
with array_items (fuel : nat) (s : string) (acc : list pyval) {struct fuel}
  : result (list pyval * string) :=
  match fuel with
  | O => Raise OutOfFuel
  | S fuel' =>
      match scan_once fuel' s with
      | Raise e => Raise e
      | Ok (v, rest) =>
          match skip_ws rest with
          | String c rest' =>
              if Ascii.eqb c "]" then Ok (List.rev (v :: acc), rest')
              else if Ascii.eqb c "," then array_items fuel' (skip_ws rest') (v :: acc)
              else Raise (JSONDecodeError "Expecting ',' delimiter")
          | EmptyString => Raise (JSONDecodeError "Expecting ',' delimiter")
          end
      end
  end
with object_items (fuel : nat) (s : string) (acc : list (string * pyval)) {struct fuel}
  : result (list (string * pyval) * string) :=
  match fuel with
  | O => Raise OutOfFuel
  | S fuel' =>
      match scanstring s with
      | Raise e => Raise e
      | Ok (key, rest) =>
          match strip_prefix ":" (skip_ws rest) with
          | Some rest1 =>
              match scan_once fuel' (skip_ws rest1) with
              | Raise e => Raise e
              | Ok (v, rest2) =>
                  match skip_ws rest2 with
                  | String c rest3 =>
                      if Ascii.eqb c "}" then Ok (List.rev ((key, v) :: acc), rest3)
                      else if Ascii.eqb c "," then
                        match skip_ws rest3 with
                        | String c4 rest4 =>
                            if Ascii.eqb c4 dquote
                            then object_items fuel' rest4 ((key, v) :: acc)
                            else Raise (JSONDecodeError
                                   "Expecting property name enclosed in double quotes")
                        | EmptyString =>
                            Raise (JSONDecodeError
                              "Expecting property name enclosed in double quotes")
                        end
                      else Raise (JSONDecodeError "Expecting ',' delimiter")
                  | EmptyString => Raise (JSONDecodeError "Expecting ',' delimiter")
                  end
              end
          | None => Raise (JSONDecodeError "Expecting ':' delimiter")
          end
      end
  end.

(** [json.loads(s)]: one value between optional whitespace, and nothing
    after it. *)
Definition json_loads (s : string) : result pyval :=
  match scan_once (2 * String.length s + 2) (skip_ws s) with
  | Raise e => Raise e
  | Ok (v, rest) =>
      match skip_ws rest with
      | EmptyString => Ok v
      | _ => Raise (JSONDecodeError "Extra data")
      end
  end.

(** Replaces each back quote by a double quote: lets the examples of
    this file write JSON text in a string literal. *)
Fixpoint qq (s : string) : string :=
  match s with
  | EmptyString => EmptyString
  | String c s' => String (if Ascii.eqb c "`" then dquote else c) (qq s')
  end.

(** ** indexer.py *)

Definition CHUNK_WORDS : nat := 250.
Definition OVERLAP_WORDS : nat := 50.
Definition INDEX_DIR : string := ".doc_qa_index".

(** What persists between calls: the files of the index directory, by
    path, and the number of UUIDs drawn so far. *)
Record world : Type := {
  files : gmap string string;
  uuid_drawn : nat
}.

(** A segment as the extractor returns it: [(text, page_num, section)]. *)
Definition segment : Type := string * option Z * option string.

Definition py_opt_int (o : option Z) : pyval :=
  match o with Some z => PInt z | None => PNone end.

Definition py_opt_str (o : option string) : pyval :=
  match o with Some s => PStr s | None => PNone end.

(** [l[start:stop]] for [0 <= start] and [0 <= stop]. *)
Definition slice {A : Type} (l : list A) (start stop : nat) : list A :=
  take (stop - start) (drop start l).

(** [l[:k]]; a negative [k] counts from the end. *)
Definition slice_to {A : Type} (l : list A) (k : Z) : list A :=
  if 0 <=? k then take (Z.to_nat k) l
  else take (length l - Z.to_nat (- k)) l.

(** [for c in v]: the items of a list, the keys of a dict, the
    characters of a str. *)
Definition py_iter (v : pyval) : result (list pyval) :=
  match v with
  | PList l => Ok l
  | PDict d => Ok (List.map (fun kv => PStr (fst kv)) d)
  | PStr s => Ok (List.map (fun c => PStr (String c EmptyString)) (list_ascii_of_string s))
  | _ => Raise TypeError
  end.

(** [_tokenize]: [text.lower().split()]. *)
Definition _tokenize (text : string) : list string := str_split (str_lower text).

(** [_tokenize(c["text"])] on a value read back from disk. *)
Definition tokenize_text (c : pyval) : result (list string) :=
  match py_item c "text" with
  | Raise e => Raise e
  | Ok (PStr t) => Ok (_tokenize t)
  | Ok _ => Raise AttributeError
  end.

(** [s.split("/")]. *)
Fixpoint split_slash (s : string) : list string :=
  match s with
  | EmptyString => [EmptyString]
  | String c s' =>
      if Ascii.eqb "/" c then EmptyString :: split_slash s'
      else match split_slash s' with
           | w :: ws => String c w :: ws
           | [] => [String c EmptyString]
           end
  end.

(** The components pathlib keeps of a path text on a POSIX system:
    those that are neither empty nor [.]; [..] stays. *)
Definition path_parts (s : string) : list string :=
  List.filter (fun x => negb (String.eqb x "") && negb (String.eqb x ".")) (split_slash s).

(** The root of a path text: none for a relative path, [//] for exactly
    two leading slashes, [/] otherwise. *)
Definition path_root (s : string) : string :=
  match strip_prefix "///" s, strip_prefix "//" s, strip_prefix "/" s with
  | Some _, _, _ => "/"
  | None, Some _, _ => "//"
  | None, None, Some _ => "/"
  | None, None, None => ""
  end.

(** [str(Path(base) / name)] for a relative [base]: an absolute [name]
    replaces [base]; the components are joined by single slashes. *)
Definition path_join (base name : string) : string :=
  match path_root name with
  | EmptyString => str_join "/" (path_parts base ++ path_parts name)
  | root => root +:+ str_join "/" (path_parts name)
  end.

(** The path of the index file of [doc_id]:
    [INDEX_DIR / f"{doc_id}_chunks.json"]. The files of a world are
    kept by this text. *)
Definition index_path (doc_id : string) : string :=
  path_join INDEX_DIR (doc_id +:+ "_chunks.json").

Section Indexer.

(** [hashlib.md5(s.encode()).hexdigest()]. *)
Variable md5_hexdigest : string -> string.

(** [uuid.uuid4().hex] of the [n]-th UUID the process draws. *)
Variable uuid4_hex : nat -> string.

(** The rank_bm25 scorer: the constructor over the tokenized corpus, and
    one score per document of the corpus for a tokenized query. *)
Variable bm25 : Type.
Variable BM25Okapi : list (list string) -> result bm25.
Variable get_scores : bm25 -> list string -> list float.

Definition _doc_id (filepath : string) : string :=
  String.substring 0 12 (md5_hexdigest filepath).

(** The dict literal of [_build_chunks]. *)
Definition new_chunk (drawn : nat) (doc_id chunk_text : string)
    (page_num : option Z) (section : option string) (start : nat) : pyval :=
  PDict [("chunk_id", PStr (String.substring 0 8 (uuid4_hex drawn)));
         ("doc_id", PStr doc_id);
         ("text", PStr chunk_text);
         ("page_num", py_opt_int page_num);
         ("section", py_opt_str section);
         ("word_start", PInt (Z.of_nat start))].

(** The [while start < len(words)] loop of [_build_chunks] over the
    words of one segment, from offset [start] on, [drawn] UUIDs having
    been drawn: the chunks appended, and the UUIDs drawn after it. Each
    round spends one unit of [fuel]. *)
Fixpoint chunk_words (fuel : nat) (doc_id : string) (words : list string)
    (page_num : option Z) (section : option string) (start drawn : nat)
  : list pyval * nat :=
  match fuel with
  | O => ([], drawn)
  | S fuel' =>
      if (start <? length words)%nat then
        let end_ := Nat.min (start + CHUNK_WORDS) (length words) in
        let chunk_text := str_join " " (slice words start end_) in
        let chunk := new_chunk drawn doc_id chunk_text page_num section start in
        if (end_ =? length words)%nat then ([chunk], S drawn)
        else
          let '(more, drawn') :=
            chunk_words fuel' doc_id words page_num section
              (start + (CHUNK_WORDS - OVERLAP_WORDS)) (S drawn) in
          (chunk :: more, drawn')
      else ([], drawn)
  end.

(** [_build_chunks]: the chunks of every segment, in order. The loop
    over the words of a segment makes at most one round per word. *)
Fixpoint _build_chunks (doc_id : string) (segments : list segment) (drawn : nat)
  : list pyval * nat :=
  match segments with
  | [] => ([], drawn)
  | (text, page_num, section) :: rest =>
      let words := str_split text in
      let '(here, drawn1) :=
        chunk_words (length words) doc_id words page_num section 0 drawn in
      let '(later, drawn2) := _build_chunks doc_id rest drawn1 in
      (here ++ later, drawn2)
  end.

(** The object [index_document] dumps. *)
Definition index_record (doc_id filepath : string) (chunks : list pyval) : pyval :=
  PDict [("doc_id", PStr doc_id); ("filepath", PStr filepath); ("chunks", PList chunks)].

(** [index_document]: the doc_id, and the world with the index file
    written (replacing any file of that path). Creating the index
    directory leaves the files as they are. *)
Definition index_document (filepath : string) (segments : list segment) (w : world)
  : string * world :=
  let doc_id := _doc_id filepath in
  let '(chunks, drawn) := _build_chunks doc_id segments (uuid_drawn w) in
  (doc_id,
   {| files := <[index_path doc_id := json_dumps (index_record doc_id filepath chunks)]> (files w);
      uuid_drawn := drawn |}).

(** [load_index]: [(data["chunks"], BM25Okapi(tokenized))]. *)
Definition load_index (doc_id : string) (w : world) : result (pyval * bm25) :=
  match files w !! index_path doc_id with
  | None => Raise FileNotFoundError
  | Some text =>
      data ← json_loads text;
      chunks ← py_item data "chunks";
      cs ← py_iter chunks;
      tokenized ← result_mapM tokenize_text cs;
      index ← BM25Okapi tokenized;
      Ok (chunks, index)
  end.

(** ** retriever.py *)

Definition TOP_K : Z := 6.

(** [sorted(l, key=..., reverse=True)]: the list is reversed, sorted
    stably in ascending order with [<] on the keys, and reversed again.
    The ascending sort is by insertion from the right; an element goes
    in front of the first one that is not below it. *)
Fixpoint insert_sorted {A : Type} (lt : A -> A -> bool) (x : A) (l : list A) : list A :=
  match l with
  | [] => [x]
  | y :: ys => if lt y x then y :: insert_sorted lt x ys else x :: l
  end.

Definition py_sorted {A : Type} (lt : A -> A -> bool) (l : list A) : list A :=
  List.fold_right (insert_sorted lt) [] l.

Definition py_sorted_reverse {A : Type} (lt : A -> A -> bool) (l : list A) : list A :=
  List.rev (py_sorted lt (List.rev l)).

(** [x[1] < y[1]] on the pairs [zip(chunks, scores)] yields. *)
Definition score_lt (x y : pyval * float) : bool := PrimFloat.ltb (snd x) (snd y).

(** [{**chunk, "score": round(float(score), 4)}]. *)
Definition with_score (cs : pyval * float) : result pyval :=
  match fst cs with
  | PDict d => Ok (PDict (dict_set "score" (PFloat (round4 (snd cs))) d))
  | _ => Raise TypeError
  end.

(** [zip(a, b)]: pairs up to the end of the shorter list. *)
Fixpoint py_zip {A B : Type} (a : list A) (b : list B) : list (A * B) :=
  match a, b with
  | x :: a', y :: b' => (x, y) :: py_zip a' b'
  | _, _ => []
  end.

Definition retrieve (doc_id question : string) (top_k : Z) (w : world)
  : result (list pyval) :=
  loaded ← load_index doc_id w;
  let scores := get_scores (snd loaded) (_tokenize question) in
  cs ← py_iter (fst loaded);
  let scored := py_sorted_reverse score_lt (py_zip cs scores) in
  result_mapM with_score (slice_to scored top_k).

End Indexer.

Arguments load_index {bm25} BM25Okapi doc_id w.
Arguments retrieve {bm25} BM25Okapi get_scores doc_id question top_k w.

(** ** composer.py *)

(** The system prompt. Its two dashes above U+00FF are written as
    hyphens. *)
Definition _SYSTEM : string := qq
"You are a Document Q&A assistant. You answer questions ONLY using the passages provided.

Rules - follow these without exception:
1. Use ONLY the provided passages. Never use outside knowledge or training data.
2. If the passages do not contain enough information to answer the question, set `found`: false
   and answer with exactly: `I can't find this in the document.`
3. Every claim in your answer must be traceable to at least one passage via its chunk_id.
4. Citations must include a short verbatim snippet (1-3 lines) from the passage.
5. Do not speculate, extrapolate, or fill gaps with general knowledge.

Return ONLY valid JSON - no preamble, no explanation, no markdown fences:
{
  `found`: true | false,
  `answer`: `Your concise factual answer, or 'I can\'t find this in the document.' if not found.`,
  `citations`: [
    {
      `chunk_id`: `the chunk_id of the passage you used`,
      `page_num`: null or integer,
      `section`: `section label or null`,
      `snippet`: `exact 1-3 line quote from the passage supporting this claim`
    }
  ]
}

When found is false, still populate citations with the top passages that were checked,
so the user can verify what the system looked at.".

(** The refusal text of rule 2 of the prompt. *)
Definition REFUSAL : string := "I can't find this in the document.".

(** The dict [compose_answer] returns. *)
Record qa_result : Type := {
  question : string;
  doc_id : string;
  found : pyval;
  answer : pyval;
  citations : pyval;
  retrieved_chunk_ids : list pyval;
  fallback : bool
}.

(** The location label of a passage: the body of the loop of
    [_build_user_message] up to [loc]. *)
Definition passage_loc (chunk : pyval) : result string :=
  page ← py_get chunk "page_num" PNone;
  parts1 ← (if py_truth page
            then (p ← py_item chunk "page_num"; Ok ["Page " +:+ py_str p])
            else Ok []);
  sec ← py_get chunk "section" PNone;
  parts2 ← (if py_truth sec
            then (s ← py_item chunk "section"; Ok (parts1 ++ ["Section: " +:+ py_str s]))
            else Ok parts1);
  let joined := str_join " | " parts2 in
  Ok (if py_truth (PStr joined) then joined else "Location unknown").

(** One entry of [passages], for the chunk at position [i]. *)
Definition passage (i : nat) (chunk : pyval) : result string :=
  loc ← passage_loc chunk;
  cid ← py_item chunk "chunk_id";
  text ← py_item chunk "text";
  Ok ("[Passage " +:+ int_str (Z.of_nat i) +:+ " | chunk_id: " +:+ py_str cid +:+ " | " +:+ loc
      +:+ "]" +:+ String newline (py_str text)).

(** [for i, chunk in enumerate(chunks, start=i)]. *)
Fixpoint passages_from (i : nat) (chunks : list pyval) : result (list string) :=
  match chunks with
  | [] => Ok []
  | chunk :: rest =>
      p ← passage i chunk;
      ps ← passages_from (S i) rest;
      Ok (p :: ps)
  end.

Definition two_newlines : string := String newline (String newline EmptyString).

(** The text [_build_user_message] returns, for the entries of
    [passages]. *)
Definition user_message (question : string) (passages : list string) : string :=
  let passages_block := str_join two_newlines passages in
  "Question: " +:+ question +:+ two_newlines
  +:+ "---" +:+ two_newlines
  +:+ "Passages retrieved from the document:" +:+ two_newlines
  +:+ passages_block +:+ two_newlines
  +:+ "---" +:+ two_newlines
  +:+ "Answer the question using ONLY these passages. Return valid JSON.".

Definition _build_user_message (question : string) (chunks : list pyval) : result string :=
  passages ← passages_from 1 chunks;
  Ok (user_message question passages).

Definition _parse_json (text : string) : result pyval :=
  inner ← (if str_contains "```json" text
           then (after ← split1_snd "```json" text; Ok (split1_fst "```" after))
           else if str_contains "```" text
           then (after ← split1_snd "```" text; Ok (split1_fst "```" after))
           else Ok text);
  json_loads (str_strip inner).

Section Composer.

(** [_client.messages.create(model, max_tokens, system, messages)]: the
    texts of the content blocks of the response, or the exception the
    client raises. A message is a pair of a role and a content. *)
Variable messages_create :
  string -> Z -> string -> list (string * string) -> result (list string).

Definition compose_answer (question : string) (chunks : list pyval) (doc_id : string)
  : result qa_result :=
  user_msg ← _build_user_message question chunks;
  content ← messages_create "claude-opus-4-6" 1024 _SYSTEM [("user", user_msg)];
  first ← match content with [] => Raise IndexError | t :: _ => Ok t end;
  let raw := str_strip first in
  data ← _parse_json raw;
  found_ ← py_get data "found" (PBool false);
  answer_ ← py_get data "answer" (PStr "");
  citations_ ← py_get data "citations" (PList []);
  ids ← result_mapM (fun c => py_item c "chunk_id") chunks;
  found_or_true ← py_get data "found" (PBool true);
  Ok {| question := question;
        doc_id := doc_id;
        found := found_;
        answer := answer_;
        citations := citations_;
        retrieved_chunk_ids := ids;
        fallback := negb (py_truth found_or_true) |}.

End Composer.

(** * Properties *)

(** ** Results *)

Lemma bind_Ok_inv {A B : Type} (m : result A) (f : A -> result B) (b : B) :
  (m ≫= f) = Ok b -> exists a, m = Ok a /\ f a = Ok b.
Proof.
  destruct m as [a|e]; simpl; intros H; [eauto | discriminate].
Qed.

(** Splits a hypothesis [x ← m; k = Ok r] into [m = Ok x] and [k = Ok r]. *)
Ltac bind_inv H :=
  let x := fresh "x" in
  let Hx := fresh "Hx" in
  apply bind_Ok_inv in H; destruct H as (x & Hx & H).

Lemma result_mapM_Forall2 {A B : Type} (f : A -> result B) (l : list A) (l' : list B) :
  result_mapM f l = Ok l' <-> Forall2 (fun a b => f a = Ok b) l l'.
Proof.
  revert l'. induction l as [|a l IH]; intros l'; simpl.
  - split.
    + intros [= <-]. constructor.
    + intros H. inversion H. reflexivity.
  - split.
    + destruct (f a) as [b|e] eqn:Hfa; [|discriminate].
      destruct (result_mapM f l) as [bs|e] eqn:Hl; [|discriminate].
      intros [= <-]. constructor; [assumption|]. apply IH. reflexivity.
    + intros H. inversion H as [|a' b l1 bs Hab Hrest]; subst.
      rewrite Hab. apply IH in Hrest. rewrite Hrest. reflexivity.
Qed.

(** ** composer.py: the shape of every result *)

Definition opt_or (o : option pyval) (default : pyval) : pyval :=
  match o with Some x => x | None => default end.

(** [cid] is the [chunk_id] of one of the citations of [v]. *)
Definition cites (v : pyval) (cid : pyval) : Prop :=
  exists cs c, py_iter v = Ok cs /\ In c cs /\ py_item c "chunk_id" = Ok cid.

(** Every cited [chunk_id] is one of [retrieved_chunk_ids]. *)
Definition grounded (r : qa_result) : Prop :=
  forall cid, cites (citations r) cid -> In cid (retrieved_chunk_ids r).

Lemma py_get_dict (d : list (string * pyval)) (k : string) (default : pyval) :
  py_get (PDict d) k default = Ok (opt_or (dict_get k d) default).
Proof. reflexivity. Qed.

Lemma py_get_Ok_inv (v : pyval) (k : string) (default x : pyval) :
  py_get v k default = Ok x -> exists d, v = PDict d /\ x = opt_or (dict_get k d) default.
Proof.
  destruct v; simpl; try discriminate. intros [= <-]. eauto.
Qed.

Lemma passage_chunk_id (i : nat) (c : pyval) (p : string) :
  passage i c = Ok p -> exists cid, py_item c "chunk_id" = Ok cid.
Proof.
  unfold passage. intros H. bind_inv H. bind_inv H. eauto.
Qed.

Lemma passages_from_chunk_ids (chunks : list pyval) :
  forall i ps, passages_from i chunks = Ok ps ->
  exists ids, result_mapM (fun c => py_item c "chunk_id") chunks = Ok ids.
Proof.
  induction chunks as [|c chunks IH]; intros i ps H; simpl in *.
  - eauto.
  - bind_inv H. bind_inv H.
    destruct (passage_chunk_id _ _ _ Hx) as [cid Hcid].
    destruct (IH _ _ Hx0) as [ids Hids].
    exists (cid :: ids). rewrite Hcid, Hids. reflexivity.
Qed.

Lemma build_user_message_chunk_ids (q : string) (chunks : list pyval) (msg : string) :
  _build_user_message q chunks = Ok msg ->
  exists ids, result_mapM (fun c => py_item c "chunk_id") chunks = Ok ids.
Proof.
  unfold _build_user_message. intros H. bind_inv H.
  eapply passages_from_chunk_ids; eassumption.
Qed.

Section ComposerFacts.

Variable messages_create :
  string -> Z -> string -> list (string * string) -> result (list string).

(** What [compose_answer] sends to the backend for a user message. *)
Definition backend_reply (msg : string) : result (list string) :=
  messages_create "claude-opus-4-6" 1024 _SYSTEM [("user", msg)].

(** A returned result fixes every step that led to it. *)
Lemma compose_answer_Ok_inv (q : string) (chunks : list pyval) (d : string) (r : qa_result) :
  compose_answer messages_create q chunks d = Ok r ->
  exists msg first rest dd,
    _build_user_message q chunks = Ok msg /\
    backend_reply msg = Ok (first :: rest) /\
    _parse_json (str_strip first) = Ok (PDict dd) /\
    result_mapM (fun c => py_item c "chunk_id") chunks = Ok (retrieved_chunk_ids r) /\
    question r = q /\
    doc_id r = d /\
    found r = opt_or (dict_get "found" dd) (PBool false) /\
    answer r = opt_or (dict_get "answer" dd) (PStr "") /\
    citations r = opt_or (dict_get "citations" dd) (PList []) /\
    fallback r = negb (py_truth (opt_or (dict_get "found" dd) (PBool true))).
Proof.
  unfold compose_answer. intros H.
  bind_inv H. rename x into msg.
  bind_inv H. rename x into content.
  bind_inv H. rename x into first.
  destruct content as [|first' rest]; [discriminate|]. injection Hx1 as ->.
  bind_inv H. rename x into data.
  bind_inv H. apply py_get_Ok_inv in Hx2 as (dd & -> & ->).
  bind_inv H. bind_inv H. bind_inv H. bind_inv H.
  rewrite py_get_dict in Hx2, Hx3, Hx5.
  injection Hx2 as <-. injection Hx3 as <-. injection Hx5 as <-.
  injection H as <-. simpl.
  exists msg, first, rest, dd. unfold backend_reply. tauto.
Qed.

(** The result for a reply that parses to a JSON object. *)
Lemma compose_answer_object (q : string) (chunks : list pyval) (d msg first : string)
    (rest : list string) (dd : list (string * pyval)) :
  _build_user_message q chunks = Ok msg ->
  backend_reply msg = Ok (first :: rest) ->
  _parse_json (str_strip first) = Ok (PDict dd) ->
  exists ids,
    result_mapM (fun c => py_item c "chunk_id") chunks = Ok ids /\
    compose_answer messages_create q chunks d =
      Ok {| question := q;
            doc_id := d;
            found := opt_or (dict_get "found" dd) (PBool false);
            answer := opt_or (dict_get "answer" dd) (PStr "");
            citations := opt_or (dict_get "citations" dd) (PList []);
            retrieved_chunk_ids := ids;
            fallback := negb (py_truth (opt_or (dict_get "found" dd) (PBool true))) |}.
Proof.
  intros Hmsg Hreply Hparse.
  destruct (build_user_message_chunk_ids _ _ _ Hmsg) as [ids Hids].
  exists ids. split; [assumption|].
  unfold compose_answer. rewrite Hmsg. simpl.
  unfold backend_reply in Hreply. rewrite Hreply. simpl.
  rewrite Hparse. simpl. rewrite Hids. reflexivity.
Qed.

(** The exception for a reply that does not parse, or parses to
    something else than an object. *)
Lemma compose_answer_raises (q : string) (chunks : list pyval) (d msg first : string)
    (rest : list string) :
  _build_user_message q chunks = Ok msg ->
  backend_reply msg = Ok (first :: rest) ->
  match _parse_json (str_strip first) with
  | Raise e => compose_answer messages_create q chunks d = Raise e
  | Ok (PDict _) => True
  | Ok _ => compose_answer messages_create q chunks d = Raise AttributeError
  end.
Proof.
  intros Hmsg Hreply.
  unfold compose_answer. rewrite Hmsg. simpl.
  unfold backend_reply in Hreply. rewrite Hreply. simpl.
  destruct (_parse_json (str_strip first)) as [data|e]; [|reflexivity].
  destruct data; simpl; first [exact I | reflexivity].
Qed.

End ComposerFacts.

(** ** composer.py: the claims about [compose_answer] *)

(** A retrieved chunk, and a backend that answers every request with
    one text block. *)
Definition demo_chunk : pyval :=
  PDict [("chunk_id", PStr "ab12cd34");
         ("doc_id", PStr "0f3a9c1d2b4e");
         ("text", PStr "Paris is the capital of France.");
         ("page_num", PInt 1);
         ("section", PStr "Page 1");
         ("word_start", PInt 0);
         ("score", PFloat 1.5)].

Definition reply_with (text : string)
  : string -> Z -> string -> list (string * string) -> result (list string) :=
  fun _ _ _ _ => Ok [text].

(** C1 (the code departs from it). When the object the backend returns
    has no [found] key, [compose_answer] returns [found = False], and
    [fallback = not True = False]: the two defaults of [found] differ,
    so [fallback] is not the negation of [found]. *)
Theorem compose_answer_found_missing
    (messages_create : string -> Z -> string -> list (string * string) -> result (list string))
    (q : string) (chunks : list pyval) (d : string) (r : qa_result)
    (msg first : string) (rest : list string) (dd : list (string * pyval)) :
  compose_answer messages_create q chunks d = Ok r ->
  _build_user_message q chunks = Ok msg ->
  backend_reply messages_create msg = Ok (first :: rest) ->
  _parse_json (str_strip first) = Ok (PDict dd) ->
  dict_get "found" dd = None ->
  found r = PBool false /\ fallback r = false /\ fallback r <> negb (py_truth (found r)).
Proof.
  intros Hr Hmsg Hreply Hparse Hnone.
  destruct (compose_answer_object messages_create q chunks d msg first rest dd Hmsg Hreply Hparse)
    as (ids & _ & Heq).
  rewrite Heq in Hr. injection Hr as <-. simpl. rewrite Hnone. simpl.
  repeat split. discriminate.
Qed.

Lemma compose_answer_found_missing_witness :
  compose_answer (reply_with (qq "{`answer`: `Paris.`, `citations`: []}"))
    "What is the capital of France?" [demo_chunk] "0f3a9c1d2b4e"
    = Ok {| question := "What is the capital of France?";
            doc_id := "0f3a9c1d2b4e";
            found := PBool false;
            answer := PStr "Paris.";
            citations := PList [];
            retrieved_chunk_ids := [PStr "ab12cd34"];
            fallback := false |}
  /\ (PBool false = PBool false /\ false = false /\ false <> negb (py_truth (PBool false))).
Proof.
  split; [vm_compute; reflexivity|].
  eapply (compose_answer_found_missing
            (reply_with (qq "{`answer`: `Paris.`, `citations`: []}"))
            "What is the capital of France?" [demo_chunk] "0f3a9c1d2b4e"
            {| question := "What is the capital of France?";
               doc_id := "0f3a9c1d2b4e";
               found := PBool false;
               answer := PStr "Paris.";
               citations := PList [];
               retrieved_chunk_ids := [PStr "ab12cd34"];
               fallback := false |}).
  - vm_compute; reflexivity.
  - vm_compute; reflexivity.
  - reflexivity.
  - vm_compute; reflexivity.
  - vm_compute; reflexivity.
Defined.

(** X13. Where the object has a [found] key, [fallback] is its negation. *)
Lemma compose_answer_found_present
    (messages_create : string -> Z -> string -> list (string * string) -> result (list string))
    (q : string) (chunks : list pyval) (d : string) (r : qa_result)
    (msg first : string) (rest : list string) (dd : list (string * pyval)) (v : pyval) :
  compose_answer messages_create q chunks d = Ok r ->
  _build_user_message q chunks = Ok msg ->
  backend_reply messages_create msg = Ok (first :: rest) ->
  _parse_json (str_strip first) = Ok (PDict dd) ->
  dict_get "found" dd = Some v ->
  found r = v /\ fallback r = negb (py_truth (found r)).
Proof.
  intros Hr Hmsg Hreply Hparse Hsome.
  destruct (compose_answer_object messages_create q chunks d msg first rest dd Hmsg Hreply Hparse)
    as (ids & _ & Heq).
  rewrite Heq in Hr. injection Hr as <-. simpl. rewrite Hsome. simpl. split; reflexivity.
Qed.

(** C2, as the code has it. Given the reply of the backend: when the
    text, fences stripped, is a JSON object, [compose_answer] returns a
    result whose [found], [answer] and [citations] are the values of
    the object, a missing key defaulted to [False], the empty string and
    the empty list; when [json.loads] raises, [compose_answer] raises
    the same exception; when the text is JSON but no object, it raises
    [AttributeError]. *)
Theorem compose_answer_defaults_or_raises
    (messages_create : string -> Z -> string -> list (string * string) -> result (list string))
    (q : string) (chunks : list pyval) (d msg first : string) (rest : list string) :
  _build_user_message q chunks = Ok msg ->
  backend_reply messages_create msg = Ok (first :: rest) ->
  match _parse_json (str_strip first) with
  | Ok (PDict dd) =>
      exists r,
        compose_answer messages_create q chunks d = Ok r /\
        found r = opt_or (dict_get "found" dd) (PBool false) /\
        answer r = opt_or (dict_get "answer" dd) (PStr "") /\
        citations r = opt_or (dict_get "citations" dd) (PList [])
  | Ok _ => compose_answer messages_create q chunks d = Raise AttributeError
  | Raise e => compose_answer messages_create q chunks d = Raise e
  end.
Proof.
  intros Hmsg Hreply.
  pose proof (compose_answer_raises messages_create q chunks d msg first rest Hmsg Hreply) as Hraise.
  destruct (_parse_json (str_strip first)) as [data|e] eqn:Hparse; [|exact Hraise].
  destruct data; try exact Hraise.
  destruct (compose_answer_object messages_create q chunks d msg first rest _ Hmsg Hreply Hparse)
    as (ids & _ & Heq).
  eexists. split; [exact Heq|]. simpl. repeat split.
Qed.

Lemma compose_answer_defaults_or_raises_witness :
  exists r,
    compose_answer (reply_with (qq "{`citations`: 7}")) "Who?" [demo_chunk] "0f3a9c1d2b4e" = Ok r /\
    found r = PBool false /\ answer r = PStr "" /\ citations r = PInt 7.
Proof.
  pose proof (compose_answer_defaults_or_raises (reply_with (qq "{`citations`: 7}"))
                "Who?" [demo_chunk] "0f3a9c1d2b4e"
                (match _build_user_message "Who?" [demo_chunk] with Ok m => m | Raise _ => "" end)
                (qq "{`citations`: 7}") []) as H.
  change (_parse_json (str_strip (qq "{`citations`: 7}")))
    with (Ok (A:=pyval) (PDict [("citations", PInt 7)])) in H.
  apply H.
  - vm_compute; reflexivity.
  - reflexivity.
Defined.

(** C2 as stated fails: a reply that is no JSON makes [compose_answer]
    raise the decoder's exception. *)
Lemma compose_answer_propagates_parse_failure :
  compose_answer (reply_with "I can't find this in the document.") "Who?" [demo_chunk] "0f3a9c1d2b4e"
    = Raise (JSONDecodeError "Expecting value").
Proof. vm_compute; reflexivity. Qed.

(** C3, as the code has it. [citations] is the value the backend wrote
    (the empty list when it wrote none), unchecked; its chunk ids are
    among [retrieved_chunk_ids] whenever the backend cited only chunks
    that were passed in. *)
Theorem compose_answer_citations_as_replied
    (messages_create : string -> Z -> string -> list (string * string) -> result (list string))
    (q : string) (chunks : list pyval) (d : string) (r : qa_result) :
  compose_answer messages_create q chunks d = Ok r ->
  exists msg first rest dd,
    _build_user_message q chunks = Ok msg /\
    backend_reply messages_create msg = Ok (first :: rest) /\
    _parse_json (str_strip first) = Ok (PDict dd) /\
    citations r = opt_or (dict_get "citations" dd) (PList []) /\
    ((forall cid, cites (citations r) cid ->
        exists c, In c chunks /\ py_item c "chunk_id" = Ok cid) ->
     grounded r).
Proof.
  intros Hr.
  destruct (compose_answer_Ok_inv _ _ _ _ _ Hr)
    as (msg & first & rest & dd & Hmsg & Hreply & Hparse & Hids & _ & _ & _ & _ & Hcit & _).
  exists msg, first, rest, dd. repeat split; try assumption.
  intros Honly cid Hcites.
  destruct (Honly cid Hcites) as (c & Hin & Hc).
  apply result_mapM_Forall2 in Hids.
  clear - Hids Hin Hc. induction Hids as [|c' id cs ids Hc' _ IH]; [destruct Hin|].
  destruct Hin as [<-|Hin].
  - left. congruence.
  - right. exact (IH Hin).
Qed.

Lemma compose_answer_citations_as_replied_witness :
  exists msg first rest dd,
    _build_user_message "Who?" [demo_chunk] = Ok msg /\
    backend_reply (reply_with (qq "{`found`: true, `citations`: [{`chunk_id`: `ab12cd34`}]}")) msg
      = Ok (first :: rest) /\
    _parse_json (str_strip first) = Ok (PDict dd) /\
    PList [PDict [("chunk_id", PStr "ab12cd34")]] = opt_or (dict_get "citations" dd) (PList []) /\
    ((forall cid, cites (PList [PDict [("chunk_id", PStr "ab12cd34")]]) cid ->
        exists c, In c [demo_chunk] /\ py_item c "chunk_id" = Ok cid) ->
     grounded {| question := "Who?";
                 doc_id := "0f3a9c1d2b4e";
                 found := PBool true;
                 answer := PStr "";
                 citations := PList [PDict [("chunk_id", PStr "ab12cd34")]];
                 retrieved_chunk_ids := [PStr "ab12cd34"];
                 fallback := false |}).
Proof.
  apply (compose_answer_citations_as_replied
           (reply_with (qq "{`found`: true, `citations`: [{`chunk_id`: `ab12cd34`}]}"))
           "Who?" [demo_chunk] "0f3a9c1d2b4e"
           {| question := "Who?";
              doc_id := "0f3a9c1d2b4e";
              found := PBool true;
              answer := PStr "";
              citations := PList [PDict [("chunk_id", PStr "ab12cd34")]];
              retrieved_chunk_ids := [PStr "ab12cd34"];
              fallback := false |}).
  vm_compute; reflexivity.
Defined.

(** C3 as stated fails: the backend cites the chunk id [ffffffff], the
    only chunk passed in is [ab12cd34], and the citation is returned. *)
Lemma compose_answer_ungrounded_citation :
  exists r,
    compose_answer (reply_with (qq "{`found`: true, `answer`: `Rome.`, `citations`: [{`chunk_id`: `ffffffff`, `snippet`: `Rome`}]}"))
      "What is the capital of Italy?" [demo_chunk] "0f3a9c1d2b4e" = Ok r /\
    retrieved_chunk_ids r = [PStr "ab12cd34"] /\
    cites (citations r) (PStr "ffffffff") /\
    ~ grounded r.
Proof.
  eexists. split; [vm_compute; reflexivity|]. simpl.
  assert (Hc : cites (PList [PDict [("chunk_id", PStr "ffffffff"); ("snippet", PStr "Rome")]])
                 (PStr "ffffffff")).
  { eexists _, _. split; [reflexivity|]. split; [left; reflexivity|]. reflexivity. }
  repeat split; [exact Hc|].
  intros Hg. specialize (Hg _ Hc). simpl in Hg.
  destruct Hg as [Heq|[]]. discriminate Heq.
Qed.

(** C7, as the code has it. [answer] is the value the backend wrote
    under [answer], whatever [found] is, and the empty string when it
    wrote none; so it is the refusal text exactly when the backend
    wrote the refusal text. *)
Theorem compose_answer_answer_as_replied
    (messages_create : string -> Z -> string -> list (string * string) -> result (list string))
    (q : string) (chunks : list pyval) (d : string) (r : qa_result) :
  compose_answer messages_create q chunks d = Ok r ->
  exists msg first rest dd,
    _build_user_message q chunks = Ok msg /\
    backend_reply messages_create msg = Ok (first :: rest) /\
    _parse_json (str_strip first) = Ok (PDict dd) /\
    answer r = opt_or (dict_get "answer" dd) (PStr "") /\
    (answer r = PStr REFUSAL <-> dict_get "answer" dd = Some (PStr REFUSAL)).
Proof.
  intros Hr.
  destruct (compose_answer_Ok_inv _ _ _ _ _ Hr)
    as (msg & first & rest & dd & Hmsg & Hreply & Hparse & _ & _ & _ & _ & Hans & _).
  exists msg, first, rest, dd. repeat split; try assumption.
  - rewrite Hans. destruct (dict_get "answer" dd); simpl; [congruence|discriminate].
  - intros Hd. rewrite Hans, Hd. reflexivity.
Qed.

Lemma compose_answer_answer_as_replied_witness :
  exists msg first rest dd,
    _build_user_message "Who?" [demo_chunk] = Ok msg /\
    backend_reply (reply_with (qq "{`found`: false, `answer`: `I can't find this in the document.`}")) msg
      = Ok (first :: rest) /\
    _parse_json (str_strip first) = Ok (PDict dd) /\
    PStr REFUSAL = opt_or (dict_get "answer" dd) (PStr "") /\
    (PStr REFUSAL = PStr REFUSAL <-> dict_get "answer" dd = Some (PStr REFUSAL)).
Proof.
  apply (compose_answer_answer_as_replied
           (reply_with (qq "{`found`: false, `answer`: `I can't find this in the document.`}"))
           "Who?" [demo_chunk] "0f3a9c1d2b4e"
           {| question := "Who?";
              doc_id := "0f3a9c1d2b4e";
              found := PBool false;
              answer := PStr REFUSAL;
              citations := PList [];
              retrieved_chunk_ids := [PStr "ab12cd34"];
              fallback := true |}).
  vm_compute; reflexivity.
Defined.

(** C7 as stated fails: [found] is false and [answer] is what the
    backend wrote, not the refusal text; with no [answer] key it is the
    empty string. *)
Lemma compose_answer_not_found_other_answer :
  exists r,
    compose_answer (reply_with (qq "{`found`: false, `answer`: `Possibly Lyon.`}"))
      "What is the capital of France?" [demo_chunk] "0f3a9c1d2b4e" = Ok r /\
    found r = PBool false /\
    py_truth (found r) = false /\
    answer r = PStr "Possibly Lyon." /\
    answer r <> PStr REFUSAL.
Proof.
  eexists. split; [vm_compute; reflexivity|]. simpl. repeat split. discriminate.
Qed.

(** C9. [retrieved_chunk_ids] lists [c["chunk_id"]] for the chunks
    passed in, in their order; it is the same for every backend. *)
Theorem compose_answer_retrieved_chunk_ids
    (messages_create : string -> Z -> string -> list (string * string) -> result (list string))
    (q : string) (chunks : list pyval) (d : string) (r : qa_result) :
  compose_answer messages_create q chunks d = Ok r ->
  Forall2 (fun c cid => py_item c "chunk_id" = Ok cid) chunks (retrieved_chunk_ids r) /\
  (forall other q' d' r',
     compose_answer other q' chunks d' = Ok r' ->
     retrieved_chunk_ids r' = retrieved_chunk_ids r).
Proof.
  intros Hr.
  destruct (compose_answer_Ok_inv _ _ _ _ _ Hr)
    as (_ & _ & _ & _ & _ & _ & _ & Hids & _).
  split.
  - apply result_mapM_Forall2. exact Hids.
  - intros other q' d' r' Hr'.
    destruct (compose_answer_Ok_inv _ _ _ _ _ Hr')
      as (_ & _ & _ & _ & _ & _ & _ & Hids' & _).
    congruence.
Qed.

Lemma compose_answer_retrieved_chunk_ids_witness :
  Forall2 (fun c cid => py_item c "chunk_id" = Ok cid) [demo_chunk; demo_chunk]
    [PStr "ab12cd34"; PStr "ab12cd34"] /\
  (forall other q' d' r',
     compose_answer other q' [demo_chunk; demo_chunk] d' = Ok r' ->
     retrieved_chunk_ids r' = [PStr "ab12cd34"; PStr "ab12cd34"]).
Proof.
  apply (compose_answer_retrieved_chunk_ids
           (reply_with ("```json" +:+ qq "{`found`: true, `citations`: []}" +:+ "```"))
           "Who?" [demo_chunk; demo_chunk] "0f3a9c1d2b4e"
           {| question := "Who?";
              doc_id := "0f3a9c1d2b4e";
              found := PBool true;
              answer := PStr "";
              citations := PList [];
              retrieved_chunk_ids := [PStr "ab12cd34"; PStr "ab12cd34"];
              fallback := false |}).
  vm_compute; reflexivity.
Defined.

(** ** composer.py: the location label of a passage *)

Lemma passage_loc_unknown (d : list (string * pyval)) :
  py_truth (opt_or (dict_get "page_num" d) PNone) = false ->
  py_truth (opt_or (dict_get "section" d) PNone) = false ->
  passage_loc (PDict d) = Ok "Location unknown".
Proof.
  intros Hpage Hsec. unfold passage_loc.
  rewrite !py_get_dict. simpl. rewrite Hpage. simpl. rewrite Hsec. reflexivity.
Qed.

Lemma passage_unknown (i : nat) (d : list (string * pyval)) (cid text : pyval) :
  dict_get "chunk_id" d = Some cid ->
  dict_get "text" d = Some text ->
  py_truth (opt_or (dict_get "page_num" d) PNone) = false ->
  py_truth (opt_or (dict_get "section" d) PNone) = false ->
  passage i (PDict d) =
    Ok ("[Passage " +:+ int_str (Z.of_nat i) +:+ " | chunk_id: " +:+ py_str cid
        +:+ " | Location unknown]" +:+ String newline (py_str text)).
Proof.
  intros Hcid Htext Hpage Hsec. unfold passage.
  rewrite (passage_loc_unknown d Hpage Hsec). simpl.
  rewrite Hcid, Htext. reflexivity.
Qed.

Lemma passages_from_app (a b : list pyval) :
  forall i ps,
    passages_from i (a ++ b) = Ok ps ->
    exists ps1 ps2,
      passages_from i a = Ok ps1 /\
      passages_from (i + length a) b = Ok ps2 /\
      ps = ps1 ++ ps2 /\
      length ps1 = length a.
Proof.
  induction a as [|c a IH]; intros i ps H; simpl in *.
  - exists [], ps. rewrite Nat.add_0_r. auto.
  - bind_inv H. bind_inv H. injection H as <-.
    destruct (IH _ _ Hx0) as (ps1 & ps2 & H1 & H2 & -> & Hlen).
    exists (x :: ps1), ps2. rewrite Hx, H1. simpl.
    replace (i + S (length a))%nat with (S i + length a)%nat by lia.
    rewrite Hlen. auto.
Qed.


(** A chunk of page 0 with an empty section label. *)
Definition page0_chunk : list (string * pyval) :=
  [("chunk_id", PStr "77aa00ff");
   ("doc_id", PStr "0f3a9c1d2b4e");
   ("text", PStr "Preface.");
   ("page_num", PInt 0);
   ("section", PStr "");
   ("word_start", PInt 0)].


(** ** indexer.py: the sliding window of [_build_chunks] *)

(** The window of the [i]-th chunk of a segment of [n] words, in the
    words of the specification: it starts at [i * (W - O)] and spans
    [[start, min(start + W, n))]. *)
Definition window_start (i : nat) : nat := i * (CHUNK_WORDS - OVERLAP_WORDS).
Definition window_end (n i : nat) : nat := Nat.min (window_start i + CHUNK_WORDS) n.

Lemma window_constants : CHUNK_WORDS = 250%nat /\ OVERLAP_WORDS = 50%nat.
Proof. split; reflexivity. Qed.

Ltac window_lia :=
  unfold window_end, window_start, CHUNK_WORDS, OVERLAP_WORDS in *; lia.

Lemma slice_length {A : Type} (l : list A) (a b : nat) :
  (b <= length l)%nat -> length (slice l a b) = (b - a)%nat.
Proof.
  intros H. unfold slice. rewrite length_take, length_drop. lia.
Qed.

Section ChunkerFacts.

Variable uuid4_hex : nat -> string.

(** The chunk the loop appends in its [i]-th round over [words], the
    loop having started with [drawn] UUIDs drawn. *)
Definition window_chunk (doc : string) (words : list string)
    (page_num : option Z) (section : option string) (drawn i : nat) : pyval :=
  new_chunk uuid4_hex (drawn + i) doc
    (str_join " " (slice words (window_start i) (window_end (length words) i)))
    page_num section (window_start i).

(** The loop from round [j] on: with fuel for the words that remain, it
    appends the chunks of rounds [j .. j+k-1], where round [j+k-1] is
    the first whose window reaches the end of the segment. *)
Lemma chunk_words_rounds (doc : string) (words : list string)
    (page_num : option Z) (section : option string) (base : nat) :
  forall fuel j,
    (length words <= fuel + window_start j)%nat ->
    (window_start j < length words)%nat ->
    exists k,
      chunk_words uuid4_hex fuel doc words page_num section (window_start j) (base + j)
        = (List.map (window_chunk doc words page_num section base) (seq j (S k)),
           (base + j + S k)%nat) /\
      window_end (length words) (j + k) = length words /\
      (forall i, (j <= i < j + k)%nat -> (window_start i + CHUNK_WORDS < length words)%nat).
Proof.
  induction fuel as [|fuel IH]; intros j Hfuel Hlt.
  - exfalso. lia.
  - cbn [chunk_words].
    destruct (Nat.ltb_spec (window_start j) (length words)) as [_|Hge]; [|exfalso; lia].
    fold (window_end (length words) j).
    destruct (Nat.eqb_spec (window_end (length words) j) (length words)) as [Hend|Hmore].
    + exists 0%nat. rewrite Nat.add_0_r. split; [|split].
      * change (seq j 1) with [j]. f_equal. lia.
      * exact Hend.
      * intros i Hi. exfalso. lia.
    + assert (Hnext : (window_start j + (CHUNK_WORDS - OVERLAP_WORDS))%nat = window_start (S j))
        by (unfold window_start; lia).
      rewrite Hnext.
      replace (S (base + j)) with (base + S j)%nat by lia.
      destruct (IH (S j)) as (k & Heq & Hlast & Hfull).
      * window_lia.
      * window_lia.
      * rewrite Heq. exists (S k). split; [|split].
        -- change (seq j (S (S k))) with (j :: seq (S j) (S k)).
           rewrite map_cons. f_equal. lia.
        -- replace (j + S k)%nat with (S j + k)%nat by lia. exact Hlast.
        -- intros i Hi. destruct (Nat.eq_dec i j) as [->|Hne].
           ++ window_lia.
           ++ apply Hfull. lia.
Qed.

(** A segment without words passes through the loop untouched. *)
Lemma chunk_words_empty (doc : string) (page_num : option Z) (section : option string)
    (fuel drawn : nat) :
  chunk_words uuid4_hex fuel doc [] page_num section 0 drawn = ([], drawn).
Proof. destruct fuel; reflexivity. Qed.

Lemma build_chunks_one (doc text : string) (page_num : option Z) (section : option string)
    (drawn : nat) :
  _build_chunks uuid4_hex doc [(text, page_num, section)] drawn =
    (let r := chunk_words uuid4_hex (length (str_split text)) doc (str_split text)
                page_num section 0 drawn in
     (fst r, snd r)).
Proof.
  cbn [_build_chunks].
  destruct (chunk_words uuid4_hex (length (str_split text)) doc (str_split text)
              page_num section 0 drawn) as [here drawn1].
  cbn. rewrite app_nil_r. reflexivity.
Qed.

(** The chunks of a list of segments are those of its first segment
    followed by those of the others, each segment read from its word 0. *)
Lemma build_chunks_cons (doc : string) (seg : segment) (rest : list segment) (drawn : nat) :
  _build_chunks uuid4_hex doc (seg :: rest) drawn =
    (fst (_build_chunks uuid4_hex doc [seg] drawn)
       ++ fst (_build_chunks uuid4_hex doc rest (snd (_build_chunks uuid4_hex doc [seg] drawn))),
     snd (_build_chunks uuid4_hex doc rest (snd (_build_chunks uuid4_hex doc [seg] drawn)))).
Proof.
  destruct seg as [[text page_num] section]. cbn [_build_chunks].
  destruct (chunk_words uuid4_hex (length (str_split text)) doc (str_split text)
              page_num section 0 drawn) as [here drawn1].
  cbn [fst snd]. rewrite app_nil_r.
  destruct (_build_chunks uuid4_hex doc rest drawn1) as [later drawn2]. reflexivity.
Qed.

End ChunkerFacts.

(** C4. A segment of [n >= 1] words yields the chunks of the windows
    [0 .. k]: window [i] starts at [i * (W - O)] (so the first starts at
    0 and each start advances by [W - O]) and spans
    [[start, min(start + W, n))]; the chunk at position [i] records
    that start as [word_start], holds as [text] the words of that span
    joined by single spaces, and carries the doc_id, page number and
    section passed in and the prefix of its own UUID; the last window
    is the first whose end is [n]; the windows cover every word; every
    window but the last has exactly [W] words; consecutive windows
    share exactly [O] words; no window is empty. A segment without
    words yields no chunk. *)
Theorem build_chunks_sliding_window (uuid4_hex : nat -> string)
    (doc text : string) (page_num : option Z) (section : option string) (drawn : nat) :
  let words := str_split text in
  let n := length words in
  let chunks := fst (_build_chunks uuid4_hex doc [(text, page_num, section)] drawn) in
  (n = 0%nat -> _build_chunks uuid4_hex doc [(text, page_num, section)] drawn = ([], drawn)) /\
  ((1 <= n)%nat ->
   exists k,
     _build_chunks uuid4_hex doc [(text, page_num, section)] drawn
       = (List.map (window_chunk uuid4_hex doc words page_num section drawn) (seq 0 (S k)),
          (drawn + S k)%nat) /\
     length chunks = S k /\
     (forall i, (i <= k)%nat ->
        exists c,
          chunks !! i = Some c /\
          chunk_field "chunk_id" c
            = Some (PStr (String.substring 0 8 (uuid4_hex (drawn + i)%nat))) /\
          chunk_field "doc_id" c = Some (PStr doc) /\
          chunk_field "text" c
            = Some (PStr (str_join " " (slice words (window_start i) (window_end n i)))) /\
          chunk_field "page_num" c = Some (py_opt_int page_num) /\
          chunk_field "section" c = Some (py_opt_str section) /\
          chunk_field "word_start" c = Some (PInt (Z.of_nat (window_start i)))) /\
     window_start 0 = 0%nat /\
     (forall i, window_start (S i) = (window_start i + (CHUNK_WORDS - OVERLAP_WORDS))%nat) /\
     (forall i, (i <= k)%nat ->
        (window_start i < window_end n i)%nat /\
        window_end n i = Nat.min (window_start i + CHUNK_WORDS) n /\
        length (slice words (window_start i) (window_end n i))
          = (window_end n i - window_start i)%nat) /\
     window_end n k = n /\
     (forall i, (i < k)%nat -> (window_end n i < n)%nat) /\
     (forall j, (j < n)%nat ->
        exists i, (i <= k)%nat /\ (window_start i <= j < window_end n i)%nat) /\
     (forall i, (i < k)%nat -> (window_end n i - window_start i)%nat = CHUNK_WORDS) /\
     (forall i, (i < k)%nat ->
        (window_end n i - window_start (S i))%nat = OVERLAP_WORDS /\
        (window_start i < window_start (S i) <= window_end n i)%nat /\
        (window_end n i <= window_end n (S i))%nat)).
Proof.
  intros words n chunks. split.
  - intros Hn. rewrite build_chunks_one. fold words.
    destruct words as [|w ws]; [|discriminate Hn].
    rewrite chunk_words_empty. reflexivity.
  - intros Hn. unfold chunks. rewrite build_chunks_one. fold words. fold n.
    destruct (chunk_words_rounds uuid4_hex doc words page_num section drawn n 0)
      as (k & Heq & Hlast & Hfull).
    { fold n. unfold window_start. lia. }
    { fold n. unfold window_start. lia. }
    fold n in Hlast, Hfull.
    change (window_start 0) with 0%nat in Heq.
    rewrite Nat.add_0_r in Heq. rewrite Heq. cbn [fst snd].
    exists k.
    assert (Hfull' : forall i, (i < k)%nat -> (window_start i + CHUNK_WORDS < n)%nat)
      by (intros i Hi; apply Hfull; lia).
    change (0 + k)%nat with k in Hlast.
    assert (Hk : (window_start k < n)%nat).
    { destruct k as [|k']; [unfold window_start; lia|].
      specialize (Hfull' k'). window_lia. }
    split; [reflexivity|].
    split; [rewrite length_map, length_seq; reflexivity|].
    split.
    { intros i Hi. exists (window_chunk uuid4_hex doc words page_num section drawn i).
      split.
      - rewrite list_lookup_fmap, lookup_seq_lt by lia. reflexivity.
      - fold n. repeat split. }
    split; [reflexivity|].
    split; [intros i; unfold window_start; lia|].
    split.
    { intros i Hi. split; [|split].
      - destruct (Nat.eq_dec i k) as [->|Hne]; [lia|].
        specialize (Hfull' i). window_lia.
      - reflexivity.
      - apply slice_length. unfold window_end. fold n. lia. }
    split; [exact Hlast|].
    split.
    { intros i Hi. specialize (Hfull' i Hi). window_lia. }
    split.
    { intros j Hj.
      pose proof (Nat.div_mod_eq j 200) as Hdiv.
      pose proof (Nat.mod_upper_bound j 200) as Hmod.
      destruct (Nat.le_gt_cases (j / 200) k) as [Hle|Hgt].
      - exists (j / 200)%nat. split; [exact Hle|]. window_lia.
      - exists k. split; [lia|]. window_lia. }
    split.
    { intros i Hi. specialize (Hfull' i Hi). window_lia. }
    intros i Hi. specialize (Hfull' i Hi). window_lia.
Qed.

(** The example of the specification: 600 words give the windows
    [0,250), [200,450) and [400,600). *)
Example windows_of_600_words :
  List.map (fun i => (window_start i, window_end 600 i)) (seq 0 3)
    = [(0, 250); (200, 450); (400, 600)]%nat
  /\ window_end 600 2 = 600%nat.
Proof. split; reflexivity. Qed.

(** ** retriever.py: [sorted(..., reverse=True)] *)

Section SortFacts.

Context {A : Type}.
Variable lt : A -> A -> bool.

(** [x] and [y] tie: neither is below the other. *)
Definition tie (x y : A) : bool := negb (lt x y) && negb (lt y x).

(** [lt] is a strict weak order on the elements that satisfy [P]. *)
Record strict_weak_on (P : A -> Prop) : Prop := {
  swo_irrefl : forall x, P x -> lt x x = false;
  swo_trans : forall x y z, P x -> P y -> P z ->
    lt x y = true -> lt y z = true -> lt x z = true;
  swo_negtrans : forall x y z, P x -> P y -> P z ->
    lt x y = false -> lt y z = false -> lt x z = false
}.

Variable P : A -> Prop.
Hypothesis order : strict_weak_on P.

Lemma swo_asym (x y : A) : P x -> P y -> lt x y = true -> lt y x = false.
Proof.
  intros Px Py Hxy. destruct (lt y x) eqn:Hyx; [|reflexivity].
  pose proof (swo_trans P order x y x Px Py Px Hxy Hyx) as Hxx.
  rewrite (swo_irrefl P order x Px) in Hxx. discriminate.
Qed.

Lemma tie_trans (x y z : A) :
  P x -> P y -> P z -> tie x y = true -> tie y z = true -> tie x z = true.
Proof.
  unfold tie. intros Px Py Pz Hxy Hyz.
  apply andb_true_iff in Hxy as [Hxy Hyx]. apply andb_true_iff in Hyz as [Hyz Hzy].
  apply negb_true_iff in Hxy, Hyx, Hyz, Hzy.
  rewrite (swo_negtrans P order x y z), (swo_negtrans P order z y x); auto.
Qed.

Lemma tie_sym (x y : A) : tie x y = tie y x.
Proof. unfold tie. apply andb_comm. Qed.

Lemma insert_sorted_perm (x : A) (l : list A) :
  Permutation (insert_sorted lt x l) (x :: l).
Proof.
  induction l as [|y ys IH]; simpl; [reflexivity|].
  destruct (lt y x); [|reflexivity].
  rewrite IH. apply perm_swap.
Qed.

Lemma py_sorted_perm (l : list A) : Permutation (py_sorted lt l) l.
Proof.
  induction l as [|x l IH]; simpl; [reflexivity|].
  rewrite insert_sorted_perm. constructor. exact IH.
Qed.

Lemma py_sorted_reverse_perm (l : list A) : Permutation (py_sorted_reverse lt l) l.
Proof.
  unfold py_sorted_reverse.
  rewrite <- Permutation_rev, py_sorted_perm, <- Permutation_rev. reflexivity.
Qed.

(** Ascending: no element is below one that stands before it. *)
Definition ascending : list A -> Prop := StronglySorted (fun a b => lt b a = false).

(** Descending: no element is below one that stands after it. *)
Definition descending : list A -> Prop := StronglySorted (fun a b => lt a b = false).

Lemma insert_sorted_ascending (x : A) (l : list A) :
  P x -> Forall P l -> ascending l -> ascending (insert_sorted lt x l).
Proof.
  intros Px HP Hs. induction Hs as [|y ys Hys IH Hy]; simpl.
  - repeat constructor.
  - inversion HP as [|? ? Py Pys]; subst.
    destruct (lt y x) eqn:Hyx.
    + constructor; [apply IH; assumption|].
      eapply Permutation_Forall; [symmetry; apply insert_sorted_perm|].
      constructor; [|assumption].
      apply swo_asym; assumption.
    + constructor; [constructor; assumption|].
      constructor; [assumption|].
      rewrite List.Forall_forall in Hy, Pys |- *. intros z Hz.
      apply (swo_negtrans P order z y x); auto.
Qed.

Lemma py_sorted_ascending (l : list A) : Forall P l -> ascending (py_sorted lt l).
Proof.
  induction 1 as [|x l Px HP IH]; simpl; [constructor|].
  apply insert_sorted_ascending; [assumption| |assumption].
  eapply Permutation_Forall; [symmetry; apply py_sorted_perm|assumption].
Qed.

Lemma StronglySorted_app_inv (R : A -> A -> Prop) (l1 l2 : list A) :
  StronglySorted R l1 -> StronglySorted R l2 ->
  (forall a b, In a l1 -> In b l2 -> R a b) ->
  StronglySorted R (l1 ++ l2).
Proof.
  intros H1 H2 H12. induction H1 as [|a l1 Hl1 IH Ha]; simpl; [assumption|].
  constructor.
  - apply IH. intros x y Hx Hy. apply H12; [right|]; assumption.
  - apply List.Forall_app. split; [assumption|].
    rewrite List.Forall_forall. intros y Hy. apply H12; [left; reflexivity|assumption].
Qed.

Lemma StronglySorted_rev (R : A -> A -> Prop) (l : list A) :
  StronglySorted R l -> StronglySorted (fun a b => R b a) (List.rev l).
Proof.
  induction 1 as [|a l Hl IH Ha]; simpl; [constructor|].
  apply StronglySorted_app_inv; [assumption|repeat constructor|].
  intros x y Hx [<-|[]]. rewrite List.Forall_forall in Ha. apply Ha.
  apply in_rev. assumption.
Qed.

Lemma py_sorted_reverse_descending (l : list A) :
  Forall P l -> descending (py_sorted_reverse lt l).
Proof.
  intros HP. unfold py_sorted_reverse, descending.
  apply (StronglySorted_rev (fun a b => lt b a = false)).
  apply py_sorted_ascending.
  eapply Permutation_Forall; [apply Permutation_rev|assumption].
Qed.

(** Stability: the elements that tie with [x] keep their order. *)
Lemma insert_sorted_ties (x a : A) (l : list A) :
  P x -> P a -> Forall P l ->
  List.filter (tie x) (insert_sorted lt a l) = List.filter (tie x) (a :: l).
Proof.
  intros Px Pa HP. induction HP as [|y ys Py Pys IH]; [reflexivity|].
  cbn [insert_sorted]. destruct (lt y a) eqn:Hya; [|reflexivity].
  cbn [List.filter] in *. rewrite IH.
  destruct (tie x y) eqn:Hxy; [|reflexivity].
  destruct (tie x a) eqn:Hxa; [|reflexivity].
  exfalso.
  assert (Hay : tie y a = true).
  { apply (tie_trans y x a); try assumption. rewrite tie_sym. assumption. }
  unfold tie in Hay. rewrite Hya in Hay. discriminate.
Qed.

Lemma py_sorted_ties (x : A) (l : list A) :
  P x -> Forall P l ->
  List.filter (tie x) (py_sorted lt l) = List.filter (tie x) l.
Proof.
  intros Px HP. induction HP as [|a l Pa Pl IH]; [reflexivity|].
  cbn [py_sorted List.fold_right]. fold (py_sorted lt l).
  rewrite insert_sorted_ties; try assumption.
  - cbn [List.filter]. rewrite IH. reflexivity.
  - eapply Permutation_Forall; [symmetry; apply py_sorted_perm|assumption].
Qed.

Lemma filter_rev (f : A -> bool) (l : list A) :
  List.filter f (List.rev l) = List.rev (List.filter f l).
Proof.
  induction l as [|a l IH]; [reflexivity|].
  cbn [List.rev List.filter]. rewrite List.filter_app, IH. cbn [List.filter].
  destruct (f a); [reflexivity|]. rewrite app_nil_r. reflexivity.
Qed.

Lemma py_sorted_reverse_ties (x : A) (l : list A) :
  P x -> Forall P l ->
  List.filter (tie x) (py_sorted_reverse lt l) = List.filter (tie x) l.
Proof.
  intros Px HP. unfold py_sorted_reverse.
  rewrite filter_rev, py_sorted_ties, filter_rev, rev_involutive; [reflexivity|assumption|].
  eapply Permutation_Forall; [apply Permutation_rev|assumption].
Qed.

End SortFacts.

(** ** [round(x, 4)]: what the rounded value is *)

(** [q] is an integer nearest to [n / d], the even one when two are
    ([0 < d]). *)
Definition nearest_even (n d q : Z) : Prop :=
  Z.abs (2 * (q * d - n)) <= d /\ (Z.abs (2 * (q * d - n)) = d -> Z.even q = true).

(** [x] is the binary64 number nearest to [n / d], ties to the even
    significand ([0 <= n], [0 < d]): zero for [n = 0], else
    [q * 2^e] for the integer [q] nearest to [n / (d * 2^e)], where [q]
    has 53 bits, or fewer at the least exponent. *)
Definition nearest_binary64 (n d : Z) (x : float) : Prop :=
  (n = 0 /\ x = PrimFloat.zero) \/
  (0 < n /\
   exists q e,
     -1074 <= e /\
     0 <= q <= 2 ^ 53 /\
     (e = -1074 \/ 2 ^ 52 <= q) /\
     nearest_even (n * 2 ^ Z.max (- e) 0) (d * 2 ^ Z.max e 0) q /\
     x = Z.ldexp (Z_to_float q) e).

(** [x] is [round(s, 4)]: for a finite [s = (-1)^sg * m * 2^e] that is
    not zero, [d] is the integer nearest to [m * 2^e * 10^4], ties to
    even, and [x] is the binary64 number nearest to [d / 10^4], with
    the sign of [s]; anything else is returned as it is. *)
Definition rounded4 (s x : float) : Prop :=
  match Prim2SF s with
  | S754_finite sg m e =>
      exists d f,
        0 <= d /\
        nearest_even (Zpos m * 2 ^ Z.max e 0 * 10000) (2 ^ Z.max (- e) 0) d /\
        nearest_binary64 d 10000 f /\
        x = if sg then (- f)%float else f
  | _ => x = s
  end.

Lemma div_half_even_spec (n d : Z) :
  0 <= n -> 0 < d -> 0 <= div_half_even n d /\ nearest_even n d (div_half_even n d).
Proof.
  intros Hn Hd. unfold div_half_even, nearest_even.
  pose proof (Z.div_mod n d ltac:(lia)) as Hdiv.
  pose proof (Z.mod_pos_bound n d Hd) as Hmod.
  pose proof (Z.div_pos n d Hn Hd) as Hq.
  set (q := n / d) in *. set (r := n mod d) in *.
  destruct (Z.ltb_spec (2 * r) d) as [Hlt|Hge].
  - split; [exact Hq|]. split; [nia|]. intros Htie. nia.
  - destruct (Z.ltb_spec d (2 * r)) as [Hgt|Hle].
    + split; [lia|]. split; [nia|]. intros Htie. nia.
    + destruct (Z.even q) eqn:Heven.
      * split; [exact Hq|]. split; [nia|]. intros _. exact Heven.
      * split; [lia|]. split; [nia|]. intros _.
        rewrite Z.even_add, Heven. reflexivity.
Qed.

Lemma pow2_pos (j : Z) : 0 < 2 ^ Z.max j 0.
Proof. apply Z.pow_pos_nonneg; lia. Qed.

(** [2^(j+c) = 2^c * 2^j] on the numerators and denominators of the
    powers of two. *)
Lemma pow2_shift (j c : Z) :
  0 <= c ->
  2 ^ Z.max (j + c) 0 * 2 ^ Z.max (- j) 0
    = 2 ^ c * 2 ^ Z.max j 0 * 2 ^ Z.max (- (j + c)) 0.
Proof.
  intros Hc.
  destruct (Z.le_gt_cases 0 j) as [Hj|Hj].
  - rewrite (Z.max_l (j + c) 0), (Z.max_r (- j) 0), (Z.max_l j 0), (Z.max_r (- (j + c)) 0)
      by lia.
    rewrite Z.pow_add_r by lia. rewrite Z.pow_0_r. lia.
  - destruct (Z.le_gt_cases 0 (j + c)) as [Hjc|Hjc].
    + rewrite (Z.max_l (j + c) 0), (Z.max_l (- j) 0), (Z.max_r j 0), (Z.max_r (- (j + c)) 0)
        by lia.
      rewrite <- Z.pow_add_r by lia. rewrite Z.pow_0_r.
      replace (j + c + - j) with c by lia. lia.
    + rewrite (Z.max_r (j + c) 0), (Z.max_l (- j) 0), (Z.max_r j 0), (Z.max_l (- (j + c)) 0)
        by lia.
      rewrite Z.pow_0_r. rewrite Z.mul_1_l, Z.mul_1_r.
      rewrite <- Z.pow_add_r by lia. f_equal. lia.
Qed.

(** [2^x * 2^(y-x) = 2^y]. *)
Lemma pow2_diff (x y : Z) :
  0 <= x -> 0 <= y ->
  2 ^ x * 2 ^ Z.max (y - x) 0 = 2 ^ y * 2 ^ Z.max (- (y - x)) 0.
Proof.
  intros Hx Hy. destruct (Z.le_gt_cases x y) as [H|H].
  - rewrite (Z.max_l (y - x) 0), (Z.max_r (- (y - x)) 0) by lia.
    rewrite Z.pow_0_r, Z.mul_1_r, <- Z.pow_add_r by lia. f_equal. lia.
  - rewrite (Z.max_r (y - x) 0), (Z.max_l (- (y - x)) 0) by lia.
    rewrite Z.pow_0_r, Z.mul_1_r, <- Z.pow_add_r by lia. f_equal. lia.
Qed.

(** [den * 2^(j+c) <= num] is [2^c * (den * 2^j) <= num]. *)
Lemma pow2_scale (num den j c : Z) :
  0 <= c ->
  (den * 2 ^ Z.max (j + c) 0 <= num * 2 ^ Z.max (- (j + c)) 0 <->
   2 ^ c * (den * 2 ^ Z.max j 0) <= num * 2 ^ Z.max (- j) 0).
Proof.
  intros Hc. pose proof (pow2_shift j c Hc) as Hs.
  pose proof (pow2_pos (j + c)) as HA. pose proof (pow2_pos (- j)) as HB.
  pose proof (pow2_pos j) as HC. pose proof (pow2_pos (- (j + c))) as HD.
  set (A := 2 ^ Z.max (j + c) 0) in *. set (B := 2 ^ Z.max (- j) 0) in *.
  set (C := 2 ^ Z.max j 0) in *. set (D := 2 ^ Z.max (- (j + c)) 0) in *.
  set (W := 2 ^ c) in *.
  split; intros H.
  - apply (Z.mul_le_mono_pos_r _ _ D HD).
    replace (W * (den * C) * D) with (den * (W * C * D)) by ring.
    rewrite <- Hs. replace (den * (A * B)) with (den * A * B) by ring.
    replace (num * B * D) with (num * D * B) by ring.
    apply Z.mul_le_mono_nonneg_r; [lia|exact H].
  - apply (Z.mul_le_mono_pos_r _ _ B HB).
    replace (den * A * B) with (den * (A * B)) by ring. rewrite Hs.
    replace (den * (W * C * D)) with (W * (den * C) * D) by ring.
    replace (num * D * B) with (num * B * D) by ring.
    apply Z.mul_le_mono_nonneg_r; [lia|exact H].
Qed.

Lemma float_of_ratio_nearest (num den : Z) :
  0 < num -> 0 < den -> nearest_binary64 num den (float_of_ratio num den).
Proof.
  intros Hnum Hden. right. split; [exact Hnum|].
  unfold float_of_ratio. destruct (Z.eqb_spec num 0) as [?|_]; [lia|].
  cbv zeta.
  pose proof (Z.log2_spec num Hnum) as [Ha1 Ha2].
  pose proof (Z.log2_spec den Hden) as [Hb1 Hb2].
  pose proof (Z.log2_nonneg num) as Ha0. pose proof (Z.log2_nonneg den) as Hb0.
  set (a := Z.log2 num) in *. set (b := Z.log2 den) in *.
  set (k := a - b).
  set (T := fun j => den * 2 ^ Z.max j 0 <= num * 2 ^ Z.max (- j) 0).
  assert (Hlow : T (k - 1)).
  { unfold T. replace (k - 1) with (a - (b + 1)) by (unfold k; lia).
    pose proof (pow2_diff (b + 1) a ltac:(lia) Ha0) as Hd.
    pose proof (pow2_pos (a - (b + 1))) as HP. pose proof (pow2_pos (- (a - (b + 1)))) as HN.
    unfold Z.succ in *. nia. }
  assert (Hhigh : ~ T (k + 1)).
  { unfold T. replace (k + 1) with (a + 1 - b) by (unfold k; lia).
    pose proof (pow2_diff b (a + 1) Hb0 ltac:(lia)) as Hd.
    pose proof (pow2_pos (a + 1 - b)) as HP. pose proof (pow2_pos (- (a + 1 - b))) as HN.
    unfold Z.succ in *. nia. }
  set (ge := if 0 <=? k then den * 2 ^ k <=? num else den <=? num * 2 ^ (- k)).
  assert (Hge : ge = true <-> T k).
  { unfold ge, T. destruct (Z.leb_spec 0 k) as [Hk|Hk].
    - rewrite (Z.max_l k 0), (Z.max_r (- k) 0) by lia. rewrite Z.pow_0_r, Z.mul_1_r.
      apply Z.leb_le.
    - rewrite (Z.max_r k 0), (Z.max_l (- k) 0) by lia. rewrite Z.pow_0_r, Z.mul_1_r.
      apply Z.leb_le. }
  set (fl := if ge then k else k - 1).
  assert (Hfl : T fl /\ ~ T (fl + 1)).
  { unfold fl. destruct ge.
    - split; [apply Hge; reflexivity|exact Hhigh].
    - split; [exact Hlow|]. replace (k - 1 + 1) with k by lia.
      intros HT. apply Hge in HT. discriminate. }
  destruct Hfl as [Hfl1 Hfl2].
  pose proof (Z.max_spec (fl - 52) (-1074)) as Hmax.
  set (e := Z.max (fl - 52) (-1074)) in *.
  set (q := if 0 <=? e then div_half_even num (den * 2 ^ e)
            else div_half_even (num * 2 ^ (- e)) den).
  assert (Hq : q = div_half_even (num * 2 ^ Z.max (- e) 0) (den * 2 ^ Z.max e 0)).
  { unfold q. destruct (Z.leb_spec 0 e) as [He|He].
    - rewrite (Z.max_l e 0), (Z.max_r (- e) 0) by lia. rewrite Z.pow_0_r, Z.mul_1_r.
      reflexivity.
    - rewrite (Z.max_r e 0), (Z.max_l (- e) 0) by lia. rewrite Z.pow_0_r, Z.mul_1_r.
      reflexivity. }
  pose proof (pow2_pos e) as HP. pose proof (pow2_pos (- e)) as HN.
  destruct (div_half_even_spec (num * 2 ^ Z.max (- e) 0) (den * 2 ^ Z.max e 0)
              ltac:(nia) ltac:(nia)) as [Hq0 Hnear].
  rewrite <- Hq in Hq0, Hnear.
  exists q, e.
  split; [lia|].
  assert (Hshift : 0 <= e + 52 - fl) by lia.
  assert (Hup : ~ T (e + 53)).
  { intros HT. apply Hfl2. unfold T in *.
    replace (e + 53) with (fl + 1 + (e + 52 - fl)) in HT by lia.
    pose proof (proj1 (pow2_scale num den (fl + 1) (e + 52 - fl) Hshift) HT) as HS.
    pose proof (Z.pow_pos_nonneg 2 (e + 52 - fl) ltac:(lia) Hshift) as HW.
    pose proof (pow2_pos (fl + 1)) as HP1.
    clear - HS HW HP1 Hden. nia. }
  assert (Hup' : num * 2 ^ Z.max (- e) 0 < 2 ^ 53 * (den * 2 ^ Z.max e 0)).
  { apply Z.nle_gt. intros Hc. apply Hup. unfold T. apply pow2_scale; [lia|exact Hc]. }
  destruct Hnear as [Hnear Htie].
  split.
  { split; [exact Hq0|].
    set (K := 2 ^ 53) in *. set (D := den * 2 ^ Z.max e 0) in *.
    set (N := num * 2 ^ Z.max (- e) 0) in *.
    assert (0 < D) by (unfold D; nia). nia. }
  split.
  { destruct (Z.eq_dec e (-1074)) as [He|He]; [left; exact He|right].
    assert (Hefl : e = fl - 52) by lia.
    assert (Hlo : 2 ^ 52 * (den * 2 ^ Z.max e 0) <= num * 2 ^ Z.max (- e) 0).
    { apply pow2_scale; [lia|]. replace (e + 52) with fl by lia. exact Hfl1. }
    set (K := 2 ^ 52) in *. set (D := den * 2 ^ Z.max e 0) in *.
    set (N := num * 2 ^ Z.max (- e) 0) in *.
    assert (0 < D) by (unfold D; nia). nia. }
  split; [split; assumption|reflexivity].
Qed.

(** [round4] computes [round(s, 4)]. *)
Lemma round4_rounded4 (s : float) : rounded4 s (round4 s).
Proof.
  unfold rounded4, round4. destruct (Prim2SF s) as [sg|sg| |sg m e]; try reflexivity.
  cbv zeta.
  set (d := if 0 <=? e then Z.pos m * 2 ^ e * 10000
            else div_half_even (Z.pos m * 10000) (2 ^ (- e))).
  assert (Hd : 0 <= d /\
               nearest_even (Z.pos m * 2 ^ Z.max e 0 * 10000) (2 ^ Z.max (- e) 0) d).
  { unfold d. destruct (Z.leb_spec 0 e) as [He|He].
    - rewrite (Z.max_l e 0), (Z.max_r (- e) 0) by lia. rewrite Z.pow_0_r.
      pose proof (Z.pow_pos_nonneg 2 e ltac:(lia) He).
      split; [nia|]. unfold nearest_even.
      replace (2 * (Z.pos m * 2 ^ e * 10000 * 1 - Z.pos m * 2 ^ e * 10000)) with 0 by ring.
      split; [cbn; lia|cbn; lia].
    - rewrite (Z.max_r e 0), (Z.max_l (- e) 0) by lia. rewrite Z.pow_0_r, Z.mul_1_r.
      apply div_half_even_spec; [lia|]. apply Z.pow_pos_nonneg; lia. }
  destruct Hd as [Hd0 Hd].
  exists d, (float_of_ratio d 10000). split; [exact Hd0|]. split; [exact Hd|].
  split; [|reflexivity].
  destruct (Z.eq_dec d 0) as [Hz|Hz].
  - left. split; [exact Hz|]. rewrite Hz. reflexivity.
  - apply float_of_ratio_nearest; lia.
Qed.

#[local] Set Warnings "-inexact-float".

Example round4_examples :
  round4 0.123456 = 0.1235%float /\
  round4 0.00005 = 0.0001%float /\
  round4 0.00015 = 0.0001%float /\
  round4 2.675 = 2.675%float /\
  round4 (-0.00004) = (-0)%float /\
  round4 1234567.000049 = 1234567%float /\
  round4 1e300 = 1e300%float.
Proof. repeat split; vm_compute; reflexivity. Qed.

(** ** retriever.py: [<] on floats that are not NaN *)

(** A key whose lexicographic order is the order of the floats: the
    sign class, then the exponent, then the mantissa. *)
Definition sf_key (f : spec_float) : Z * Z * Z :=
  match f with
  | S754_nan => (0, 0, 0)
  | S754_infinity true => (-2, 0, 0)
  | S754_infinity false => (2, 0, 0)
  | S754_zero _ => (0, 0, 0)
  | S754_finite true m e => (-1, - e, - Zpos m)
  | S754_finite false m e => (1, e, Zpos m)
  end.

Definition key_lt (a b : Z * Z * Z) : Prop :=
  let '(a1, a2, a3) := a in
  let '(b1, b2, b3) := b in
  a1 < b1 \/ (a1 = b1 /\ (a2 < b2 \/ (a2 = b2 /\ a3 < b3))).

Lemma SFltb_key (x y : spec_float) :
  x <> S754_nan -> y <> S754_nan ->
  (SFltb x y = true <-> key_lt (sf_key x) (sf_key y)).
Proof.
  intros Hx Hy. unfold SFltb, SFcompare.
  destruct x as [sx|sx| |sx mx ex], y as [sy|sy| |sy my ey];
    try (exfalso; apply Hx; reflexivity); try (exfalso; apply Hy; reflexivity);
    try destruct sx; try destruct sy; cbn [sf_key key_lt];
    try (split; [discriminate | lia]); try (split; [lia | reflexivity]);
    try (split; [intros _; lia | reflexivity]).
  all: change (Pcompare mx my Eq) with (Pos.compare mx my);
    destruct (Z.compare_spec ex ey); destruct (Pos.compare_spec mx my); cbn;
    split; intros; try reflexivity; try discriminate; try lia.
Qed.

Lemma Prim2SF_not_nan (f : float) : PrimFloat.is_nan f = false -> Prim2SF f <> S754_nan.
Proof.
  intros H. unfold Prim2SF. rewrite H.
  destruct (PrimFloat.is_zero f); [discriminate|].
  destruct (PrimFloat.is_infinity f); [discriminate|].
  destruct (Z.frexp f) as [r ex].
  destruct (shr_fexp prec emax (Uint63.to_Z (PrimFloat.normfr_mantissa r)) (ex - prec) loc_Exact)
    as [shr e'].
  destruct (shr_m shr); discriminate.
Qed.

Lemma ltb_key (x y : float) :
  PrimFloat.is_nan x = false -> PrimFloat.is_nan y = false ->
  (PrimFloat.ltb x y = true <-> key_lt (sf_key (Prim2SF x)) (sf_key (Prim2SF y))).
Proof.
  intros Hx Hy. rewrite FloatAxioms.ltb_spec. apply SFltb_key; apply Prim2SF_not_nan; assumption.
Qed.

Lemma ltb_false_key (x y : float) :
  PrimFloat.is_nan x = false -> PrimFloat.is_nan y = false ->
  (PrimFloat.ltb x y = false <-> ~ key_lt (sf_key (Prim2SF x)) (sf_key (Prim2SF y))).
Proof.
  intros Hx Hy. rewrite <- (ltb_key x y Hx Hy).
  destruct (PrimFloat.ltb x y); split; intros H; try reflexivity; try discriminate.
  - exfalso. apply H. reflexivity.
Qed.

(** The score of a pair is a number. *)
Definition scored_number (cs : pyval * float) : Prop := PrimFloat.is_nan (snd cs) = false.

Lemma score_lt_strict_weak : strict_weak_on score_lt scored_number.
Proof.
  unfold scored_number, score_lt. constructor.
  - intros x Hx. apply ltb_false_key; try assumption.
    destruct (sf_key (Prim2SF (snd x))) as [[a b] c]. cbn. lia.
  - intros x y z Hx Hy Hz Hxy Hyz.
    apply ltb_key in Hxy, Hyz; try assumption. apply ltb_key; try assumption.
    destruct (sf_key (Prim2SF (snd x))) as [[a1 a2] a3],
             (sf_key (Prim2SF (snd y))) as [[b1 b2] b3],
             (sf_key (Prim2SF (snd z))) as [[c1 c2] c3].
    cbn in *. lia.
  - intros x y z Hx Hy Hz Hxy Hyz.
    apply ltb_false_key in Hxy, Hyz; try assumption. apply ltb_false_key; try assumption.
    destruct (sf_key (Prim2SF (snd x))) as [[a1 a2] a3],
             (sf_key (Prim2SF (snd y))) as [[b1 b2] b3],
             (sf_key (Prim2SF (snd z))) as [[c1 c2] c3].
    cbn in *. lia.
Qed.

Lemma py_zip_scored_number (cs : list pyval) (scores : list float) :
  Forall (fun s => PrimFloat.is_nan s = false) scores ->
  Forall scored_number (py_zip cs scores).
Proof.
  intros H. revert cs. induction H as [|s scores Hs _ IH]; intros [|c cs]; simpl; constructor.
  - exact Hs.
  - apply IH.
Qed.

(** ** indexer.py and retriever.py: loading and ranking *)

Lemma tokenize_text_dict (c : pyval) (t : list string) :
  tokenize_text c = Ok t -> exists d, c = PDict d.
Proof.
  unfold tokenize_text, py_item. destruct c; try discriminate. eauto.
Qed.

Lemma with_score_dict (c : pyval) (s : float) (d : list (string * pyval)) :
  c = PDict d ->
  with_score (c, s) = Ok (PDict (dict_set "score" (PFloat (round4 s)) d)).
Proof. intros ->. reflexivity. Qed.

Section IndexFacts.

Context {bm25 : Type}.
Variable BM25Okapi : list (list string) -> result bm25.
Variable get_scores : bm25 -> list string -> list float.

Lemma load_index_missing (doc : string) (w : world) :
  files w !! index_path doc = None ->
  load_index BM25Okapi doc w = Raise FileNotFoundError.
Proof. intros H. unfold load_index. rewrite H. reflexivity. Qed.

(** Every item of a loaded chunk list is a dict. *)
Lemma load_index_dicts (doc : string) (w : world) (chunks : list pyval) (index : bm25) :
  load_index BM25Okapi doc w = Ok (PList chunks, index) ->
  Forall (fun c => exists d, c = PDict d) chunks.
Proof.
  unfold load_index. destruct (files w !! index_path doc) as [text|]; [|discriminate].
  intros H. bind_inv H. bind_inv H. bind_inv H. bind_inv H. bind_inv H.
  injection H as -> ->. simpl in Hx1. injection Hx1 as <-.
  apply result_mapM_Forall2 in Hx2.
  clear - Hx2. induction Hx2 as [|c t cs ts Hc _ IH]; constructor; [|assumption].
  eapply tokenize_text_dict. eassumption.
Qed.

Lemma py_zip_length {A B : Type} (a : list A) (b : list B) :
  length (py_zip a b) = Nat.min (length a) (length b).
Proof.
  revert b. induction a as [|x a IH]; intros [|y b]; cbn [py_zip length]; try reflexivity.
  rewrite IH. reflexivity.
Qed.

Lemma py_zip_lookup {A B : Type} (a : list A) (b : list B) :
  forall (i : nat) x y, a !! i = Some x -> b !! i = Some y -> py_zip a b !! i = Some (x, y).
Proof.
  revert b. induction a as [|x0 a IH]; intros [|y0 b] [|i] x y Ha Hb; try discriminate.
  - injection Ha as <-. injection Hb as <-. reflexivity.
  - exact (IH b i x y Ha Hb).
Qed.

Lemma py_zip_In_lookup {A B : Type} (a : list A) (b : list B) (p : A * B) :
  In p (py_zip a b) -> exists i : nat, a !! i = Some (fst p) /\ b !! i = Some (snd p).
Proof.
  revert b. induction a as [|x a IH]; intros [|y b]; cbn [py_zip In]; try tauto.
  intros [<-|Hin]; [exists 0%nat; split; reflexivity|].
  destruct (IH b Hin) as (i & Hi1 & Hi2). exists (S i). split; assumption.
Qed.

Lemma with_score_all (ranked : list (pyval * float)) :
  Forall (fun cs => exists d, fst cs = PDict d) ranked ->
  exists results,
    result_mapM with_score ranked = Ok results /\
    Forall2 (fun cs r => exists d, fst cs = PDict d /\
                         r = PDict (dict_set "score" (PFloat (round4 (snd cs))) d))
      ranked results.
Proof.
  induction 1 as [|[c s] ranked [d Hd] _ (results & Hres & Hall)].
  - exists []. split; [reflexivity|constructor].
  - simpl in Hd. subst c. eexists. split.
    + simpl. rewrite Hres. reflexivity.
    + constructor; [|assumption]. exists d. split; reflexivity.
Qed.

Lemma py_zip_fst_Forall {B : Type} (Q : pyval -> Prop) (cs : list pyval) (l : list B) :
  Forall Q cs -> Forall (fun p => Q (fst p)) (py_zip cs l).
Proof.
  intros H. revert l. induction H as [|c cs Hc _ IH]; intros [|b l]; simpl; constructor.
  - exact Hc.
  - apply IH.
Qed.

(** C6. For a doc_id without an index file, [load_index] raises
    [FileNotFoundError], and so does [retrieve]; neither returns a
    chunk list, empty or not. *)
Theorem load_index_unknown_document (doc question : string) (top_k : Z) (w : world) :
  files w !! index_path doc = None ->
  load_index BM25Okapi doc w = Raise FileNotFoundError /\
  retrieve BM25Okapi get_scores doc question top_k w = Raise FileNotFoundError /\
  (forall chunks index, load_index BM25Okapi doc w <> Ok (chunks, index)) /\
  (forall results, retrieve BM25Okapi get_scores doc question top_k w <> Ok results).
Proof.
  intros H. pose proof (load_index_missing doc w H) as Hload.
  assert (Hret : retrieve BM25Okapi get_scores doc question top_k w = Raise FileNotFoundError).
  { unfold retrieve. rewrite Hload. reflexivity. }
  repeat split; try assumption.
  - intros chunks index. rewrite Hload. discriminate.
  - intros results. rewrite Hret. discriminate.
Qed.


End IndexFacts.

(** ** json: decimal integers are read back *)

#[local] Arguments String.append !_ _ /.
#[local] Arguments chr : simpl never.
#[local] Arguments ord : simpl never.
#[local] Arguments digit_char : simpl never.
#[local] Arguments is_digit : simpl never.
#[local] Arguments Ascii.eqb : simpl never.

Lemma append_assoc (a b c : string) : (a +:+ b) +:+ c = a +:+ (b +:+ c).
Proof. induction a as [|x a IH]; simpl; [reflexivity|]. rewrite IH. reflexivity. Qed.

Lemma append_nil_r (a : string) : a +:+ "" = a.
Proof. induction a as [|x a IH]; simpl; [reflexivity|]. rewrite IH. reflexivity. Qed.

Lemma append_length (a b : string) :
  String.length (a +:+ b) = (String.length a + String.length b)%nat.
Proof. induction a as [|x a IH]; simpl; [reflexivity|]. rewrite IH. reflexivity. Qed.

Fixpoint digits_only (s : string) : bool :=
  match s with
  | EmptyString => true
  | String c s' => is_digit c && digits_only s'
  end.

(** The text after a number: the end, a comma or a line break. *)
Definition delimited (rest : string) : bool :=
  match rest with
  | EmptyString => true
  | String c _ => Ascii.eqb c "," || Ascii.eqb c newline
  end.

Lemma digit_char_spec (d : nat) :
  (d < 10)%nat ->
  is_digit (digit_char d) = true /\ (ord (digit_char d) - 48)%nat = d /\
  (Ascii.eqb (digit_char d) "0" = (d =? 0)%nat).
Proof.
  intros H. do 10 (destruct d as [|d]; [repeat split|]). lia.
Qed.

Lemma digits_value_app (s1 s2 : string) :
  forall a, digits_value a (s1 +:+ s2) = digits_value (digits_value a s1) s2.
Proof. induction s1 as [|c s1 IH]; intros a; simpl; [reflexivity|]. apply IH. Qed.

Lemma digits_only_app (s1 s2 : string) :
  digits_only (s1 +:+ s2) = digits_only s1 && digits_only s2.
Proof.
  induction s1 as [|c s1 IH]; simpl; [reflexivity|]. rewrite IH. apply andb_assoc.
Qed.

Lemma delimited_no_digit (rest : string) :
  delimited rest = true ->
  match rest with
  | EmptyString => True
  | String c _ =>
      is_digit c = false /\ Ascii.eqb c "." = false /\
      Ascii.eqb c "e" = false /\ Ascii.eqb c "E" = false
  end.
Proof.
  destruct rest as [|c rest]; [trivial|]. simpl. intros H.
  apply orb_true_iff in H as [H|H]; apply Ascii.eqb_eq in H; subst c; repeat split.
Qed.

Lemma span_digits_app (ds rest : string) :
  digits_only ds = true -> delimited rest = true ->
  span_digits (ds +:+ rest) = (ds, rest).
Proof.
  intros Hds Hrest. induction ds as [|c ds IH]; simpl in *.
  - apply delimited_no_digit in Hrest. destruct rest as [|c rest]; [reflexivity|].
    simpl. destruct Hrest as [-> _]. reflexivity.
  - apply andb_true_iff in Hds as [-> Hds]. rewrite (IH Hds). reflexivity.
Qed.

(** The digits [digits_go] puts in front of [acc]. *)
Lemma digits_go_spec (fuel : nat) :
  forall n acc,
    (N.to_nat (N.log2 n) < fuel)%nat ->
    exists ds,
      digits_go fuel n acc = ds +:+ acc /\
      digits_only ds = true /\
      digits_value 0 ds = Z.of_N n /\
      match ds with
      | EmptyString => False
      | String c _ => Ascii.eqb c "0" = (n =? 0)%N
      end.
Proof.
  induction fuel as [|fuel IH]; intros n acc Hfuel; [lia|].
  cbn [digits_go].
  assert (Hmod : (N.to_nat (n mod 10) < 10)%nat).
  { pose proof (N.mod_upper_bound n 10). lia. }
  destruct (digit_char_spec _ Hmod) as (Hdig & Hval & Hzero).
  destruct (N.ltb_spec n 10) as [Hsmall|Hbig].
  - exists (String (digit_char (N.to_nat (n mod 10))) "").
    rewrite N.mod_small in * by assumption.
    split; [reflexivity|].
    split; [cbn [digits_only]; rewrite Hdig; reflexivity|].
    split; [cbn [digits_value]; rewrite Hval; lia|].
    rewrite Hzero. destruct (N.eqb_spec n 0); destruct (Nat.eqb_spec (N.to_nat n) 0);
      try reflexivity; lia.
  - destruct (IH (n / 10)%N (String (digit_char (N.to_nat (n mod 10))) acc))
      as (ds & Heq & Hds & Hv & Hhead).
    { assert (N.log2 (n / 10) < N.log2 n)%N; [|lia].
      apply N.log2_lt_pow2; [apply N.div_str_pos; lia|].
      assert (Hn : (n < 2 ^ N.succ (N.log2 n))%N) by (apply N.log2_spec; lia).
      rewrite N.pow_succ_r' in Hn.
      apply N.Div0.div_lt_upper_bound. lia. }
    exists (ds +:+ String (digit_char (N.to_nat (n mod 10))) "").
    split; [rewrite Heq, append_assoc; reflexivity|].
    split; [rewrite digits_only_app, Hds; cbn [digits_only]; rewrite Hdig; reflexivity|].
    split.
    + rewrite digits_value_app, Hv. cbn [digits_value]. rewrite Hval.
      pose proof (N.div_mod n 10). lia.
    + destruct ds as [|c ds]; [destruct Hhead|]. cbn [String.append]. rewrite Hhead.
      destruct (N.eqb_spec (n / 10) 0) as [H0|H0]; destruct (N.eqb_spec n 0);
        try reflexivity; try lia.
      apply N.div_small_iff in H0; lia.
Qed.

Lemma N_str_spec (n : N) :
  digits_only (N_str n) = true /\
  digits_value 0 (N_str n) = Z.of_N n /\
  match N_str n with
  | EmptyString => False
  | String c _ => Ascii.eqb c "0" = (n =? 0)%N
  end.
Proof.
  unfold N_str.
  destruct (digits_go_spec (S (N.to_nat (N.log2 n))) n "") as (ds & Heq & H); [lia|].
  rewrite Heq, append_nil_r. exact H.
Qed.

Lemma scan_int_N_str (n : N) (rest : string) :
  delimited rest = true ->
  scan_int (N_str n +:+ rest) = Some (N_str n, rest).
Proof.
  intros Hrest. destruct (N_str_spec n) as (Hds & _ & Hhead).
  destruct (N_str n) as [|c ds] eqn:Hn; [destruct Hhead|].
  cbn [String.append scan_int]. cbn [digits_only] in Hds.
  apply andb_true_iff in Hds as [Hc Hds].
  destruct (Ascii.eqb c "0") eqn:Hc0.
  - (* the only text that starts with 0 is 0 itself *)
    symmetry in Hhead. apply N.eqb_eq in Hhead. subst n.
    injection Hn as <- <-. reflexivity.
  - rewrite Hc. rewrite (span_digits_app ds rest Hds Hrest). reflexivity.
Qed.

Lemma scan_frac_delimited (rest : string) :
  delimited rest = true -> scan_frac rest = (None, rest).
Proof.
  intros H. apply delimited_no_digit in H. destruct rest as [|c rest]; [reflexivity|].
  destruct H as (_ & Hdot & _). apply Ascii.eqb_neq in Hdot.
  unfold scan_frac. destruct c as [[] [] [] [] [] [] [] []]; try reflexivity. congruence.
Qed.

Lemma scan_exp_delimited (rest : string) :
  delimited rest = true -> scan_exp rest = (None, rest).
Proof.
  intros H. apply delimited_no_digit in H. destruct rest as [|c rest]; [reflexivity|].
  destruct H as (_ & _ & He & HE). simpl. rewrite He, HE. reflexivity.
Qed.

Lemma match_number_int (z : Z) (rest : string) :
  delimited rest = true ->
  match_number (int_str z +:+ rest) = Some (PInt z, rest).
Proof.
  intros Hrest. unfold match_number.
  destruct z as [|p|p]; unfold int_str.
  - simpl. rewrite scan_frac_delimited, scan_exp_delimited by assumption. reflexivity.
  - destruct (N_str_spec (Npos p)) as (_ & Hv & Hhead).
    destruct (N_str (Npos p)) as [|c ds] eqn:Hn; [destruct Hhead|].
    assert (Hc : c <> "-"%char).
    { intros ->. pose proof (N_str_spec (Npos p)) as (Hds & _). rewrite Hn in Hds. discriminate. }
    replace (match String c ds +:+ rest with
             | String "-" t => (true, t)
             | _ => (false, String c ds +:+ rest)
             end) with (false, String c ds +:+ rest).
    2:{ simpl. destruct c as [[] [] [] [] [] [] [] []]; try reflexivity. congruence. }
    rewrite <- Hn, scan_int_N_str by assumption.
    rewrite scan_frac_delimited, scan_exp_delimited by assumption.
    rewrite Hn, Hv. reflexivity.
  - cbn [String.append]. 
    change (match String "-" (N_str (Npos p) +:+ rest) with
            | String "-" t => (true, t)
            | _ => (false, String "-" (N_str (Npos p) +:+ rest))
            end) with (true, N_str (Npos p) +:+ rest).
    cbv iota beta. rewrite scan_int_N_str by assumption.
    rewrite scan_frac_delimited, scan_exp_delimited by assumption.
    destruct (N_str_spec (Npos p)) as (_ & -> & _). reflexivity.
Qed.


(** ** json: strings are read back *)

Lemma scanstring_escape_char (c : ascii) (tail : string) :
  scanstring (escape_char c tail) = cons_char c (scanstring tail).
Proof.
  destruct c as [[] [] [] [] [] [] [] []]; reflexivity.
Qed.

Lemma scanstring_escape_str (s rest : string) :
  scanstring (escape_str s (String dquote rest)) = Ok (s, rest).
Proof.
  induction s as [|c s IH]; [reflexivity|].
  cbn [escape_str]. rewrite scanstring_escape_char, IH. reflexivity.
Qed.

(** ** json: what [json.dump] writes, [json.loads] reads back *)

(** Induction on values, with the hypothesis for every item of a list
    and every value of a dict. *)
Lemma pyval_ind (P : pyval -> Prop) :
  P PNone ->
  (forall b, P (PBool b)) ->
  (forall z, P (PInt z)) ->
  (forall f, P (PFloat f)) ->
  (forall s, P (PStr s)) ->
  (forall l, Forall P l -> P (PList l)) ->
  (forall d, Forall (fun kv => P (snd kv)) d -> P (PDict d)) ->
  forall v, P v.
Proof.
  intros HNone HBool HInt HFloat HStr HList HDict.
  fix IH 1. intros [ |b|z|f|s|l|d].
  - exact HNone.
  - apply HBool.
  - apply HInt.
  - apply HFloat.
  - apply HStr.
  - apply HList. induction l as [|x l IHl]; constructor; [apply IH|exact IHl].
  - apply HDict. induction d as [|[k x] d IHd]; constructor; [apply IH|exact IHd].
Qed.

Fixpoint distinct (keys : list string) : bool :=
  match keys with
  | [] => true
  | k :: ks => negb (existsb (String.eqb k) ks) && distinct ks
  end.

(** The values the round trip is stated for: no float anywhere, and
    the keys of every dict distinct (as those of a Python dict are). *)
Fixpoint json_safe (v : pyval) : bool :=
  match v with
  | PFloat _ => false
  | PList l => forallb json_safe l
  | PDict d => distinct (List.map fst d) && forallb (fun kv => json_safe (snd kv)) d
  | _ => true
  end.

(** Fuel that suffices to read the encoding of a value. *)
Fixpoint fuel_for (v : pyval) : nat :=
  match v with
  | PList l => S (List.fold_right (fun x acc => S (Nat.max (fuel_for x) acc)) 0%nat l)
  | PDict d => S (List.fold_right (fun kv acc => S (Nat.max (fuel_for (snd kv)) acc)) 0%nat d)
  | _ => 1%nat
  end.

Lemma skip_ws_indent_to (lvl : nat) (s : string) : skip_ws (indent_to lvl s) = skip_ws s.
Proof. induction lvl as [|lvl IH]; [reflexivity|]. cbn [indent_to skip_ws]. exact IH. Qed.

Lemma skip_ws_newline_indent (lvl : nat) (s : string) :
  skip_ws (newline_indent lvl s) = skip_ws s.
Proof. unfold newline_indent. cbn [skip_ws]. apply skip_ws_indent_to. Qed.

(** The first character of an encoding: it opens a value. *)
Definition opens_value (s : string) : Prop :=
  match s with
  | EmptyString => False
  | String c _ => is_json_ws c = false /\ Ascii.eqb c "]" = false
  end.

Lemma skip_ws_opens (s : string) : opens_value s -> skip_ws s = s.
Proof.
  destruct s as [|c s]; [intros []|]. intros (Hws & _). cbn [skip_ws]. rewrite Hws. reflexivity.
Qed.

Lemma strip_bracket_opens (s : string) : opens_value s -> strip_prefix "]" s = None.
Proof.
  destruct s as [|c s]; [intros []|]. intros (_ & Hb). cbn [strip_prefix].
  rewrite Ascii.eqb_sym, Hb. reflexivity.
Qed.

Lemma N_str_head (n : N) :
  exists c s, N_str n = String c s /\ is_digit c = true.
Proof.
  destruct (N_str_spec n) as (Hds & _ & Hhead).
  destruct (N_str n) as [|c s]; [destruct Hhead|].
  cbn [digits_only] in Hds. apply andb_true_iff in Hds as [Hc _]. eauto.
Qed.

Lemma is_digit_char (c : ascii) :
  is_digit c = true ->
  is_json_ws c = false /\ Ascii.eqb c "]" = false /\ Ascii.eqb c dquote = false /\
  Ascii.eqb c "{" = false /\ Ascii.eqb c "[" = false /\
  Ascii.eqb "n" c = false /\ Ascii.eqb "t" c = false /\ Ascii.eqb "f" c = false.
Proof.
  destruct c as [[] [] [] [] [] [] [] []]; vm_compute; intros H;
    first [discriminate H | repeat split].
Qed.

Lemma encode_opens (lvl : nat) (v : pyval) (rest : string) :
  json_safe v = true -> opens_value (encode lvl v rest).
Proof.
  destruct v as [ |b|z|f|s|l|d]; intros Hsafe; try discriminate Hsafe.
  - repeat split.
  - destruct b; repeat split.
  - cbn [encode]. destruct z as [|p|p]; cbn [int_str].
    + repeat split.
    + destruct (N_str_head (Npos p)) as (c & s & -> & Hc).
      cbn [String.append opens_value]. apply is_digit_char in Hc. tauto.
    + repeat split.
  - repeat split.
  - destruct l; repeat split.
  - destruct d as [|[k x] d]; repeat split.
Qed.

Lemma scan_atom_int (z : Z) (rest : string) :
  delimited rest = true ->
  scan_atom (int_str z +:+ rest) = Ok (PInt z, rest).
Proof.
  intros Hrest. unfold scan_atom.
  assert (Hhead : exists c s, int_str z +:+ rest = String c s /\
                    Ascii.eqb "n" c = false /\ Ascii.eqb "t" c = false /\
                    Ascii.eqb "f" c = false).
  { destruct z as [|p|p]; cbn [int_str].
    - eexists _, _. repeat split.
    - destruct (N_str_head (Npos p)) as (c & s & -> & Hc).
      apply is_digit_char in Hc. eexists _, _. split; [reflexivity|]. tauto.
    - eexists _, _. repeat split. }
  destruct Hhead as (c & s & Heq & Hn & Ht & Hf).
  rewrite (match_number_int z rest Hrest).
  rewrite Heq. cbn [strip_prefix]. rewrite Hn, Ht, Hf. reflexivity.
Qed.

Lemma scan_once_atom (fuel lvl : nat) (v : pyval) (rest : string) :
  match v with PList _ | PDict _ | PFloat _ => False | _ => True end ->
  delimited rest = true ->
  scan_once (S fuel) (encode lvl v rest) = Ok (v, rest).
Proof.
  intros Hv Hrest. destruct v as [ |b|z|f|s|l|d]; try destruct Hv.
  - reflexivity.
  - destruct b; reflexivity.
  - cbn [encode].
    pose proof (encode_opens lvl (PInt z) rest eq_refl) as Hopen. cbn [encode] in Hopen.
    pose proof (scan_atom_int z rest Hrest) as Hatom.
    destruct (int_str z +:+ rest) as [|c s] eqn:Heq; [destruct Hopen|].
    cbn [scan_once].
    assert (Hc : Ascii.eqb c dquote = false /\ Ascii.eqb c "{" = false /\ Ascii.eqb c "[" = false).
    { destruct z as [|p|p]; cbn [int_str] in Heq.
      - injection Heq as <- _. repeat split.
      - destruct (N_str_head (Npos p)) as (c' & s' & Hn & Hd). rewrite Hn in Heq.
        injection Heq as <- _. apply is_digit_char in Hd. tauto.
      - injection Heq as <- _. repeat split. }
    destruct Hc as (-> & -> & ->). exact Hatom.
  - cbn [encode encode_str scan_once]. rewrite Ascii.eqb_refl.
    rewrite scanstring_escape_str. reflexivity.
Qed.

(** [scan_once] reads the encoding of [v] back, whatever the nesting
    level and the delimited text after it. *)
Definition reads_back (v : pyval) : Prop :=
  forall lvl rest fuel,
    json_safe v = true -> delimited rest = true -> (fuel_for v <= fuel)%nat ->
    scan_once fuel (encode lvl v rest) = Ok (v, rest).

Lemma encode_items_delimited (enc : pyval -> string -> string) (lvl : nat) (rest : string)
    (xs : list pyval) :
  delimited (encode_items enc lvl rest xs) = true.
Proof. destruct xs; reflexivity. Qed.

Lemma encode_members_delimited (enc : pyval -> string -> string) (lvl : nat) (rest : string)
    (xs : list (string * pyval)) :
  delimited (encode_members enc lvl rest xs) = true.
Proof. destruct xs as [|[k x] xs]; reflexivity. Qed.

Lemma array_items_encode (lvl : nat) (rest : string) (xs : list pyval) :
  forall x acc fuel,
    Forall reads_back (x :: xs) ->
    forallb json_safe (x :: xs) = true ->
    (S (Nat.max (fuel_for x)
          (List.fold_right (fun y a => S (Nat.max (fuel_for y) a)) 0%nat xs)) <= fuel)%nat ->
    array_items fuel (encode (S lvl) x (encode_items (encode (S lvl)) lvl rest xs)) acc
      = Ok (List.rev acc ++ x :: xs, rest).
Proof.
  induction xs as [|y ys IH]; intros x acc fuel Hall Hsafe Hfuel;
    inversion Hall as [|? ? Hx Hxs]; subst;
    cbn [forallb] in Hsafe; apply andb_true_iff in Hsafe as [Hsx Hsxs];
    (destruct fuel as [|fuel]; [lia|]); cbn [array_items].
  - rewrite (Hx (S lvl) _ fuel Hsx (encode_items_delimited _ _ _ _)) by (cbn in Hfuel; lia).
    cbn [encode_items]. rewrite skip_ws_newline_indent. cbn [skip_ws].
    change (is_json_ws "]") with false. cbv iota.
    rewrite Ascii.eqb_refl. cbn [List.rev]. reflexivity.
  - cbn [List.fold_right] in Hfuel.
    rewrite (Hx (S lvl) _ fuel Hsx (encode_items_delimited _ _ _ _)) by lia.
    cbn [encode_items skip_ws].
    change (is_json_ws ",") with false. cbv iota.
    change (Ascii.eqb "," "]") with false. cbv iota. rewrite Ascii.eqb_refl.
    rewrite skip_ws_newline_indent.
    cbn [forallb] in Hsxs. pose proof Hsxs as Hsy. apply andb_true_iff in Hsy as [Hsy _].
    rewrite (skip_ws_opens _ (encode_opens _ _ _ Hsy)).
    rewrite (IH y (x :: acc) fuel Hxs Hsxs) by lia.
    cbn [List.rev]. rewrite <- app_assoc. reflexivity.
Qed.

Lemma object_items_encode (lvl : nat) (rest : string) (xs : list (string * pyval)) :
  forall k x acc fuel,
    Forall (fun kv => reads_back (snd kv)) ((k, x) :: xs) ->
    forallb (fun kv => json_safe (snd kv)) ((k, x) :: xs) = true ->
    (S (Nat.max (fuel_for x)
          (List.fold_right (fun kv a => S (Nat.max (fuel_for (snd kv)) a)) 0%nat xs)) <= fuel)%nat ->
    object_items fuel
        (escape_str k (String dquote (String ":" (String " "
           (encode (S lvl) x (encode_members (encode (S lvl)) lvl rest xs))))))
        acc
      = Ok (List.rev acc ++ (k, x) :: xs, rest).
Proof.
  induction xs as [|[k' y] ys IH]; intros k x acc fuel Hall Hsafe Hfuel;
    inversion Hall as [|? ? Hx Hxs]; subst; cbn [snd] in Hx;
    cbn [forallb snd] in Hsafe; apply andb_true_iff in Hsafe as [Hsx Hsxs];
    (destruct fuel as [|fuel]; [lia|]); cbn [object_items];
    rewrite scanstring_escape_str; cbn [skip_ws];
    change (is_json_ws ":") with false; cbv iota; cbn [strip_prefix];
    rewrite Ascii.eqb_refl; cbn [skip_ws]; change (is_json_ws " ") with true; cbv iota;
    rewrite (skip_ws_opens _ (encode_opens _ _ _ Hsx)).
  - rewrite (Hx (S lvl) _ fuel Hsx (encode_members_delimited _ _ _ _)) by (cbn in Hfuel; lia).
    cbn [encode_members]. rewrite skip_ws_newline_indent. cbn [skip_ws].
    change (is_json_ws "}") with false. cbv iota.
    rewrite Ascii.eqb_refl. cbn [List.rev]. reflexivity.
  - cbn [List.fold_right snd] in Hfuel.
    rewrite (Hx (S lvl) _ fuel Hsx (encode_members_delimited _ _ _ _)) by lia.
    cbn [encode_members skip_ws].
    change (is_json_ws ",") with false. cbv iota.
    change (Ascii.eqb "," "}") with false. cbv iota. rewrite Ascii.eqb_refl.
    rewrite skip_ws_newline_indent. unfold encode_str. cbn [skip_ws].
    change (is_json_ws dquote) with false. cbv iota. rewrite Ascii.eqb_refl.
    rewrite (IH k' y ((k, x) :: acc) fuel Hxs Hsxs) by lia.
    cbn [List.rev]. rewrite <- app_assoc. reflexivity.
Qed.

Lemma dict_set_fresh (k : string) (v : pyval) (d : list (string * pyval)) :
  existsb (String.eqb k) (List.map fst d) = false ->
  dict_set k v d = d ++ [(k, v)].
Proof.
  induction d as [|[k' v'] d IH]; [reflexivity|].
  cbn [List.map fst existsb dict_set]. intros H.
  apply orb_false_iff in H as [Hk Hd]. rewrite Hk, (IH Hd). reflexivity.
Qed.

Lemma existsb_app_false (k : string) (a b : list string) :
  existsb (String.eqb k) (a ++ b) = false <->
  existsb (String.eqb k) a = false /\ existsb (String.eqb k) b = false.
Proof. rewrite existsb_app. apply orb_false_iff. Qed.

Lemma distinct_app_cons (a : list string) (k : string) (b : list string) :
  distinct (a ++ k :: b) = true ->
  existsb (String.eqb k) a = false /\ distinct ((a ++ [k]) ++ b) = true.
Proof.
  rewrite <- app_assoc. cbn [app]. intros H. split; [|exact H].
  induction a as [|x a IH]; [reflexivity|].
  cbn [app distinct] in H. apply andb_true_iff in H as [Hx Ha].
  apply negb_true_iff in Hx. apply existsb_app_false in Hx as [_ Hx].
  cbn [existsb] in Hx |- *. apply orb_false_iff in Hx as [Hxk _].
  rewrite String.eqb_sym, Hxk, (IH Ha). reflexivity.
Qed.

Lemma fold_dict_set_distinct (d : list (string * pyval)) :
  forall acc,
    distinct (List.map fst acc ++ List.map fst d) = true ->
    fold_left (fun a kv => dict_set (fst kv) (snd kv) a) d acc = acc ++ d.
Proof.
  induction d as [|[k v] d IH]; intros acc H; cbn [fold_left List.map fst snd] in *.
  - rewrite app_nil_r. reflexivity.
  - apply distinct_app_cons in H as [Hfresh Hrest].
    rewrite (dict_set_fresh k v acc Hfresh).
    rewrite IH.
    + rewrite <- app_assoc. reflexivity.
    + rewrite List.map_app. exact Hrest.
Qed.

Lemma dict_of_pairs_distinct (d : list (string * pyval)) :
  distinct (List.map fst d) = true -> dict_of_pairs d = d.
Proof. intros H. unfold dict_of_pairs. rewrite fold_dict_set_distinct; [reflexivity|exact H]. Qed.

Lemma scan_once_encode (v : pyval) : reads_back v.
Proof.
  induction v as [ |b|z|f|s|l IH|d IH] using pyval_ind; intros lvl rest fuel Hsafe Hrest Hfuel.
  - destruct fuel as [|fuel]; [cbn in Hfuel; lia|]. apply scan_once_atom; trivial.
  - destruct fuel as [|fuel]; [cbn in Hfuel; lia|]. apply scan_once_atom; trivial.
  - destruct fuel as [|fuel]; [cbn in Hfuel; lia|]. apply scan_once_atom; trivial.
  - discriminate Hsafe.
  - destruct fuel as [|fuel]; [cbn in Hfuel; lia|]. apply scan_once_atom; trivial.
  - destruct fuel as [|fuel]; [cbn in Hfuel; lia|].
    destruct l as [|x xs]; [reflexivity|].
    cbn [json_safe] in Hsafe. cbn [fuel_for List.fold_right] in Hfuel.
    cbn [encode scan_once].
    change (Ascii.eqb "[" dquote) with false. change (Ascii.eqb "[" "{") with false.
    cbv iota. rewrite Ascii.eqb_refl. rewrite skip_ws_newline_indent.
    pose proof Hsafe as Hsx. cbn [forallb] in Hsx. apply andb_true_iff in Hsx as [Hsx _].
    pose proof (encode_opens (S lvl) x (encode_items (encode (S lvl)) lvl rest xs) Hsx) as Hopen.
    rewrite (skip_ws_opens _ Hopen), (strip_bracket_opens _ Hopen).
    rewrite (array_items_encode lvl rest xs x [] fuel IH Hsafe) by lia.
    reflexivity.
  - destruct fuel as [|fuel]; [cbn in Hfuel; lia|].
    destruct d as [|[k x] xs]; [reflexivity|].
    cbn [json_safe] in Hsafe. apply andb_true_iff in Hsafe as [Hkeys Hsafe].
    cbn [fuel_for List.fold_right snd] in Hfuel.
    cbn [encode scan_once].
    change (Ascii.eqb "{" dquote) with false. cbv iota. rewrite Ascii.eqb_refl.
    rewrite skip_ws_newline_indent. unfold encode_str at 1. cbn [skip_ws].
    change (is_json_ws dquote) with false. cbv iota.
    change (Ascii.eqb dquote "}") with false. cbv iota. rewrite Ascii.eqb_refl.
    rewrite (object_items_encode lvl rest xs k x [] fuel IH Hsafe) by lia.
    cbn [List.rev app]. rewrite (dict_of_pairs_distinct _ Hkeys). reflexivity.
Qed.

(** ** json: the fuel [json_loads] supplies suffices *)

Lemma escape_char_length (c : ascii) (r : string) :
  (S (String.length r) <= String.length (escape_char c r))%nat.
Proof.
  unfold escape_char.
  repeat match goal with |- context [if ?b then _ else _] => destruct b end;
    cbn [String.length]; lia.
Qed.

Lemma escape_str_length (s r : string) :
  (String.length r <= String.length (escape_str s r))%nat.
Proof.
  induction s as [|c s IH]; cbn [escape_str]; [lia|].
  pose proof (escape_char_length c (escape_str s r)). lia.
Qed.

Lemma encode_str_length (s r : string) :
  (2 + String.length r <= String.length (encode_str s r))%nat.
Proof.
  unfold encode_str. cbn [String.length].
  pose proof (escape_str_length s (String dquote r)) as H. cbn [String.length] in H. lia.
Qed.

Lemma indent_to_length (lvl : nat) (r : string) :
  (String.length r <= String.length (indent_to lvl r))%nat.
Proof. induction lvl as [|lvl IH]; cbn [indent_to String.length]; lia. Qed.

Lemma newline_indent_length (lvl : nat) (r : string) :
  (1 + String.length r <= String.length (newline_indent lvl r))%nat.
Proof.
  unfold newline_indent. cbn [String.length]. pose proof (indent_to_length lvl r). lia.
Qed.

Lemma int_str_length (z : Z) (r : string) :
  (1 + String.length r <= String.length (int_str z +:+ r))%nat.
Proof.
  rewrite append_length.
  assert (1 <= String.length (int_str z))%nat; [|lia].
  destruct z as [|p|p]; cbn [int_str String.length]; try lia.
  destruct (N_str_head (Npos p)) as (c & s & -> & _). cbn [String.length]. lia.
Qed.

(** An encoding is at least as long as the fuel that reads it. *)
Definition long_enough (v : pyval) : Prop :=
  forall lvl rest,
    json_safe v = true ->
    (fuel_for v + String.length rest <= String.length (encode lvl v rest))%nat.

Lemma encode_items_length (lvl : nat) (rest : string) (xs : list pyval) :
  Forall long_enough xs ->
  forallb json_safe xs = true ->
  (List.fold_right (fun y a => S (Nat.max (fuel_for y) a)) 0%nat xs + 1 + String.length rest
   <= String.length (encode_items (encode (S lvl)) lvl rest xs))%nat.
Proof.
  induction 1 as [|y ys Hy _ IH]; intros Hsafe; cbn [encode_items List.fold_right].
  - pose proof (newline_indent_length lvl (String "]" rest)) as H.
    cbn [String.length] in H. lia.
  - cbn [forallb] in Hsafe. apply andb_true_iff in Hsafe as [Hsy Hsys].
    cbn [String.length].
    pose proof (newline_indent_length (S lvl)
                  (encode (S lvl) y (encode_items (encode (S lvl)) lvl rest ys))).
    pose proof (Hy (S lvl) (encode_items (encode (S lvl)) lvl rest ys) Hsy).
    specialize (IH Hsys). lia.
Qed.

Lemma encode_members_length (lvl : nat) (rest : string) (xs : list (string * pyval)) :
  Forall (fun kv => long_enough (snd kv)) xs ->
  forallb (fun kv => json_safe (snd kv)) xs = true ->
  (List.fold_right (fun kv a => S (Nat.max (fuel_for (snd kv)) a)) 0%nat xs
     + 1 + String.length rest
   <= String.length (encode_members (encode (S lvl)) lvl rest xs))%nat.
Proof.
  induction 1 as [|[k y] ys Hy _ IH]; intros Hsafe; cbn [encode_members List.fold_right].
  - pose proof (newline_indent_length lvl (String "}" rest)) as H.
    cbn [String.length] in H. lia.
  - cbn [forallb snd] in Hsafe. apply andb_true_iff in Hsafe as [Hsy Hsys].
    cbn [String.length snd] in *.
    set (tail := encode (S lvl) y (encode_members (encode (S lvl)) lvl rest ys)).
    pose proof (newline_indent_length (S lvl) (encode_str k (String ":" (String " " tail)))).
    pose proof (encode_str_length k (String ":" (String " " tail))) as Hk.
    cbn [String.length] in Hk.
    pose proof (Hy (S lvl) (encode_members (encode (S lvl)) lvl rest ys) Hsy). fold tail in H0.
    specialize (IH Hsys). lia.
Qed.

Lemma encode_long_enough (v : pyval) : long_enough v.
Proof.
  induction v as [ |b|z|f|s|l IH|d IH] using pyval_ind; intros lvl rest Hsafe;
    cbn [fuel_for encode].
  - cbn [String.append String.length]. lia.
  - destruct b; cbn [String.append String.length]; lia.
  - apply int_str_length.
  - discriminate Hsafe.
  - pose proof (encode_str_length s rest). lia.
  - destruct l as [|x xs]; [cbn [String.length List.fold_right]; lia|].
    cbn [json_safe forallb] in Hsafe. apply andb_true_iff in Hsafe as [Hsx Hsxs].
    inversion IH as [|? ? Hx Hxs]; subst.
    cbn [String.length List.fold_right].
    pose proof (newline_indent_length (S lvl)
                  (encode (S lvl) x (encode_items (encode (S lvl)) lvl rest xs))).
    pose proof (Hx (S lvl) (encode_items (encode (S lvl)) lvl rest xs) Hsx).
    pose proof (encode_items_length lvl rest xs Hxs Hsxs). lia.
  - destruct d as [|[k x] xs]; [cbn [String.length List.fold_right]; lia|].
    cbn [json_safe] in Hsafe. apply andb_true_iff in Hsafe as [_ Hsafe].
    cbn [forallb snd] in Hsafe. apply andb_true_iff in Hsafe as [Hsx Hsxs].
    inversion IH as [|? ? Hx Hxs]; subst. cbn [snd] in Hx.
    cbn [String.length List.fold_right snd].
    set (tail := encode (S lvl) x (encode_members (encode (S lvl)) lvl rest xs)).
    pose proof (newline_indent_length (S lvl) (encode_str k (String ":" (String " " tail)))).
    pose proof (encode_str_length k (String ":" (String " " tail))) as Hk.
    cbn [String.length] in Hk.
    pose proof (Hx (S lvl) (encode_members (encode (S lvl)) lvl rest xs) Hsx). fold tail in H0.
    pose proof (encode_members_length lvl rest xs Hxs Hsxs). lia.
Qed.

(** The round trip: [json.loads] of what [json.dump(v, f, indent=2)]
    wrote is [v], for every value without floats. *)
Lemma json_loads_dumps (v : pyval) :
  json_safe v = true -> json_loads (json_dumps v) = Ok v.
Proof.
  intros Hsafe. unfold json_loads, json_dumps.
  rewrite (skip_ws_opens _ (encode_opens 0 v "" Hsafe)).
  rewrite (scan_once_encode v 0%nat "" _ Hsafe eq_refl).
  - reflexivity.
  - pose proof (encode_long_enough v 0%nat "" Hsafe). lia.
Qed.

(** ** json: [json_loads] never runs out of fuel *)

(** A scan of [s] went well: it consumed at least one character, or it
    raised something else than the lack of fuel. *)
Definition consumes {A : Type} (r : result (A * string)) (s : string) : Prop :=
  match r with
  | Ok (_, rest) => (String.length rest < String.length s)%nat
  | Raise e => e <> OutOfFuel
  end.

Lemma skip_ws_length (s : string) : (String.length (skip_ws s) <= String.length s)%nat.
Proof.
  induction s as [|c s IH]; cbn [skip_ws String.length]; [lia|].
  destruct (is_json_ws c); cbn [String.length]; lia.
Qed.

Lemma strip_prefix_length (p : string) :
  forall s r, strip_prefix p s = Some r ->
  String.length s = (String.length p + String.length r)%nat.
Proof.
  induction p as [|a p IH]; intros s r H; cbn [strip_prefix] in H.
  - injection H as <-. reflexivity.
  - destruct s as [|b s]; [discriminate|].
    destruct (Ascii.eqb a b); [|discriminate].
    cbn [String.length]. rewrite (IH s r H). reflexivity.
Qed.

Lemma cons_char_consumes (c : ascii) (r : result (string * string)) (s : string) :
  consumes r s -> consumes (cons_char c r) s.
Proof. destruct r as [[x rest]|e]; exact (fun H => H). Qed.

Lemma consumes_longer {A : Type} (r : result (A * string)) (s s' : string) :
  (String.length s <= String.length s')%nat -> consumes r s -> consumes r s'.
Proof. destruct r as [[x rest]|e]; cbn; intros; [lia|assumption]. Qed.

Lemma scanstring_consumes (n : nat) :
  forall s, (String.length s <= n)%nat -> consumes (scanstring s) s.
Proof.
  induction n as [|n IH]; intros s Hn.
  - destruct s; [discriminate|cbn [String.length] in Hn; lia].
  - destruct s as [|c s]; [discriminate|]. cbn [scanstring String.length] in *.
    destruct (Ascii.eqb c dquote); [cbn; lia|].
    destruct (Ascii.eqb c backslash).
    + destruct s as [|e s]; [discriminate|].
      destruct (Ascii.eqb e "u").
      * destruct s as [|h1 [|h2 [|h3 [|h4 s3]]]]; try discriminate.
        destruct (hex4 h1 h2 h3 h4) as [k|]; [|discriminate].
        destruct (k <? 256)%nat; [|discriminate].
        apply cons_char_consumes.
        eapply consumes_longer; [|apply IH; cbn [String.length] in *; lia].
        cbn [String.length]. lia.
      * destruct (unescape e); [|discriminate].
        apply cons_char_consumes.
        eapply consumes_longer; [|apply IH; cbn [String.length] in *; lia].
        cbn [String.length]. lia.
    + destruct (ord c <? 32)%nat; [discriminate|].
      apply cons_char_consumes.
      eapply consumes_longer; [|apply IH; cbn [String.length] in *; lia].
      cbn [String.length]. lia.
Qed.

Lemma span_digits_length (s : string) :
  String.length s
    = (String.length (fst (span_digits s)) + String.length (snd (span_digits s)))%nat.
Proof.
  induction s as [|c s IH]; cbn [span_digits]; [reflexivity|].
  destruct (is_digit c); [|reflexivity].
  destruct (span_digits s) as [ds rest]. cbn [fst snd String.length] in *. lia.
Qed.

Lemma scan_int_length (s ip rest : string) :
  scan_int s = Some (ip, rest) -> (String.length rest < String.length s)%nat.
Proof.
  destruct s as [|c s]; [discriminate|]. cbn [scan_int String.length].
  destruct (Ascii.eqb c "0"); [intros [= _ <-]; lia|].
  destruct (is_digit c); [|discriminate].
  pose proof (span_digits_length s) as H.
  destruct (span_digits s) as [ds r]. cbn [fst snd] in H. intros [= _ <-]. lia.
Qed.

Lemma scan_frac_length (s : string) :
  (String.length (snd (scan_frac s)) <= String.length s)%nat.
Proof.
  unfold scan_frac. destruct s as [|c s]; [cbn; lia|].
  destruct (Ascii.eqb c ".") eqn:Hc.
  - apply Ascii.eqb_eq in Hc. subst c.
    pose proof (span_digits_length s) as H.
    destruct (span_digits s) as [[|d ds] r]; cbn [fst snd String.length] in *; lia.
  - apply Ascii.eqb_neq in Hc.
    destruct c as [[] [] [] [] [] [] [] []]; cbn [snd String.length]; try lia. congruence.
Qed.

Lemma scan_exp_length (s : string) :
  (String.length (snd (scan_exp s)) <= String.length s)%nat.
Proof.
  unfold scan_exp. destruct s as [|c s]; [cbn; lia|].
  destruct (Ascii.eqb c "e" || Ascii.eqb c "E"); [|cbn [snd]; lia].
  assert (Hsign : exists neg t,
            match s with
            | String "-" t => (true, t)
            | String "+" t => (false, t)
            | _ => (false, s)
            end = (neg, t) /\ (String.length t <= String.length s)%nat).
  { destruct s as [|c' s']; [eexists _, _; split; [reflexivity|lia]|].
    destruct c' as [[] [] [] [] [] [] [] []];
      eexists _, _; (split; [reflexivity|cbn [String.length]; lia]). }
  destruct Hsign as (neg & t & -> & Ht).
  pose proof (span_digits_length t) as H.
  destruct (span_digits t) as [[|d ds] r]; cbn [fst snd String.length] in *; lia.
Qed.

Lemma match_number_length (s : string) (v : pyval) (rest : string) :
  match_number s = Some (v, rest) -> (String.length rest < String.length s)%nat.
Proof.
  unfold match_number.
  assert (Hsign : exists neg t,
            match s with String "-" t => (true, t) | _ => (false, s) end = (neg, t) /\
            (String.length t <= String.length s)%nat).
  { destruct s as [|c' s']; [eexists _, _; split; [reflexivity|lia]|].
    destruct c' as [[] [] [] [] [] [] [] []];
      eexists _, _; (split; [reflexivity|cbn [String.length]; lia]). }
  destruct Hsign as (neg & t & -> & Ht).
  destruct (scan_int t) as [[ip s2]|] eqn:Hint; [|discriminate].
  apply scan_int_length in Hint.
  pose proof (scan_frac_length s2) as Hf. destruct (scan_frac s2) as [frac s3].
  pose proof (scan_exp_length s3) as He. destruct (scan_exp s3) as [ex s4].
  cbn [snd] in *.
  destruct frac, ex; intros [= _ <-]; lia.
Qed.

Lemma scan_atom_consumes (s : string) : consumes (scan_atom s) s.
Proof.
  unfold scan_atom.
  repeat match goal with
  | |- context [strip_prefix ?p s] =>
      let H := fresh "H" in
      destruct (strip_prefix p s) eqn:H;
      [apply strip_prefix_length in H; cbn [String.length] in H; cbn; lia|]
  | |- context [match_number s] =>
      let H := fresh "H" in
      destruct (match_number s) as [[v r]|] eqn:H;
      [apply match_number_length in H; exact H|]
  end.
  discriminate.
Qed.

Lemma fuel_suffices (fuel : nat) :
  (forall s, (2 * String.length s + 1 <= fuel)%nat -> consumes (scan_once fuel s) s) /\
  (forall s acc, (2 * String.length s + 2 <= fuel)%nat -> consumes (array_items fuel s acc) s) /\
  (forall s acc, (2 * String.length s + 2 <= fuel)%nat -> consumes (object_items fuel s acc) s).
Proof.
  induction fuel as [|fuel (IHv & IHa & IHo)]; [repeat split; intros; lia|].
  repeat split.
  - intros s Hfuel. cbn [scan_once].
    destruct s as [|c s]; [discriminate|]. cbn [String.length] in Hfuel.
    destruct (Ascii.eqb c dquote).
    { pose proof (scanstring_consumes _ s (Nat.le_refl _)) as H.
      destruct (scanstring s) as [[str rest]|e]; cbn in *; [lia|exact H]. }
    destruct (Ascii.eqb c "{").
    { pose proof (skip_ws_length s) as Hws.
      destruct (skip_ws s) as [|c1 s1]; [discriminate|]. cbn [String.length] in Hws.
      destruct (Ascii.eqb c1 "}"); [cbn; lia|].
      destruct (Ascii.eqb c1 dquote); [|discriminate].
      pose proof (IHo s1 [] ltac:(lia)) as H.
      destruct (object_items fuel s1 []) as [[pairs rest]|e]; cbn in *; [lia|exact H]. }
    destruct (Ascii.eqb c "[").
    { pose proof (skip_ws_length s) as Hws.
      destruct (strip_prefix "]" (skip_ws s)) as [s1|] eqn:Hb.
      - apply strip_prefix_length in Hb. unfold consumes. cbn [String.length] in *. lia.
      - pose proof (IHa (skip_ws s) [] ltac:(lia)) as H.
        destruct (array_items fuel (skip_ws s) []) as [[values rest]|e]; cbn in *; [lia|exact H]. }
    apply scan_atom_consumes.
  - intros s acc Hfuel. cbn [array_items].
    pose proof (IHv s ltac:(lia)) as H.
    destruct (scan_once fuel s) as [[v rest]|e]; [|exact H]. cbn in H.
    pose proof (skip_ws_length rest) as Hws.
    destruct (skip_ws rest) as [|c rest']; [discriminate|]. cbn [String.length] in Hws.
    destruct (Ascii.eqb c "]"); [cbn; lia|].
    destruct (Ascii.eqb c ","); [|discriminate].
    pose proof (skip_ws_length rest') as Hws'.
    eapply consumes_longer; [|apply IHa; lia]. lia.
  - intros s acc Hfuel. cbn [object_items].
    pose proof (scanstring_consumes _ s (Nat.le_refl _)) as H.
    destruct (scanstring s) as [[key rest]|e]; [|exact H]. cbn in H.
    pose proof (skip_ws_length rest) as Hws.
    destruct (strip_prefix ":" (skip_ws rest)) as [rest1|] eqn:Hc; [|discriminate].
    apply strip_prefix_length in Hc. cbn [String.length] in Hc.
    pose proof (skip_ws_length rest1) as Hws1.
    pose proof (IHv (skip_ws rest1) ltac:(lia)) as Hv.
    destruct (scan_once fuel (skip_ws rest1)) as [[v rest2]|e]; [|exact Hv]. cbn in Hv.
    pose proof (skip_ws_length rest2) as Hws2.
    destruct (skip_ws rest2) as [|c rest3]; [discriminate|]. cbn [String.length] in Hws2.
    destruct (Ascii.eqb c "}"); [cbn; lia|].
    destruct (Ascii.eqb c ","); [|discriminate].
    pose proof (skip_ws_length rest3) as Hws3.
    destruct (skip_ws rest3) as [|c4 rest4]; [discriminate|]. cbn [String.length] in Hws3.
    destruct (Ascii.eqb c4 dquote); [|discriminate].
    eapply consumes_longer; [|apply IHo; lia]. lia.
Qed.

(** [json_loads] raises the decoder's own errors only. *)
Lemma json_loads_fuel (s : string) : json_loads s <> Raise OutOfFuel.
Proof.
  unfold json_loads.
  pose proof (skip_ws_length s) as Hws.
  destruct (fuel_suffices (2 * String.length s + 2)) as (Hv & _ & _).
  specialize (Hv (skip_ws s) ltac:(lia)).
  destruct (scan_once (2 * String.length s + 2) (skip_ws s)) as [[v rest]|e].
  - destruct (skip_ws rest); discriminate.
  - cbn in Hv. congruence.
Qed.

Lemma parse_json_fuel (text : string) : _parse_json text <> Raise OutOfFuel.
Proof.
  unfold _parse_json.
  destruct (str_contains "```json" text).
  - destruct (split1_snd "```json" text) as [after|e] eqn:Hs; cbn.
    + apply json_loads_fuel.
    + unfold split1_snd in Hs. destruct (str_find "```json" text) as [[? ?]|]; [discriminate|].
      injection Hs as <-. discriminate.
  - destruct (str_contains "```" text).
    + destruct (split1_snd "```" text) as [after|e] eqn:Hs; cbn.
      * apply json_loads_fuel.
      * unfold split1_snd in Hs. destruct (str_find "```" text) as [[? ?]|]; [discriminate|].
        injection Hs as <-. discriminate.
    + cbn. apply json_loads_fuel.
Qed.

(** ** indexer.py: chunks that can be stored and read back *)

Section RoundTrip.

Variable md5_hexdigest : string -> string.
Variable uuid4_hex : nat -> string.
Context {bm25 : Type}.
Variable BM25Okapi : list (list string) -> result bm25.

(** What [load_index] needs of a chunk: it can be dumped and read back,
    and its [text] is a str. *)
Definition storable_chunk (c : pyval) : Prop :=
  json_safe c = true /\ exists t, tokenize_text c = Ok t.

Lemma new_chunk_storable (drawn : nat) (doc text : string)
    (page_num : option Z) (section : option string) (start : nat) :
  storable_chunk (new_chunk uuid4_hex drawn doc text page_num section start).
Proof.
  split.
  - destruct page_num, section; reflexivity.
  - eexists. reflexivity.
Qed.

Lemma chunk_words_storable (doc : string) (words : list string)
    (page_num : option Z) (section : option string) :
  forall fuel start drawn,
    Forall storable_chunk
      (fst (chunk_words uuid4_hex fuel doc words page_num section start drawn)).
Proof.
  induction fuel as [|fuel IH]; intros start drawn; cbn [chunk_words].
  - constructor.
  - destruct (start <? length words)%nat; [|constructor].
    destruct (Nat.min (start + CHUNK_WORDS) (length words) =? length words)%nat.
    + repeat constructor; apply new_chunk_storable.
    + specialize (IH (start + (CHUNK_WORDS - OVERLAP_WORDS))%nat (S drawn)).
      destruct (chunk_words uuid4_hex fuel doc words page_num section
                  (start + (CHUNK_WORDS - OVERLAP_WORDS)) (S drawn)) as [more drawn'].
      cbn [fst] in *. constructor; [apply new_chunk_storable|exact IH].
Qed.

Lemma build_chunks_storable (doc : string) (segments : list segment) :
  forall drawn, Forall storable_chunk (fst (_build_chunks uuid4_hex doc segments drawn)).
Proof.
  induction segments as [|[[text page_num] section] rest IH]; intros drawn; cbn [_build_chunks].
  - constructor.
  - pose proof (chunk_words_storable doc (str_split text) page_num section
                  (length (str_split text)) 0 drawn) as Hhere.
    destruct (chunk_words uuid4_hex (length (str_split text)) doc (str_split text)
                page_num section 0 drawn) as [here drawn1].
    specialize (IH drawn1).
    destruct (_build_chunks uuid4_hex doc rest drawn1) as [later drawn2].
    cbn [fst] in *. apply List.Forall_app. split; assumption.
Qed.

Lemma index_record_safe (doc filepath : string) (chunks : list pyval) :
  Forall storable_chunk chunks -> json_safe (index_record doc filepath chunks) = true.
Proof.
  intros H. unfold index_record. cbn [json_safe List.map fst snd forallb].
  change (distinct ["doc_id"; "filepath"; "chunks"]) with true.
  cbn [andb]. rewrite andb_true_r. apply forallb_forall.
  intros c Hc. rewrite List.Forall_forall in H. apply (H c Hc).
Qed.

Lemma storable_corpus (chunks : list pyval) :
  Forall storable_chunk chunks -> exists corpus, result_mapM tokenize_text chunks = Ok corpus.
Proof.
  induction 1 as [|c cs [_ [t Ht]] _ [corpus IH]].
  - exists []. reflexivity.
  - exists (t :: corpus). cbn [result_mapM]. rewrite Ht, IH. reflexivity.
Qed.

End RoundTrip.

(** ** A small world to run the package in *)

(** Stand-ins for what the package takes from outside: a digest that
    spells the characters of the path in hexadecimal, UUIDs that count,
    and a scorer that counts the words of a chunk the query contains
    and refuses an empty corpus. *)
Definition demo_md5 (s : string) : string :=
  String.concat "" (List.map hex2 (list_ascii_of_string s)) +:+ "00000000000000000000000000000000".

Definition demo_uuid (n : nat) : string :=
  N_str (N.of_nat n) +:+ "c0ffee00d15ea5e0123456789abcdef".

Definition demo_BM25Okapi (corpus : list (list string)) : result (list (list string)) :=
  match corpus with
  | [] => Raise ZeroDivisionError
  | _ => Ok corpus
  end.

Definition demo_get_scores (corpus : list (list string)) (query : list string) : list float :=
  List.map
    (fun doc =>
       Z_to_float (Z.of_nat (length (List.filter (fun t => existsb (String.eqb t) query) doc))))
    corpus.

Definition empty_world : world := {| files := ∅; uuid_drawn := 0 |}.

Definition demo_segments : list segment :=
  [("Alpha beta", None, Some "Document");
   ("beta Gamma beta", Some 3, None);
   ("", None, None);
   ("delta beta", None, Some "End")].

Definition demo_doc : string :=
  fst (index_document demo_md5 demo_uuid "a.txt" demo_segments empty_world).

Definition demo_world : world :=
  snd (index_document demo_md5 demo_uuid "a.txt" demo_segments empty_world).

Definition demo_chunks : list pyval :=
  fst (_build_chunks demo_uuid demo_doc demo_segments 0).

Definition demo_index : list (list string) :=
  [["alpha"; "beta"]; ["beta"; "gamma"; "beta"]; ["delta"; "beta"]].

(** The index file written, and the two best chunks for a question:
    the chunks with one match tie and keep their index order. *)
Example demo_index_file :
  demo_doc = "612e74787400" /\
  files demo_world !! index_path demo_doc
    = Some (json_dumps (index_record demo_doc "a.txt" demo_chunks)) /\
  load_index demo_BM25Okapi demo_doc demo_world = Ok (PList demo_chunks, demo_index).
Proof. repeat split; vm_compute; reflexivity. Qed.

Example demo_retrieve :
  retrieve demo_BM25Okapi demo_get_scores demo_doc "BETA" 2 demo_world
    = Ok [PDict [("chunk_id", PStr "1c0ffee0"); ("doc_id", PStr "612e74787400");
                 ("text", PStr "beta Gamma beta"); ("page_num", PInt 3);
                 ("section", PNone); ("word_start", PInt 0); ("score", PFloat 2)];
          PDict [("chunk_id", PStr "0c0ffee0"); ("doc_id", PStr "612e74787400");
                 ("text", PStr "Alpha beta"); ("page_num", PNone);
                 ("section", PStr "Document"); ("word_start", PInt 0);
                 ("score", PFloat 1)]].
Proof. vm_compute. reflexivity. Qed.

Lemma load_index_unknown_document_witness :
  load_index demo_BM25Okapi "ffffffffffff" demo_world = Raise FileNotFoundError /\
  retrieve demo_BM25Okapi demo_get_scores "ffffffffffff" "BETA" TOP_K demo_world
    = Raise FileNotFoundError /\
  (forall chunks index,
     load_index demo_BM25Okapi "ffffffffffff" demo_world <> Ok (chunks, index)) /\
  (forall results,
     retrieve demo_BM25Okapi demo_get_scores "ffffffffffff" "BETA" TOP_K demo_world
       <> Ok results).
Proof.
  apply (load_index_unknown_document demo_BM25Okapi demo_get_scores
           "ffffffffffff" "BETA" TOP_K demo_world).
  vm_compute. reflexivity.
Defined.


(** * Further properties of the package *)

(** ** [str.split], [str.strip] and [str.join] on words *)

#[local] Arguments is_space : simpl never.
#[local] Arguments lower_char : simpl never.

(** [s] holds a character that is no whitespace. *)
Fixpoint has_word (s : string) : bool :=
  match s with
  | EmptyString => false
  | String c s' => negb (is_space c) || has_word s'
  end.

(** [s] holds no whitespace. *)
Fixpoint space_free (s : string) : bool :=
  match s with
  | EmptyString => true
  | String c s' => negb (is_space c) && space_free s'
  end.

(** What [split] returns: a non-empty run without whitespace. *)
Definition is_word (w : string) : Prop := w <> EmptyString /\ space_free w = true.

Lemma has_word_app (a b : string) : has_word (a +:+ b) = has_word a || has_word b.
Proof.
  induction a as [|c a IH]; cbn [String.append has_word]; [reflexivity|].
  rewrite IH. apply orb_assoc.
Qed.

Lemma space_free_app (a b : string) : space_free (a +:+ b) = space_free a && space_free b.
Proof.
  induction a as [|c a IH]; cbn [String.append space_free]; [reflexivity|].
  rewrite IH. apply andb_assoc.
Qed.

Lemma is_word_has_word (w : string) : is_word w -> has_word w = true.
Proof.
  intros [Hne Hfree]. destruct w as [|c w]; [congruence|].
  cbn [space_free has_word] in *. apply andb_true_iff in Hfree as [-> _]. reflexivity.
Qed.

Lemma split_go_some (s : string) : forall w, split_go (Some w) s <> [].
Proof.
  induction s as [|c s IH]; intros w; cbn [split_go]; [discriminate|].
  destruct (is_space c); [discriminate|apply IH].
Qed.

Lemma split_go_none_nil (s : string) : split_go None s = [] <-> has_word s = false.
Proof.
  induction s as [|c s IH]; cbn [split_go has_word]; [tauto|].
  destruct (is_space c); cbn [negb orb]; [exact IH|].
  split; [intros H; exfalso; exact (split_go_some s _ H)|discriminate].
Qed.

(** [text.split()] is empty exactly for a text of whitespace. *)
Lemma str_split_nil (s : string) : str_split s = [] <-> has_word s = false.
Proof. apply split_go_none_nil. Qed.

Lemma split_go_words (s : string) :
  forall cur,
    match cur with Some w => is_word w | None => True end ->
    Forall is_word (split_go cur s).
Proof.
  induction s as [|c s IH]; intros cur Hcur; cbn [split_go].
  - destruct cur; [constructor; [assumption|constructor]|constructor].
  - destruct (is_space c) eqn:Hc.
    + destruct cur; [constructor; [assumption|]|]; apply IH; exact I.
    + apply IH. destruct cur as [w|].
      * destruct Hcur as [Hne Hfree]. split.
        -- destruct w; [congruence|discriminate].
        -- rewrite space_free_app, Hfree. cbn [space_free]. rewrite Hc. reflexivity.
      * split; [discriminate|]. cbn [space_free]. rewrite Hc. reflexivity.
Qed.

Lemma str_split_words (s : string) : Forall is_word (str_split s).
Proof. apply split_go_words. exact I. Qed.

Lemma split_go_word (w : string) :
  forall a r,
    space_free w = true ->
    split_go (Some a) (w +:+ r) = split_go (Some (a +:+ w)) r.
Proof.
  induction w as [|c w IH]; intros a r Hfree; cbn [String.append].
  - rewrite append_nil_r. reflexivity.
  - cbn [space_free] in Hfree. apply andb_true_iff in Hfree as [Hc Hfree].
    apply negb_true_iff in Hc. cbn [split_go]. rewrite Hc.
    rewrite (IH _ r Hfree), append_assoc. reflexivity.
Qed.

Lemma split_go_first_word (w r : string) :
  is_word w -> split_go None (w +:+ r) = split_go (Some w) r.
Proof.
  intros [Hne Hfree]. destruct w as [|c w]; [congruence|].
  cbn [space_free] in Hfree. apply andb_true_iff in Hfree as [Hc Hfree].
  apply negb_true_iff in Hc. cbn [String.append split_go]. rewrite Hc.
  rewrite (split_go_word w _ r Hfree). reflexivity.
Qed.

(** Joining words with one space and splitting again gives the words. *)
Lemma str_split_join (ws : list string) :
  Forall is_word ws -> str_split (str_join " " ws) = ws.
Proof.
  unfold str_split, str_join.
  induction 1 as [|w ws Hw Hws IH]; [reflexivity|].
  cbn [String.concat]. destruct ws as [|w' ws].
  - rewrite <- (append_nil_r w) at 1. rewrite (split_go_first_word w "" Hw). reflexivity.
  - rewrite (split_go_first_word w _ Hw). cbn [String.append split_go].
    change (is_space " ") with true. cbv iota. rewrite IH. reflexivity.
Qed.

Lemma Forall_slice {A : Type} (P : A -> Prop) (l : list A) (a b : nat) :
  Forall P l -> Forall P (slice l a b).
Proof. intros H. unfold slice. apply Forall_take, Forall_drop, H. Qed.

(** ** indexer.py: how many chunks, and what each chunk is *)

(** The number of windows over [n] words: none for no word, one up to
    [CHUNK_WORDS] words, then one more for every started step of
    [CHUNK_WORDS - OVERLAP_WORDS] words. *)
Definition chunk_count (n : nat) : nat :=
  if (n =? 0)%nat then 0%nat
  else if (n <=? CHUNK_WORDS)%nat then 1%nat
  else (1 + (n - CHUNK_WORDS + (CHUNK_WORDS - OVERLAP_WORDS - 1)) / (CHUNK_WORDS - OVERLAP_WORDS))%nat.

Fixpoint sum_list (l : list nat) : nat :=
  match l with
  | [] => 0%nat
  | x :: xs => (x + sum_list xs)%nat
  end.

Definition segment_words (seg : segment) : list string := str_split (fst (fst seg)).

Section ChunkStructure.

Variable uuid4_hex : nat -> string.

Lemma last_round_count (n k : nat) :
  (1 <= n)%nat ->
  window_end n k = n ->
  (forall i, (i < k)%nat -> (window_start i + CHUNK_WORDS < n)%nat) ->
  S k = chunk_count n.
Proof.
  intros Hn Hlast Hfull. unfold chunk_count.
  destruct (Nat.eqb_spec n 0) as [->|_]; [lia|].
  assert (Hprev : (k = 0)%nat \/ (window_start (k - 1) + CHUNK_WORDS < n)%nat).
  { destruct k as [|k']; [left; reflexivity|right]. apply Hfull. lia. }
  unfold window_end, window_start, CHUNK_WORDS, OVERLAP_WORDS in *.
  change (250 - 50 - 1)%nat with 199%nat. change (250 - 50)%nat with 200%nat in *.
  destruct (Nat.leb_spec n 250) as [Hsmall|Hbig].
  - destruct Hprev as [->|Hprev]; [reflexivity|lia].
  - pose proof (Nat.div_mod_eq (n - 250 + 199) 200) as Hdiv.
    pose proof (Nat.mod_upper_bound (n - 250 + 199) 200) as Hmod.
    destruct Hprev as [->|Hprev]; [lia|].
    assert (k = (n - 250 + 199) / 200)%nat by nia. lia.
Qed.

(** The chunks of one segment, in closed form. *)
Lemma build_chunks_segment (doc text : string) (page_num : option Z) (section : option string)
    (drawn : nat) :
  _build_chunks uuid4_hex doc [(text, page_num, section)] drawn
    = (List.map (window_chunk uuid4_hex doc (str_split text) page_num section drawn)
         (seq 0 (chunk_count (length (str_split text)))),
       (drawn + chunk_count (length (str_split text)))%nat).
Proof.
  rewrite build_chunks_one. cbv zeta.
  destruct (str_split text) as [|w ws] eqn:Hwords.
  - rewrite chunk_words_empty. cbn. rewrite Nat.add_0_r. reflexivity.
  - rewrite <- Hwords.
    assert (Hn : (1 <= length (str_split text))%nat) by (rewrite Hwords; cbn; lia).
    destruct (chunk_words_rounds uuid4_hex doc (str_split text) page_num section drawn
                (length (str_split text)) 0) as (k & Heq & Hlast & Hfull).
    { unfold window_start. lia. }
    { unfold window_start. lia. }
    change (window_start 0) with 0%nat in Heq. rewrite Nat.add_0_r in Heq.
    change (0 + k)%nat with k in Hlast.
    assert (Hcount : S k = chunk_count (length (str_split text))).
    { apply last_round_count; [exact Hn|exact Hlast|]. intros i Hi. apply Hfull. lia. }
    rewrite Heq. cbn [fst snd]. rewrite Hcount. reflexivity.
Qed.

Lemma build_chunks_length (doc : string) (segments : list segment) :
  forall drawn,
    length (fst (_build_chunks uuid4_hex doc segments drawn))
      = sum_list (List.map (fun seg => chunk_count (length (segment_words seg))) segments) /\
    snd (_build_chunks uuid4_hex doc segments drawn)
      = (drawn + length (fst (_build_chunks uuid4_hex doc segments drawn)))%nat.
Proof.
  induction segments as [|[[text page_num] section] rest IH]; intros drawn.
  - cbn. split; [reflexivity|lia].
  - rewrite build_chunks_cons, build_chunks_segment. cbn [fst snd].
    destruct (IH (drawn + chunk_count (length (str_split text)))%nat) as [Hlen Hdrawn].
    rewrite Hdrawn. rewrite length_app, length_map, length_seq, Hlen.
    split; [reflexivity|lia].
Qed.

(** X1. The number of chunks of a list of segments is the sum of the window
    counts of its segments, and one UUID is drawn per chunk. *)
Theorem build_chunks_count (doc : string) (segments : list segment) :
  forall drawn,
    length (fst (_build_chunks uuid4_hex doc segments drawn))
      = sum_list (List.map (fun seg => chunk_count (length (segment_words seg))) segments) /\
    snd (_build_chunks uuid4_hex doc segments drawn)
      = (drawn + length (fst (_build_chunks uuid4_hex doc segments drawn)))%nat.
Proof. exact (build_chunks_length doc segments). Qed.

(** The example of the specification: three segments of 300 words each
    give two chunks each. *)
Example chunk_count_examples :
  chunk_count 0 = 0%nat /\ chunk_count 250 = 1%nat /\ chunk_count 251 = 2%nat /\
  chunk_count 300 = 2%nat /\ chunk_count 450 = 2%nat /\ chunk_count 451 = 3%nat /\
  chunk_count 600 = 3%nat.
Proof. repeat split. Qed.

(** What a chunk of [segments] is: the window [i] of one of the
    segments, with the UUID of draw [j]. *)
Definition chunk_of (doc : string) (segments : list segment) (first_draw last_draw : nat)
    (c : pyval) : Prop :=
  exists text page_num section i j,
    In (text, page_num, section) segments /\
    (first_draw <= j < last_draw)%nat /\
    (window_start i < window_end (length (str_split text)) i)%nat /\
    (window_end (length (str_split text)) i - window_start i <= CHUNK_WORDS)%nat /\
    let words := slice (str_split text) (window_start i)
                   (window_end (length (str_split text)) i) in
    c = new_chunk uuid4_hex j doc (str_join " " words) page_num section (window_start i) /\
    str_split (str_join " " words) = words /\
    length words = (window_end (length (str_split text)) i - window_start i)%nat.

Lemma chunk_of_more (doc : string) (segs segs' : list segment) (a b a' b' : nat) (c : pyval) :
  (forall seg, In seg segs -> In seg segs') ->
  (a' <= a)%nat -> (b <= b')%nat ->
  chunk_of doc segs a b c -> chunk_of doc segs' a' b' c.
Proof.
  intros Hsub Ha Hb (text & page_num & section & i & j & Hin & Hj & H).
  exists text, page_num, section, i, j. split; [apply Hsub; exact Hin|]. split; [lia|exact H].
Qed.

Lemma window_below_count (n i : nat) :
  (i < chunk_count n)%nat -> (window_start i < window_end n i)%nat.
Proof.
  unfold chunk_count, window_end, window_start, CHUNK_WORDS, OVERLAP_WORDS.
  change (250 - 50 - 1)%nat with 199%nat. change (250 - 50)%nat with 200%nat.
  destruct (Nat.eqb_spec n 0); [lia|].
  destruct (Nat.leb_spec n 250); [lia|].
  pose proof (Nat.div_mod_eq (n - 250 + 199) 200) as Hdiv.
  pose proof (Nat.mod_upper_bound (n - 250 + 199) 200) as Hmod.
  intros Hi. nia.
Qed.

Lemma build_chunks_chunk_of (doc : string) (segments : list segment) :
  forall drawn,
    Forall (chunk_of doc segments drawn (snd (_build_chunks uuid4_hex doc segments drawn)))
      (fst (_build_chunks uuid4_hex doc segments drawn)).
Proof.
  induction segments as [|[[text page_num] section] rest IH]; intros drawn.
  - constructor.
  - rewrite build_chunks_cons, build_chunks_segment. cbn [fst snd].
    set (n := length (str_split text)).
    pose proof (build_chunks_length doc rest (drawn + chunk_count n)%nat) as [_ Hdrawn].
    apply List.Forall_app. split.
    + apply List.Forall_forall. intros c Hc. apply in_map_iff in Hc as (i & <- & Hi).
      apply in_seq in Hi.
      pose proof (window_below_count n i ltac:(lia)) as Hwin.
      exists text, page_num, section, i, (drawn + i)%nat.
      split; [left; reflexivity|]. split; [lia|]. split; [exact Hwin|].
      split; [unfold window_end; lia|]. cbv zeta. split; [reflexivity|]. split.
      * apply str_split_join, Forall_slice, str_split_words.
      * apply slice_length. unfold window_end. fold n. lia.
    + eapply Forall_impl; [apply IH|]. intros c Hc.
      eapply chunk_of_more; [| | |exact Hc]; [intros seg Hseg; right; exact Hseg|lia|lia].
Qed.

(** What the fields of a chunk of [segments] are: those of the window
    [i] of one of the segments, with the UUID of draw [j]. *)
Definition window_fields (doc : string) (segments : list segment) (first_draw last_draw : nat)
    (c : pyval) : Prop :=
  exists text page_num section i j,
    In (text, page_num, section) segments /\
    (first_draw <= j < last_draw)%nat /\
    (window_start i < window_end (length (str_split text)) i)%nat /\
    (window_end (length (str_split text)) i - window_start i <= CHUNK_WORDS)%nat /\
    let words := slice (str_split text) (window_start i)
                   (window_end (length (str_split text)) i) in
    chunk_field "chunk_id" c = Some (PStr (String.substring 0 8 (uuid4_hex j))) /\
    chunk_field "doc_id" c = Some (PStr doc) /\
    chunk_field "text" c = Some (PStr (str_join " " words)) /\
    chunk_field "page_num" c = Some (py_opt_int page_num) /\
    chunk_field "section" c = Some (py_opt_str section) /\
    chunk_field "word_start" c = Some (PInt (Z.of_nat (window_start i))) /\
    str_split (str_join " " words) = words /\
    length words = (window_end (length (str_split text)) i - window_start i)%nat.

(** X2. Every chunk [_build_chunks] returns is a window of one of the
    segments: its [doc_id] is the one passed in, its [page_num] and
    [section] are that segment's, its [word_start] is the start of the
    window, a multiple of the step, its [text] is the words of the
    window joined by single spaces and splits back into them, between
    1 and [CHUNK_WORDS] words, and its [chunk_id] comes from a UUID
    drawn during the call. *)
Theorem build_chunks_windows (doc : string) (segments : list segment) :
  forall drawn,
    Forall (window_fields doc segments drawn (snd (_build_chunks uuid4_hex doc segments drawn)))
      (fst (_build_chunks uuid4_hex doc segments drawn)).
Proof.
  intros drawn. eapply Forall_impl; [apply build_chunks_chunk_of|].
  intros c (text & page_num & section & i & j & Hin & Hj & Hwin & Hsize & H).
  cbv zeta in H. destruct H as (-> & Hsplit & Hlen).
  exists text, page_num, section, i, j.
  split; [exact Hin|]. split; [exact Hj|]. split; [exact Hwin|]. split; [exact Hsize|].
  cbv zeta. repeat split; assumption.
Qed.

End ChunkStructure.

Section ChunkIds.

Variable uuid4_hex : nat -> string.

(** The chunk id made of draw [j]. *)
Definition drawn_id (j : nat) : option pyval :=
  Some (PStr (String.substring 0 8 (uuid4_hex j))).

Lemma window_chunk_ids (doc : string) (words : list string) (page_num : option Z)
    (section : option string) (drawn : nat) (m : nat) :
  forall first,
    List.map (chunk_field "chunk_id")
      (List.map (window_chunk uuid4_hex doc words page_num section drawn) (seq first m))
    = List.map drawn_id (seq (drawn + first) m).
Proof.
  induction m as [|m IH]; intros first; [reflexivity|].
  cbn [seq List.map]. rewrite IH.
  replace (drawn + S first)%nat with (S (drawn + first)) by lia. reflexivity.
Qed.

(** X3. The chunks take the UUIDs in the order they are drawn, one each: the
    [k]-th chunk has the first 8 characters of draw [drawn + k]. So the
    chunk ids are pairwise distinct exactly when those prefixes are. *)
Theorem build_chunks_ids (doc : string) (segments : list segment) :
  forall drawn,
    let chunks := fst (_build_chunks uuid4_hex doc segments drawn) in
    List.map (chunk_field "chunk_id") chunks = List.map drawn_id (seq drawn (length chunks)) /\
    (List.NoDup (List.map (chunk_field "chunk_id") chunks) <->
     List.NoDup
       (List.map (fun j => String.substring 0 8 (uuid4_hex j)) (seq drawn (length chunks)))).
Proof.
  assert (Hmap : forall drawn,
            List.map (chunk_field "chunk_id") (fst (_build_chunks uuid4_hex doc segments drawn))
            = List.map drawn_id
                (seq drawn (length (fst (_build_chunks uuid4_hex doc segments drawn))))).
  { induction segments as [|[[text page_num] section] rest IH]; intros drawn; [reflexivity|].
    rewrite build_chunks_cons, build_chunks_segment. cbn [fst snd].
    rewrite List.map_app, window_chunk_ids, IH, Nat.add_0_r.
    rewrite length_app, length_map, length_seq, seq_app, List.map_app. reflexivity. }
  intros drawn chunks. split; [apply Hmap|].
  unfold chunks. rewrite Hmap.
  set (js := seq drawn _). clearbody js.
  assert (Hinj : List.map drawn_id js
                 = List.map (fun s => Some (PStr s))
                     (List.map (fun j => String.substring 0 8 (uuid4_hex j)) js)).
  { rewrite List.map_map. reflexivity. }
  rewrite Hinj. split.
  - apply List.NoDup_map_inv.
  - apply Finite.Injective_map_NoDup. intros a b [= ->]. reflexivity.
Qed.

End ChunkIds.

(** ** retriever.py: ties, bounds and what a result keeps *)

Lemma dict_get_set_same (k : string) (v : pyval) (d : list (string * pyval)) :
  dict_get k (dict_set k v d) = Some v.
Proof.
  induction d as [|[k' v'] d IH]; cbn [dict_set dict_get].
  - rewrite String.eqb_refl. reflexivity.
  - destruct (String.eqb k k') eqn:Hk; cbn [dict_get]; rewrite ?String.eqb_refl, ?Hk; auto.
Qed.

Lemma dict_get_set_other (k k' : string) (v : pyval) (d : list (string * pyval)) :
  k <> k' -> dict_get k' (dict_set k v d) = dict_get k' d.
Proof.
  intros Hne. induction d as [|[k0 v0] d IH]; cbn [dict_set dict_get].
  - destruct (String.eqb_spec k' k); [congruence|reflexivity].
  - destruct (String.eqb_spec k k0) as [->|Hk0]; cbn [dict_get].
    + destruct (String.eqb_spec k' k0); [congruence|reflexivity].
    + rewrite IH. reflexivity.
Qed.

Lemma py_sorted_no_order {A : Type} (lt : A -> A -> bool) (l : list A) :
  (forall x y, In x l -> In y l -> lt x y = false) -> py_sorted lt l = l.
Proof.
  induction l as [|x l IH]; intros H; [reflexivity|].
  cbn [py_sorted List.fold_right]. fold (py_sorted lt l).
  rewrite IH by (intros a b Ha Hb; apply H; right; assumption).
  destruct l as [|y l]; [reflexivity|]. cbn [insert_sorted].
  rewrite (H y x); [reflexivity|right; left; reflexivity|left; reflexivity].
Qed.

(** Where no element is below another, [sorted(..., reverse=True)]
    leaves the list as it is. *)
Lemma py_sorted_reverse_no_order {A : Type} (lt : A -> A -> bool) (l : list A) :
  (forall x y, In x l -> In y l -> lt x y = false) -> py_sorted_reverse lt l = l.
Proof.
  intros H. unfold py_sorted_reverse. rewrite py_sorted_no_order.
  - apply rev_involutive.
  - intros x y Hx Hy. apply H; apply in_rev; assumption.
Qed.

Lemma py_zip_In_snd {A B : Type} (a : list A) (b : list B) (p : A * B) :
  In p (py_zip a b) -> In (fst p) a /\ In (snd p) b.
Proof.
  revert b. induction a as [|x a IH]; intros [|y b]; cbn [py_zip In]; try tauto.
  intros [<-|Hin]; [split; left; reflexivity|].
  destruct (IH b Hin). split; right; assumption.
Qed.

Lemma result_mapM_length {A B : Type} (f : A -> result B) (l : list A) (l' : list B) :
  result_mapM f l = Ok l' -> length l' = length l.
Proof.
  intros H. apply result_mapM_Forall2 in H. symmetry. eapply Forall2_length. exact H.
Qed.

Lemma slice_to_In {A : Type} (l : list A) (k : Z) (x : A) : In x (slice_to l k) -> In x l.
Proof.
  unfold slice_to. destruct (0 <=? k); intros H;
    match type of H with In _ (take ?n _) => rewrite <- (take_drop n l) end;
    apply in_or_app; left; exact H.
Qed.

Lemma slice_to_length {A : Type} (l : list A) (k : Z) :
  length (slice_to l k)
    = if 0 <=? k then Nat.min (Z.to_nat k) (length l) else (length l - Z.to_nat (- k))%nat.
Proof.
  unfold slice_to. destruct (0 <=? k); rewrite length_take; lia.
Qed.

Section RetrieveFacts.

Context {bm25 : Type}.
Variable BM25Okapi : list (list string) -> result bm25.
Variable get_scores : bm25 -> list string -> list float.

(** On a loaded index [retrieve] returns: the ranking cut by
    [scored[:top_k]], every pair given its score. *)
Lemma retrieve_loaded (doc question : string) (top_k : Z) (w : world)
    (chunks : list pyval) (index : bm25) :
  load_index BM25Okapi doc w = Ok (PList chunks, index) ->
  exists results,
    retrieve BM25Okapi get_scores doc question top_k w = Ok results /\
    Forall2 (fun cs r => exists d, fst cs = PDict d /\
                         r = PDict (dict_set "score" (PFloat (round4 (snd cs))) d))
      (slice_to (py_sorted_reverse score_lt
                   (py_zip chunks (get_scores index (_tokenize question)))) top_k)
      results.
Proof.
  intros Hload.
  set (scored := py_zip chunks (get_scores index (_tokenize question))).
  assert (Hdict : Forall (fun cs => exists d, fst cs = PDict d)
                    (slice_to (py_sorted_reverse score_lt scored) top_k)).
  { apply List.Forall_forall. intros cs Hcs. apply slice_to_In in Hcs.
    apply (Permutation_in _ (py_sorted_reverse_perm score_lt scored)) in Hcs.
    pose proof (py_zip_fst_Forall (fun c => exists d, c = PDict d) chunks
                  (get_scores index (_tokenize question))
                  (load_index_dicts BM25Okapi doc w chunks index Hload)) as Hall.
    rewrite List.Forall_forall in Hall. apply Hall. exact Hcs. }
  destruct (with_score_all _ Hdict) as (results & Hres & Hall).
  exists results. split; [|exact Hall].
  unfold retrieve. rewrite Hload. cbn [mbind result_mbind result_bind fst snd py_iter].
  exact Hres.
Qed.

(** X4. The number of results: [min(top_k, n)] for [top_k >= 0], and
    [max(n + top_k, 0)] for a negative [top_k], which drops the last
    [-top_k] of the ranking instead of being refused; [n] is the number
    of chunks that have a score. *)
Theorem retrieve_length (doc question : string) (top_k : Z) (w : world)
    (chunks : list pyval) (index : bm25) :
  load_index BM25Okapi doc w = Ok (PList chunks, index) ->
  exists results,
    retrieve BM25Okapi get_scores doc question top_k w = Ok results /\
    let n := Nat.min (length chunks) (length (get_scores index (_tokenize question))) in
    length results
      = if 0 <=? top_k then Nat.min (Z.to_nat top_k) n else (n - Z.to_nat (- top_k))%nat.
Proof.
  intros Hload.
  destruct (retrieve_loaded doc question top_k w chunks index Hload) as (results & Hret & Hall).
  exists results. split; [exact Hret|]. cbv zeta.
  rewrite <- (Forall2_length _ _ _ Hall), slice_to_length.
  rewrite (Permutation_length (py_sorted_reverse_perm score_lt _)), py_zip_length.
  reflexivity.
Qed.

(** X5. Every result is a chunk of the index with one more key: its
    fields are those stored, and [score] is [round(s, 4)] for the score
    [s] at the position of that chunk: the binary64 number nearest to
    the decimal with four digits after the point that is nearest to
    [s]. *)
Theorem retrieve_keeps_fields (doc question : string) (top_k : Z) (w : world)
    (chunks : list pyval) (index : bm25) :
  load_index BM25Okapi doc w = Ok (PList chunks, index) ->
  exists results,
    retrieve BM25Okapi get_scores doc question top_k w = Ok results /\
    forall r, In r results ->
      exists (i : nat) c s,
        chunks !! i = Some c /\
        get_scores index (_tokenize question) !! i = Some s /\
        chunk_field "score" r = Some (PFloat (round4 s)) /\
        rounded4 s (round4 s) /\
        (forall k, k <> "score" -> chunk_field k r = chunk_field k c).
Proof.
  intros Hload.
  destruct (retrieve_loaded doc question top_k w chunks index Hload) as (results & Hret & Hall).
  exists results. split; [exact Hret|]. intros r Hr.
  assert (Hsrc : exists cs,
            In cs (slice_to (py_sorted_reverse score_lt
                     (py_zip chunks (get_scores index (_tokenize question)))) top_k) /\
            exists d, fst cs = PDict d /\
                      r = PDict (dict_set "score" (PFloat (round4 (snd cs))) d)).
  { clear - Hall Hr. induction Hall as [|cs r' l l' Hhead _ IH]; [destruct Hr|].
    destruct Hr as [<-|Hr].
    - exists cs. split; [left; reflexivity|exact Hhead].
    - destruct (IH Hr) as (cs' & Hin & H). exists cs'. split; [right; exact Hin|exact H]. }
  destruct Hsrc as ([c s] & Hin & d & Hd & ->). cbn [fst snd] in *. subst c.
  apply slice_to_In in Hin.
  apply (Permutation_in _ (py_sorted_reverse_perm score_lt _)) in Hin.
  apply py_zip_In_lookup in Hin as (i & Hc & Hs). cbn [fst snd] in *.
  exists i, (PDict d), s. split; [exact Hc|]. split; [exact Hs|].
  cbn [chunk_field]. split; [apply dict_get_set_same|].
  split; [apply round4_rounded4|].
  intros k Hk. apply dict_get_set_other. congruence.
Qed.

(** X6. When no score is below another (all equal, as for a question
    without tokens that scores every chunk zero), the ranking is the
    index order: [retrieve] returns the first [top_k] chunks of the
    index, each with its score. *)
Theorem retrieve_all_ties (doc question : string) (top_k : Z) (w : world)
    (chunks : list pyval) (index : bm25) :
  load_index BM25Okapi doc w = Ok (PList chunks, index) ->
  (forall a b,
     In a (get_scores index (_tokenize question)) ->
     In b (get_scores index (_tokenize question)) ->
     PrimFloat.ltb a b = false) ->
  0 <= top_k ->
  exists results,
    retrieve BM25Okapi get_scores doc question top_k w = Ok results /\
    Forall2 (fun cs r => exists d, fst cs = PDict d /\
                         r = PDict (dict_set "score" (PFloat (round4 (snd cs))) d))
      (take (Z.to_nat top_k) (py_zip chunks (get_scores index (_tokenize question))))
      results.
Proof.
  intros Hload Hties Hk.
  destruct (retrieve_loaded doc question top_k w chunks index Hload) as (results & Hret & Hall).
  exists results. split; [exact Hret|].
  rewrite py_sorted_reverse_no_order in Hall.
  - unfold slice_to in Hall. destruct (Z.leb_spec 0 top_k); [exact Hall|lia].
  - intros x y Hx Hy. unfold score_lt.
    apply py_zip_In_snd in Hx as [_ Hx]. apply py_zip_In_snd in Hy as [_ Hy].
    apply Hties; assumption.
Qed.

End RetrieveFacts.

Lemma retrieve_length_witness :
  exists results,
    retrieve demo_BM25Okapi demo_get_scores demo_doc "BETA" (-1) demo_world = Ok results /\
    let n := Nat.min (length demo_chunks)
               (length (demo_get_scores demo_index (_tokenize "BETA"))) in
    length results
      = if 0 <=? -1 then Nat.min (Z.to_nat (-1)) n else (n - Z.to_nat (- -1))%nat.
Proof.
  apply (retrieve_length demo_BM25Okapi demo_get_scores demo_doc "BETA" (-1) demo_world
           demo_chunks demo_index).
  vm_compute. reflexivity.
Defined.

Lemma retrieve_keeps_fields_witness :
  exists results,
    retrieve demo_BM25Okapi demo_get_scores demo_doc "BETA" 2 demo_world = Ok results /\
    forall r, In r results ->
      exists (i : nat) c s,
        demo_chunks !! i = Some c /\
        demo_get_scores demo_index (_tokenize "BETA") !! i = Some s /\
        chunk_field "score" r = Some (PFloat (round4 s)) /\
        rounded4 s (round4 s) /\
        (forall k, k <> "score" -> chunk_field k r = chunk_field k c).
Proof.
  apply (retrieve_keeps_fields demo_BM25Okapi demo_get_scores demo_doc "BETA" 2 demo_world
           demo_chunks demo_index).
  vm_compute. reflexivity.
Defined.

Lemma retrieve_all_ties_witness :
  exists results,
    retrieve demo_BM25Okapi demo_get_scores demo_doc "?!" 2 demo_world = Ok results /\
    Forall2 (fun cs r => exists d, fst cs = PDict d /\
                         r = PDict (dict_set "score" (PFloat (round4 (snd cs))) d))
      (take (Z.to_nat 2) (py_zip demo_chunks (demo_get_scores demo_index (_tokenize "?!"))))
      results.
Proof.
  apply (retrieve_all_ties demo_BM25Okapi demo_get_scores demo_doc "?!" 2 demo_world
           demo_chunks demo_index).
  - vm_compute. reflexivity.
  - intros a b Ha Hb.
    assert (Hzero : forall x, In x (demo_get_scores demo_index (_tokenize "?!")) ->
                    x = PrimFloat.zero).
    { intros x Hx. vm_compute in Hx. destruct Hx as [<-|[<-|[<-|[]]]]; reflexivity. }
    rewrite (Hzero a Ha), (Hzero b Hb). reflexivity.
  - lia.
Defined.

(** ** composer.py: where [_parse_json] looks for the JSON *)

(** [c] does not occur in [s]. *)
Fixpoint without_char (c : ascii) (s : string) : bool :=
  match s with
  | EmptyString => true
  | String x s' => negb (Ascii.eqb c x) && without_char c s'
  end.

Lemma strip_prefix_app (p r : string) : strip_prefix p (p +:+ r) = Some r.
Proof.
  induction p as [|a p IH]; cbn [String.append strip_prefix]; [reflexivity|].
  rewrite Ascii.eqb_refl. exact IH.
Qed.

(** A separator is found right after a text that lacks its first
    character. *)
Lemma str_find_first (c : ascii) (sep' pre r : string) :
  without_char c pre = true ->
  str_find (String c sep') (pre +:+ String c sep' +:+ r) = Some (pre, r).
Proof.
  intros Hpre. induction pre as [|x pre IH].
  - change ("" +:+ String c sep' +:+ r) with (String c sep' +:+ r).
    assert (Hp := strip_prefix_app (String c sep') r).
    destruct (String c sep' +:+ r) eqn:Heq; [discriminate|].
    cbn [str_find]. rewrite Hp. reflexivity.
  - cbn [without_char] in Hpre. apply andb_true_iff in Hpre as [Hx Hpre].
    apply negb_true_iff in Hx.
    change (String x pre +:+ String c sep' +:+ r)
      with (String x (pre +:+ String c sep' +:+ r)).
    cbn [str_find strip_prefix]. rewrite Hx, (IH Hpre). reflexivity.
Qed.

Lemma str_find_absent (c : ascii) (sep' s : string) :
  without_char c s = true -> str_find (String c sep') s = None.
Proof.
  induction s as [|x s IH]; intros H; [reflexivity|].
  cbn [without_char] in H. apply andb_true_iff in H as [Hx Hs].
  apply negb_true_iff in Hx.
  cbn [str_find strip_prefix]. rewrite Hx, (IH Hs). reflexivity.
Qed.

Lemma without_char_app (c : ascii) (a b : string) :
  without_char c (a +:+ b) = without_char c a && without_char c b.
Proof.
  induction a as [|x a IH]; cbn [String.append without_char]; [reflexivity|].
  rewrite IH. apply andb_assoc.
Qed.

(** X7. A reply with a fence marked [json]: whatever stands before the
    fence and after its end is dropped, and the text inside is parsed;
    the closing fence may be missing. Before the fence and inside it
    there is no back quote. *)
Theorem parse_json_json_fence (pre body post : string) :
  without_char "`" pre = true ->
  without_char "`" body = true ->
  _parse_json (pre +:+ "```json" +:+ body +:+ "```" +:+ post) = json_loads (str_strip body) /\
  _parse_json (pre +:+ "```json" +:+ body) = json_loads (str_strip body).
Proof.
  intros Hpre Hbody. unfold _parse_json, str_contains, split1_snd, split1_fst. split.
  - rewrite (str_find_first "`" "``json" pre (body +:+ "```" +:+ post) Hpre).
    cbn [mbind result_mbind result_bind].
    rewrite (str_find_first "`" "``" body post Hbody). reflexivity.
  - rewrite (str_find_first "`" "``json" pre body Hpre).
    cbn [mbind result_mbind result_bind].
    rewrite (str_find_absent "`" "``" body Hbody). reflexivity.
Qed.

Lemma parse_json_json_fence_witness :
  _parse_json ("Here it is: " +:+ "```json" +:+ qq " {`found`: true} " +:+ "```" +:+ " Done.")
    = json_loads (str_strip (qq " {`found`: true} ")) /\
  _parse_json ("Here it is: " +:+ "```json" +:+ qq " {`found`: true} ")
    = json_loads (str_strip (qq " {`found`: true} ")).
Proof.
  apply (parse_json_json_fence "Here it is: " (qq " {`found`: true} ") " Done."); reflexivity.
Defined.

(** X8. A reply without the [json] marker: with a plain fence, the text
    between the first two fences is parsed; without any back quote, the
    whole reply is. *)
Theorem parse_json_plain_fence (pre body post : string) :
  without_char "`" pre = true ->
  without_char "`" body = true ->
  str_contains "```json" (pre +:+ "```" +:+ body +:+ "```" +:+ post) = false ->
  _parse_json (pre +:+ "```" +:+ body +:+ "```" +:+ post) = json_loads (str_strip body) /\
  _parse_json pre = json_loads (str_strip pre).
Proof.
  intros Hpre Hbody Hjson. unfold _parse_json. rewrite Hjson. split.
  - unfold str_contains, split1_snd, split1_fst.
    rewrite (str_find_first "`" "``" pre (body +:+ "```" +:+ post) Hpre).
    cbn [mbind result_mbind result_bind].
    rewrite (str_find_first "`" "``" body post Hbody). reflexivity.
  - unfold str_contains.
    rewrite (str_find_absent "`" "``json" pre Hpre), (str_find_absent "`" "``" pre Hpre).
    reflexivity.
Qed.

Lemma parse_json_plain_fence_witness :
  _parse_json ("Answer:" +:+ "```" +:+ "[1, 2]" +:+ "```" +:+ "")
    = json_loads (str_strip "[1, 2]") /\
  _parse_json "Answer:" = json_loads (str_strip "Answer:").
Proof.
  apply (parse_json_plain_fence "Answer:" "[1, 2]" ""); reflexivity.
Defined.

(** ** composer.py: the location label, and the chunks a message can be
    built from *)

(** The four forms of the label, by the truth values of [page_num] and
    [section]. *)
Definition loc_label (d : list (string * pyval)) : string :=
  let page := opt_or (dict_get "page_num" d) PNone in
  let sec := opt_or (dict_get "section" d) PNone in
  match py_truth page, py_truth sec with
  | true, true => "Page " +:+ py_str page +:+ " | Section: " +:+ py_str sec
  | true, false => "Page " +:+ py_str page
  | false, true => "Section: " +:+ py_str sec
  | false, false => "Location unknown"
  end.

Lemma py_item_dict (d : list (string * pyval)) (k : string) (v : pyval) :
  py_truth (opt_or (dict_get k d) PNone) = true ->
  py_item (PDict d) k = Ok (opt_or (dict_get k d) PNone).
Proof.
  cbn [py_item]. destruct (dict_get k d); [reflexivity|discriminate].
Qed.

Lemma passage_loc_dict (d : list (string * pyval)) :
  passage_loc (PDict d) = Ok (loc_label d).
Proof.
  unfold passage_loc, loc_label. rewrite !py_get_dict.
  cbn [mbind result_mbind result_bind].
  destruct (py_truth (opt_or (dict_get "page_num" d) PNone)) eqn:Hpage;
    destruct (py_truth (opt_or (dict_get "section" d) PNone)) eqn:Hsec;
    rewrite ?(py_item_dict d "page_num" PNone Hpage), ?(py_item_dict d "section" PNone Hsec);
    reflexivity.
Qed.

(** X9. A dict chunk always gets a label, one of four forms, and
    [Location unknown] exactly when [page_num] and [section] are both
    missing or falsy; anything that is not a dict has no [get]. *)
Theorem passage_loc_label (d : list (string * pyval)) :
  passage_loc (PDict d) = Ok (loc_label d) /\
  (loc_label d = "Location unknown" <->
   py_truth (opt_or (dict_get "page_num" d) PNone) = false /\
   py_truth (opt_or (dict_get "section" d) PNone) = false) /\
  (forall c, (forall d', c <> PDict d') -> passage_loc c = Raise AttributeError).
Proof.
  split; [apply passage_loc_dict|]. split.
  - unfold loc_label.
    destruct (py_truth (opt_or (dict_get "page_num" d) PNone));
      destruct (py_truth (opt_or (dict_get "section" d) PNone));
      cbn [String.append]; split; try discriminate; try tauto;
      intros [? ?]; discriminate.
  - intros c Hc. destruct c; try reflexivity. destruct (Hc d0 eq_refl).
Qed.

(** What the loop of [_build_user_message] raises on a chunk, if
    anything: [chunk.get] needs a dict, the f-string needs the keys
    [chunk_id] and [text], in this order. *)
Definition chunk_error (c : pyval) : option exn :=
  match c with
  | PDict d =>
      match dict_get "chunk_id" d with
      | None => Some (KeyError "chunk_id")
      | Some _ =>
          match dict_get "text" d with
          | None => Some (KeyError "text")
          | Some _ => None
          end
      end
  | _ => Some AttributeError
  end.

Lemma passage_error (i : nat) (c : pyval) (e : exn) :
  chunk_error c = Some e -> passage i c = Raise e.
Proof.
  unfold passage. destruct c; cbn [chunk_error]; try (intros [= <-]; reflexivity).
  rewrite passage_loc_dict. cbn [mbind result_mbind result_bind py_item].
  destruct (dict_get "chunk_id" d); [|intros [= <-]; reflexivity].
  cbn [mbind result_mbind result_bind].
  destruct (dict_get "text" d); [discriminate|intros [= <-]; reflexivity].
Qed.

Lemma passage_ok (i : nat) (c : pyval) :
  chunk_error c = None -> exists p, passage i c = Ok p.
Proof.
  unfold passage. destruct c; cbn [chunk_error]; try discriminate.
  rewrite passage_loc_dict. cbn [mbind result_mbind result_bind py_item].
  destruct (dict_get "chunk_id" d); [|discriminate].
  destruct (dict_get "text" d); [|discriminate].
  intros _. eexists. reflexivity.
Qed.

Lemma passages_from_ok (chunks : list pyval) :
  Forall (fun c => chunk_error c = None) chunks ->
  forall i, exists ps, passages_from i chunks = Ok ps.
Proof.
  induction 1 as [|c chunks Hc _ IH]; intros i; cbn [passages_from].
  - eexists. reflexivity.
  - destruct (passage_ok i c Hc) as [p ->]. destruct (IH (S i)) as [ps ->].
    eexists. reflexivity.
Qed.

Lemma passages_from_error (before after : list pyval) (c : pyval) (e : exn) :
  Forall (fun c => chunk_error c = None) before ->
  chunk_error c = Some e ->
  forall i, passages_from i (before ++ c :: after) = Raise e.
Proof.
  intros Hbefore Hc. induction Hbefore as [|b before Hb _ IH]; intros i.
  - cbn [app passages_from]. rewrite (passage_error i c e Hc). reflexivity.
  - cbn [app passages_from]. destruct (passage_ok i b Hb) as [p ->].
    cbn [mbind result_mbind result_bind]. rewrite IH. reflexivity.
Qed.

Lemma passages_from_Ok_inv (chunks : list pyval) :
  forall i ps, passages_from i chunks = Ok ps ->
  Forall (fun c => chunk_error c = None) chunks.
Proof.
  induction chunks as [|c chunks IH]; intros i ps H; [constructor|].
  cbn [passages_from] in H. bind_inv H. bind_inv H.
  constructor; [|eapply IH; eassumption].
  destruct (chunk_error c) as [e|] eqn:He; [|reflexivity].
  rewrite (passage_error i c e He) in Hx. discriminate.
Qed.

(** X10. [_build_user_message] returns a message exactly when every chunk is
    a dict with the keys [chunk_id] and [text]; the question and the
    other keys play no part. *)
Theorem build_user_message_succeeds (q : string) (chunks : list pyval) :
  (exists msg, _build_user_message q chunks = Ok msg) <->
  Forall (fun c => chunk_error c = None) chunks.
Proof.
  unfold _build_user_message. split.
  - intros [msg H]. bind_inv H. eapply passages_from_Ok_inv; eassumption.
  - intros H. destruct (passages_from_ok chunks H 1) as [ps ->].
    eexists. reflexivity.
Qed.

(** X11. The first chunk that cannot be rendered decides the exception:
    [AttributeError] when it is not a dict, [KeyError] for the first of
    [chunk_id], [text] it lacks. [compose_answer] raises the same
    without looking at what the backend would reply. *)
Theorem build_user_message_first_error
    (q : string) (before after : list pyval) (c : pyval) (e : exn) :
  Forall (fun c => chunk_error c = None) before ->
  chunk_error c = Some e ->
  _build_user_message q (before ++ c :: after) = Raise e /\
  forall messages_create d,
    compose_answer messages_create q (before ++ c :: after) d = Raise e.
Proof.
  intros Hbefore Hc.
  assert (H : _build_user_message q (before ++ c :: after) = Raise e).
  { unfold _build_user_message.
    rewrite (passages_from_error before after c e Hbefore Hc). reflexivity. }
  split; [exact H|]. intros mc d. unfold compose_answer. rewrite H. reflexivity.
Qed.

Lemma build_user_message_first_error_witness :
  _build_user_message "Where?" ([demo_chunk] ++ PDict [("chunk_id", PStr "x")] :: [PNone])
    = Raise (KeyError "text") /\
  forall messages_create d,
    compose_answer messages_create "Where?"
      ([demo_chunk] ++ PDict [("chunk_id", PStr "x")] :: [PNone]) d = Raise (KeyError "text").
Proof.
  apply (build_user_message_first_error "Where?" [demo_chunk]
           [PNone] (PDict [("chunk_id", PStr "x")]) (KeyError "text")).
  - repeat constructor.
  - reflexivity.
Defined.

(** ** composer.py: failures of the backend *)

(** X12. With a message built, an exception of the client call propagates,
    and a response without content blocks raises [IndexError]; there is
    no retry and no default result. *)
Theorem compose_answer_backend_failure
    (messages_create : string -> Z -> string -> list (string * string) -> result (list string))
    (q : string) (chunks : list pyval) (d msg : string) :
  _build_user_message q chunks = Ok msg ->
  match backend_reply messages_create msg with
  | Raise e => compose_answer messages_create q chunks d = Raise e
  | Ok [] => compose_answer messages_create q chunks d = Raise IndexError
  | Ok (first :: _) =>
      forall e, _parse_json (str_strip first) = Raise e ->
                compose_answer messages_create q chunks d = Raise e
  end.
Proof.
  intros Hmsg. unfold compose_answer, backend_reply. rewrite Hmsg.
  cbn [mbind result_mbind result_bind].
  destruct (messages_create _ _ _ _) as [[|first rest]|e]; cbn [mbind result_mbind result_bind];
    try reflexivity.
  intros e ->. reflexivity.
Qed.

Definition demo_message : string :=
  Eval vm_compute in
    match _build_user_message "Where?" [demo_chunk] with Ok msg => msg | Raise _ => "" end.

Lemma compose_answer_backend_failure_witness :
  compose_answer (fun _ _ _ _ => Raise APIError) "Where?" [demo_chunk] "0f3a9c1d2b4e"
    = Raise APIError /\
  compose_answer (fun _ _ _ _ => Ok []) "Where?" [demo_chunk] "0f3a9c1d2b4e"
    = Raise IndexError.
Proof.
  split.
  - apply (compose_answer_backend_failure (fun _ _ _ _ => Raise APIError)
             "Where?" [demo_chunk] "0f3a9c1d2b4e" demo_message).
    vm_compute; reflexivity.
  - apply (compose_answer_backend_failure (fun _ _ _ _ => Ok [])
             "Where?" [demo_chunk] "0f3a9c1d2b4e" demo_message).
    vm_compute; reflexivity.
Defined.

(** ** composer.py: [fallback] when the reply has a [found] key *)

Definition spain_message : string :=
  Eval vm_compute in
    match _build_user_message "What is the capital of Spain?" [demo_chunk] with
    | Ok msg => msg
    | Raise _ => ""
    end.

Lemma compose_answer_found_present_witness :
  PBool false = PBool false /\ true = negb (py_truth (PBool false)).
Proof.
  apply (compose_answer_found_present
           (reply_with (qq "{`found`: false, `answer`: `I can't find this in the document.`}"))
           "What is the capital of Spain?" [demo_chunk] "0f3a9c1d2b4e"
           {| question := "What is the capital of Spain?";
              doc_id := "0f3a9c1d2b4e";
              found := PBool false;
              answer := PStr "I can't find this in the document.";
              citations := PList [];
              retrieved_chunk_ids := [PStr "ab12cd34"];
              fallback := true |}
           spain_message
           (qq "{`found`: false, `answer`: `I can't find this in the document.`}") []
           [("found", PBool false); ("answer", PStr "I can't find this in the document.")]
           (PBool false)).
  - vm_compute; reflexivity.
  - vm_compute; reflexivity.
  - reflexivity.
  - vm_compute; reflexivity.
  - reflexivity.
Defined.

(** ** indexer.py and retriever.py: one document among others *)

Lemma append_inj_l (p a b : string) : p +:+ a = p +:+ b -> a = b.
Proof.
  induction p as [|c p IH]; cbn [String.append]; [tauto|].
  intros [= H]. exact (IH H).
Qed.

Lemma append_inj_r (s : string) : forall a b, a +:+ s = b +:+ s -> a = b.
Proof.
  induction a as [|x a IH]; intros [|y b] H.
  - reflexivity.
  - apply (f_equal String.length) in H. cbn [String.append String.length] in H.
    rewrite append_length in H. lia.
  - apply (f_equal String.length) in H. cbn [String.append String.length] in H.
    rewrite append_length in H. lia.
  - cbn [String.append] in H. injection H as -> H. rewrite (IH b H). reflexivity.
Qed.

Lemma split_slash_plain (s : string) : without_char "/" s = true -> split_slash s = [s].
Proof.
  induction s as [|c s IH]; [reflexivity|].
  cbn [without_char split_slash]. intros H. apply andb_true_iff in H as [Hc Hs].
  apply negb_true_iff in Hc. rewrite Hc, (IH Hs). reflexivity.
Qed.

Lemma path_root_plain (s : string) :
  without_char "/" s = true -> s <> EmptyString -> path_root s = EmptyString.
Proof.
  destruct s as [|c s]; [congruence|]. cbn [without_char]. intros H _.
  apply andb_true_iff in H as [Hc _]. apply negb_true_iff in Hc.
  unfold path_root. cbn [strip_prefix]. rewrite Hc. reflexivity.
Qed.

(** For a doc_id without a slash the index file is the file of that
    name in the index directory. *)
Lemma index_path_plain (doc : string) :
  without_char "/" doc = true ->
  index_path doc = INDEX_DIR +:+ "/" +:+ doc +:+ "_chunks.json".
Proof.
  intros Hdoc. unfold index_path, path_join.
  assert (Hname : without_char "/" (doc +:+ "_chunks.json") = true).
  { rewrite without_char_app, Hdoc. reflexivity. }
  assert (Hlen : String.length (doc +:+ "_chunks.json") = (String.length doc + 12)%nat).
  { rewrite append_length. reflexivity. }
  assert (Hne : doc +:+ "_chunks.json" <> EmptyString).
  { intros H. rewrite H in Hlen. cbn [String.length] in Hlen. lia. }
  assert (Hdot : doc +:+ "_chunks.json" <> ".").
  { intros H. rewrite H in Hlen. cbn [String.length] in Hlen. lia. }
  rewrite (path_root_plain _ Hname Hne).
  unfold path_parts at 2. rewrite (split_slash_plain _ Hname). cbn [List.filter].
  apply String.eqb_neq in Hne, Hdot. rewrite Hne, Hdot. cbn [negb andb].
  reflexivity.
Qed.

(** Two doc_ids without a slash have the same index file only when
    they are equal. *)
Lemma index_path_plain_inj (a b : string) :
  without_char "/" a = true -> without_char "/" b = true ->
  index_path a = index_path b -> a = b.
Proof.
  intros Ha Hb H. rewrite (index_path_plain a Ha), (index_path_plain b Hb) in H.
  apply append_inj_l in H. apply append_inj_l in H. apply append_inj_r in H. exact H.
Qed.

(** A doc_id with a slash can name the file of another one, or a file
    outside the index directory. *)
Example index_path_not_plain :
  index_path "./0f3a9c1d2b4e" = index_path "0f3a9c1d2b4e" /\
  index_path "a//b" = ".doc_qa_index/a/b_chunks.json" /\
  index_path "/tmp/x" = "/tmp/x_chunks.json".
Proof. repeat split. Qed.

Lemma build_chunks_all (uuid4_hex : nat -> string) (P : pyval -> Prop) (doc : string) :
  (forall drawn text page_num section start,
      P (new_chunk uuid4_hex drawn doc text page_num section start)) ->
  forall segments drawn, Forall P (fst (_build_chunks uuid4_hex doc segments drawn)).
Proof.
  intros HP. induction segments as [|[[text page_num] section] rest IH]; intros drawn.
  - constructor.
  - rewrite build_chunks_cons, build_chunks_segment. cbn [fst snd].
    apply List.Forall_app. split; [|apply IH].
    apply List.Forall_forall. intros c Hc. apply in_map_iff in Hc as (i & <- & _).
    apply HP.
Qed.

Lemma Forall2_In_r {A B : Type} (R : A -> B -> Prop) (l : list A) (l' : list B) (y : B) :
  Forall2 R l l' -> In y l' -> exists x, In x l /\ R x y.
Proof.
  induction 1 as [|a b l l' Hab _ IH]; intros Hy; [destruct Hy|].
  destruct Hy as [<-|Hy].
  - exists a. split; [left; reflexivity|exact Hab].
  - destruct (IH Hy) as (x & Hx & HR). exists x. split; [right; exact Hx|exact HR].
Qed.

Lemma chunk_error_with_score (d : list (string * pyval)) (v : pyval) :
  chunk_error (PDict (dict_set "score" v d)) = chunk_error (PDict d).
Proof.
  cbn [chunk_error]. rewrite !dict_get_set_other by discriminate. reflexivity.
Qed.

Section IndexedDocuments.

Variable md5_hexdigest : string -> string.
Variable uuid4_hex : nat -> string.
Context {bm25 : Type}.
Variable BM25Okapi : list (list string) -> result bm25.
Variable get_scores : bm25 -> list string -> list float.

(** What [index_document] returns and writes. *)
Lemma index_document_files (filepath : string) (segments : list segment) (w : world) :
  let doc := _doc_id md5_hexdigest filepath in
  fst (index_document md5_hexdigest uuid4_hex filepath segments w) = doc /\
  files (snd (index_document md5_hexdigest uuid4_hex filepath segments w))
    = <[index_path doc :=
          json_dumps (index_record doc filepath
                        (fst (_build_chunks uuid4_hex doc segments (uuid_drawn w))))]> (files w).
Proof.
  unfold index_document.
  destruct (_build_chunks uuid4_hex (_doc_id md5_hexdigest filepath) segments (uuid_drawn w)).
  split; reflexivity.
Qed.

(** [load_index] on an index file that holds the dump of a record. *)
Lemma load_index_stored (doc doc' filepath : string) (chunks : list pyval) (w : world) :
  Forall storable_chunk chunks ->
  files w !! index_path doc = Some (json_dumps (index_record doc' filepath chunks)) ->
  exists corpus,
    result_mapM tokenize_text chunks = Ok corpus /\
    load_index BM25Okapi doc w =
      match BM25Okapi corpus with
      | Ok index => Ok (PList chunks, index)
      | Raise e => Raise e
      end.
Proof.
  intros Hstor Hfile.
  pose proof (json_loads_dumps _ (index_record_safe doc' filepath chunks Hstor)) as Hload.
  destruct (storable_corpus chunks Hstor) as [corpus Hcorpus].
  exists corpus. split; [assumption|].
  unfold load_index. rewrite Hfile, Hload.
  cbn [mbind result_mbind result_bind].
  change (py_item (index_record doc' filepath chunks) "chunks") with (Ok (A:=pyval) (PList chunks)).
  cbn [mbind result_mbind result_bind py_iter].
  rewrite Hcorpus. cbn [mbind result_mbind result_bind].
  destruct (BM25Okapi corpus); reflexivity.
Qed.

(** X14. Indexing a file touches the index file of its own doc_id
    only: every other document is loaded and searched as before. The
    doc_ids hold no slash, so that each names one file of the index
    directory. *)
Theorem index_document_leaves_others (filepath : string) (segments : list segment)
    (w : world) (doc question : string) (top_k : Z) :
  without_char "/" doc = true ->
  without_char "/" (_doc_id md5_hexdigest filepath) = true ->
  doc <> _doc_id md5_hexdigest filepath ->
  let w' := snd (index_document md5_hexdigest uuid4_hex filepath segments w) in
  files w' !! index_path doc = files w !! index_path doc /\
  load_index BM25Okapi doc w' = load_index BM25Okapi doc w /\
  retrieve BM25Okapi get_scores doc question top_k w'
    = retrieve BM25Okapi get_scores doc question top_k w.
Proof.
  intros Hdoc Hid Hne w'.
  assert (Hfile : files w' !! index_path doc = files w !! index_path doc).
  { unfold w'. rewrite (proj2 (index_document_files filepath segments w)).
    apply lookup_insert_ne. intros H. apply index_path_plain_inj in H; congruence. }
  assert (Hload : load_index BM25Okapi doc w' = load_index BM25Okapi doc w).
  { unfold load_index. rewrite Hfile. reflexivity. }
  split; [exact Hfile|]. split; [exact Hload|].
  unfold retrieve. rewrite Hload. reflexivity.
Qed.

(** X15. After [index_document], when the scorer accepts the corpus,
    [retrieve] returns for every question and every [top_k] a list of
    chunks built from this document, each with a score added, and
    [_build_user_message] renders that list. *)
Theorem retrieve_after_index_document (filepath : string) (segments : list segment)
    (w : world) (question : string) (top_k : Z) (corpus : list (list string)) (index : bm25) :
  let doc := _doc_id md5_hexdigest filepath in
  let w' := snd (index_document md5_hexdigest uuid4_hex filepath segments w) in
  let chunks := fst (_build_chunks uuid4_hex doc segments (uuid_drawn w)) in
  result_mapM tokenize_text chunks = Ok corpus ->
  BM25Okapi corpus = Ok index ->
  exists results,
    retrieve BM25Okapi get_scores doc question top_k w' = Ok results /\
    Forall (fun r => exists d x, In (PDict d) chunks /\
                                 r = PDict (dict_set "score" (PFloat x) d)) results /\
    exists msg, _build_user_message question results = Ok msg.
Proof.
  intros doc w' chunks Hcorpus Hindex.
  assert (Hstor : Forall storable_chunk chunks) by apply build_chunks_storable.
  assert (Hfile : files w' !! index_path doc
                  = Some (json_dumps (index_record doc filepath chunks))).
  { unfold w'. rewrite (proj2 (index_document_files filepath segments w)).
    apply lookup_insert_eq. }
  destruct (load_index_stored doc doc filepath chunks w' Hstor Hfile) as (corpus' & Hc' & Hload).
  rewrite Hcorpus in Hc'. injection Hc' as <-. rewrite Hindex in Hload.
  destruct (retrieve_loaded BM25Okapi get_scores doc question top_k w' chunks index Hload)
    as (results & Hres & Hall).
  assert (Hfrom : Forall (fun r => exists d x, In (PDict d) chunks /\
                                  r = PDict (dict_set "score" (PFloat x) d)) results).
  { apply List.Forall_forall. intros r Hr.
    destruct (Forall2_In_r _ _ _ _ Hall Hr) as (cs & Hcs & d & Hd & ->).
    exists d, (round4 (snd cs)). split; [|reflexivity].
    apply slice_to_In in Hcs.
    apply (Permutation_in _ (py_sorted_reverse_perm score_lt _)) in Hcs.
    apply py_zip_In_snd in Hcs as [Hcs _]. rewrite Hd in Hcs. exact Hcs. }
  exists results. split; [exact Hres|]. split; [exact Hfrom|].
  assert (Hok : Forall (fun r => chunk_error r = None) results).
  { apply List.Forall_forall. intros r Hr.
    rewrite List.Forall_forall in Hfrom. destruct (Hfrom r Hr) as (d & x & Hd & ->).
    rewrite chunk_error_with_score.
    pose proof (build_chunks_all uuid4_hex (fun c => chunk_error c = None) doc
                  (fun _ _ _ _ _ => eq_refl) segments (uuid_drawn w)) as Hbuilt.
    rewrite List.Forall_forall in Hbuilt. apply Hbuilt. exact Hd. }
  unfold _build_user_message. destruct (passages_from_ok results Hok 1) as [ps ->].
  eexists. reflexivity.
Qed.

(** X16. A document whose segments hold no word is indexed with an empty
    chunk list: [load_index] hands the scorer an empty corpus, and
    [retrieve] returns no passage, or raises what the scorer raises on
    an empty corpus. *)
Theorem index_document_without_words (filepath : string) (segments : list segment)
    (w : world) (question : string) (top_k : Z) :
  Forall (fun seg : segment => has_word (fst (fst seg)) = false) segments ->
  let doc := _doc_id md5_hexdigest filepath in
  let w' := snd (index_document md5_hexdigest uuid4_hex filepath segments w) in
  files w' !! index_path doc = Some (json_dumps (index_record doc filepath [])) /\
  uuid_drawn w' = uuid_drawn w /\
  load_index BM25Okapi doc w' =
    match BM25Okapi [] with
    | Ok index => Ok (PList [], index)
    | Raise e => Raise e
    end /\
  retrieve BM25Okapi get_scores doc question top_k w' =
    match BM25Okapi [] with
    | Ok _ => Ok []
    | Raise e => Raise e
    end.
Proof.
  intros Hnone doc w'.
  assert (Hchunks : forall drawn, _build_chunks uuid4_hex doc segments drawn = ([], drawn)).
  { induction Hnone as [|[[text page_num] section] rest Hseg _ IH]; intros drawn.
    - reflexivity.
    - rewrite build_chunks_cons, build_chunks_segment. cbn [fst snd] in *.
      apply str_split_nil in Hseg. rewrite Hseg. cbn [length]. 
      change (chunk_count 0) with 0%nat. rewrite Nat.add_0_r, IH. reflexivity. }
  assert (Hfile : files w' !! index_path doc
                  = Some (json_dumps (index_record doc filepath []))).
  { unfold w'. rewrite (proj2 (index_document_files filepath segments w)).
    fold doc. rewrite Hchunks. apply lookup_insert_eq. }
  assert (Hdrawn : uuid_drawn w' = uuid_drawn w).
  { unfold w', index_document. fold doc. rewrite Hchunks. reflexivity. }
  destruct (load_index_stored doc doc filepath [] w' (List.Forall_nil _) Hfile)
    as (corpus & Hc & Hload).
  injection Hc as <-.
  split; [exact Hfile|]. split; [exact Hdrawn|]. split; [exact Hload|].
  unfold retrieve. rewrite Hload.
  destruct (BM25Okapi []) as [index|e]; [|reflexivity].
  cbn [mbind result_mbind result_bind fst snd py_iter py_zip].
  unfold py_sorted_reverse, slice_to. cbn [List.rev py_sorted fold_right app].
  destruct (0 <=? top_k); rewrite take_nil; reflexivity.
Qed.

End IndexedDocuments.

Lemma index_document_leaves_others_witness :
  let w' := snd (index_document demo_md5 demo_uuid "b.txt" demo_segments demo_world) in
  files w' !! index_path demo_doc = files demo_world !! index_path demo_doc /\
  load_index demo_BM25Okapi demo_doc w' = load_index demo_BM25Okapi demo_doc demo_world /\
  retrieve demo_BM25Okapi demo_get_scores demo_doc "beta" 2 w'
    = retrieve demo_BM25Okapi demo_get_scores demo_doc "beta" 2 demo_world.
Proof.
  apply (index_document_leaves_others demo_md5 demo_uuid demo_BM25Okapi demo_get_scores
           "b.txt" demo_segments demo_world demo_doc "beta" 2).
  - reflexivity.
  - reflexivity.
  - vm_compute. intros H. discriminate H.
Defined.

Lemma retrieve_after_index_document_witness :
  exists results,
    retrieve demo_BM25Okapi demo_get_scores (_doc_id demo_md5 "a.txt") "beta" 2
      (snd (index_document demo_md5 demo_uuid "a.txt" demo_segments empty_world)) = Ok results /\
    Forall (fun r => exists d x,
                In (PDict d) (fst (_build_chunks demo_uuid (_doc_id demo_md5 "a.txt")
                                     demo_segments (uuid_drawn empty_world))) /\
                r = PDict (dict_set "score" (PFloat x) d)) results /\
    exists msg, _build_user_message "beta" results = Ok msg.
Proof.
  apply (retrieve_after_index_document demo_md5 demo_uuid demo_BM25Okapi demo_get_scores
           "a.txt" demo_segments empty_world "beta" 2 demo_index demo_index).
  - vm_compute; reflexivity.
  - reflexivity.
Defined.

Lemma index_document_without_words_witness :
  let doc := _doc_id demo_md5 "blank.txt" in
  let w' := snd (index_document demo_md5 demo_uuid "blank.txt"
                   [("  ", None, None); ("", Some 2, None)] demo_world) in
  files w' !! index_path doc = Some (json_dumps (index_record doc "blank.txt" [])) /\
  uuid_drawn w' = uuid_drawn demo_world /\
  load_index demo_BM25Okapi doc w' = Raise ZeroDivisionError /\
  retrieve demo_BM25Okapi demo_get_scores doc "beta" 2 w' = Raise ZeroDivisionError.
Proof.
  apply (index_document_without_words demo_md5 demo_uuid demo_BM25Okapi demo_get_scores
           "blank.txt" [("  ", None, None); ("", Some 2, None)] demo_world "beta" 2).
  repeat constructor.
Defined.

(** * extractor.py *)

(** What the extractors raise themselves. *)
Inductive extract_error : Type :=
| RuntimeError (msg : string).

(** The outcome of an extractor: the list of segments, or the
    exception raised. *)
Inductive extraction : Type :=
| Extracted (segments : list segment)
| Failed (e : extract_error).

(** [bool(s)] for a str. *)
Definition str_truth (s : string) : bool :=
  match s with
  | EmptyString => false
  | String _ _ => true
  end.

(** [s.lstrip(c)] for a single character [c]. *)
Fixpoint lstrip_chars (c : ascii) (s : string) : string :=
  match s with
  | EmptyString => EmptyString
  | String x s' => if Ascii.eqb x c then lstrip_chars c s' else s
  end.

(** [s.startswith(p)]. *)
Definition startswith (p s : string) : bool :=
  match strip_prefix p s with
  | Some _ => true
  | None => false
  end.

Definition newline_str : string := String newline EmptyString.

(** [_extract_pdf] after the reader has opened the file: [texts] holds
    what [extract_text()] returns for each page, [None] included. The
    loop, from page number [i] on. *)
Fixpoint pdf_pages (i : Z) (texts : list (option string)) : list segment :=
  match texts with
  | [] => []
  | t :: rest =>
      let text := match t with Some s => if str_truth s then s else "" | None => "" end in
      if str_truth (str_strip text)
      then (text, Some i, Some ("Page " +:+ int_str i)) :: pdf_pages (i + 1) rest
      else pdf_pages (i + 1) rest
  end.

Definition _extract_pdf (texts : list (option string)) : extraction :=
  match pdf_pages 1 texts with
  | [] =>
      Failed (RuntimeError
                "PDF appears to contain no extractable text (may be scanned/image-only).")
  | pages => Extracted pages
  end.

(** The end of a section: the buffer, when it holds a line, becomes a
    segment under the current heading. *)
Definition flush (segments : list segment) (current : string) (buffer : list string)
  : list segment * list string :=
  match buffer with
  | [] => (segments, buffer)
  | _ => (segments ++ [(str_join newline_str buffer, None, Some current)], [])
  end.

(** The loop of [_extract_docx] over the paragraphs, each given by the
    name of its style and its text: the segments, the current heading
    and the buffer after it. *)
Fixpoint docx_loop (paragraphs : list (string * string))
    (segments : list segment) (current_heading : string) (buffer : list string)
  : list segment * string * list string :=
  match paragraphs with
  | [] => (segments, current_heading, buffer)
  | (style_name, text) :: rest =>
      if startswith "Heading" style_name then
        let '(segments', buffer') := flush segments current_heading buffer in
        let heading := str_strip text in
        docx_loop rest segments' (if str_truth heading then heading else current_heading) buffer'
      else if str_truth (str_strip text) then
        docx_loop rest segments current_heading (buffer ++ [str_strip text])
      else docx_loop rest segments current_heading buffer
  end.

Definition _extract_docx (paragraphs : list (string * string)) : extraction :=
  let '(segments, current_heading, buffer) := docx_loop paragraphs [] "Introduction" [] in
  let '(segments', _) := flush segments current_heading buffer in
  match segments' with
  | [] => Failed (RuntimeError "DOCX appears to contain no extractable text.")
  | _ => Extracted segments'
  end.

(** The loop of [_extract_text] over the lines [readlines] returns. *)
Fixpoint text_loop (lines : list string)
    (segments : list segment) (current_section : string) (buffer : list string)
  : list segment * string * list string :=
  match lines with
  | [] => (segments, current_section, buffer)
  | line :: rest =>
      let stripped := rstrip line in
      if startswith "#" stripped then
        let '(segments', buffer') := flush segments current_section buffer in
        let heading := str_strip (lstrip_chars "#" stripped) in
        text_loop rest segments' (if str_truth heading then heading else current_section) buffer'
      else if str_truth stripped then
        text_loop rest segments current_section (buffer ++ [stripped])
      else text_loop rest segments current_section buffer
  end.

Definition _extract_text (lines : list string) : extraction :=
  let '(segments, current_section, buffer) := text_loop lines [] "Document" [] in
  let '(segments', _) := flush segments current_section buffer in
  match segments' with
  | [] =>
      let full := str_strip (str_join "" lines) in
      if str_truth full then Extracted [(full, None, Some "Document")]
      else Failed (RuntimeError "File appears to be empty.")
  | _ => Extracted segments'
  end.

(** ** Whitespace: what [strip] and [split] agree on *)

Lemma rstrip_nil (s : string) : rstrip s = EmptyString <-> has_word s = false.
Proof.
  induction s as [|c s IH]; cbn [rstrip has_word]; [tauto|].
  destruct (rstrip s) eqn:Hr.
  - destruct (is_space c) eqn:Hc; cbn [negb orb].
    + split; [intros _; apply IH; reflexivity|reflexivity].
    + split; discriminate.
  - split; [discriminate|]. intros H. apply orb_false_iff in H as [_ H].
    apply IH in H. discriminate.
Qed.

Lemma split_go_cons (cur : option string) (c : ascii) (s : string) :
  split_go cur (String c s) =
    if is_space c
    then match cur with
         | Some w => w :: split_go None s
         | None => split_go None s
         end
    else split_go (Some (match cur with Some w => w +:+ String c "" | None => String c "" end)) s.
Proof. reflexivity. Qed.

Lemma split_go_rstrip (s : string) : forall cur, split_go cur (rstrip s) = split_go cur s.
Proof.
  induction s as [|c s IH]; intros cur; [reflexivity|].
  cbn [rstrip]. destruct (rstrip s) as [|x r] eqn:Hr.
  - destruct (is_space c) eqn:Hc; cbn [split_go]; rewrite Hc.
    + rewrite <- (IH None). destruct cur; reflexivity.
    + rewrite <- IH. reflexivity.
  - rewrite (split_go_cons cur c (String x r)), (split_go_cons cur c s).
    destruct (is_space c); [destruct cur|]; rewrite IH; reflexivity.
Qed.

Lemma split_go_lstrip (s : string) : split_go None (lstrip s) = split_go None s.
Proof.
  induction s as [|c s IH]; cbn [lstrip split_go]; [reflexivity|].
  destruct (is_space c) eqn:Hc; [exact IH|]. cbn [split_go]. rewrite Hc. reflexivity.
Qed.

(** [strip] keeps the words. *)
Lemma str_split_strip (s : string) : str_split (str_strip s) = str_split s.
Proof.
  unfold str_strip, str_split. rewrite split_go_rstrip. apply split_go_lstrip.
Qed.

Lemma str_split_rstrip (s : string) : str_split (rstrip s) = str_split s.
Proof. apply split_go_rstrip. Qed.

Lemma same_words (a b : string) : str_split a = str_split b -> has_word a = has_word b.
Proof.
  intros H. destruct (has_word a) eqn:Ha; destruct (has_word b) eqn:Hb; try reflexivity.
  - apply str_split_nil in Hb. rewrite <- H in Hb. apply str_split_nil in Hb. congruence.
  - apply str_split_nil in Ha. rewrite H in Ha. apply str_split_nil in Ha. congruence.
Qed.

Lemma has_word_strip (s : string) : has_word (str_strip s) = has_word s.
Proof. apply same_words, str_split_strip. Qed.

Lemma str_truth_rstrip (s : string) : str_truth (rstrip s) = has_word s.
Proof.
  destruct (has_word s) eqn:H.
  - destruct (rstrip s) eqn:Hr; [|reflexivity]. apply rstrip_nil in Hr. congruence.
  - apply rstrip_nil in H. rewrite H. reflexivity.
Qed.

(** [s.strip()] is true exactly when [s] holds a word. *)
Lemma str_truth_strip (s : string) : str_truth (str_strip s) = has_word s.
Proof.
  unfold str_strip. rewrite str_truth_rstrip. apply same_words. apply split_go_lstrip.
Qed.

Lemma split_go_app_space (c : ascii) (b : string) :
  is_space c = true ->
  forall a cur, split_go cur (a +:+ String c b) = split_go cur a ++ split_go None b.
Proof.
  intros Hc. induction a as [|x a IH]; intros cur.
  - cbn [String.append split_go]. rewrite Hc. destruct cur; reflexivity.
  - cbn [String.append split_go]. destruct (is_space x); [destruct cur|]; rewrite IH; reflexivity.
Qed.

(** The words of lines joined by newlines are the words of the lines. *)
Lemma str_split_join_lines (buffer : list string) :
  str_split (str_join newline_str buffer) = List.concat (List.map str_split buffer).
Proof.
  induction buffer as [|a buffer IH]; [reflexivity|].
  destruct buffer as [|b buffer].
  - cbn [str_join String.concat List.map List.concat]. rewrite app_nil_r. reflexivity.
  - change (str_join newline_str (a :: b :: buffer))
      with (a +:+ String newline (str_join newline_str (b :: buffer))).
    unfold str_split at 1. rewrite split_go_app_space by reflexivity.
    fold (str_split a). fold (str_split (str_join newline_str (b :: buffer))).
    rewrite IH. reflexivity.
Qed.

Lemma has_word_concat (lines : list string) :
  has_word (str_join "" lines) = existsb has_word lines.
Proof.
  induction lines as [|a lines IH]; [reflexivity|].
  destruct lines as [|b lines].
  - cbn [str_join String.concat existsb]. rewrite orb_false_r. reflexivity.
  - change (str_join "" (a :: b :: lines)) with (a +:+ str_join "" (b :: lines)).
    rewrite has_word_app, IH. reflexivity.
Qed.

(** ** The loop that [_extract_text] and [_extract_docx] share *)

(** What a line or a paragraph is to the loop: a heading with its
    stripped text, a body line as it is buffered, or nothing. *)
Inductive item : Type :=
| Heading (name : string)
| Body (line : string)
| Blank.

Fixpoint section_loop (items : list item)
    (segments : list segment) (current : string) (buffer : list string)
  : list segment * string * list string :=
  match items with
  | [] => (segments, current, buffer)
  | Heading name :: rest =>
      let '(segments', buffer') := flush segments current buffer in
      section_loop rest segments' (if str_truth name then name else current) buffer'
  | Body line :: rest => section_loop rest segments current (buffer ++ [line])
  | Blank :: rest => section_loop rest segments current buffer
  end.

Definition text_item (line : string) : item :=
  let stripped := rstrip line in
  if startswith "#" stripped then Heading (str_strip (lstrip_chars "#" stripped))
  else if str_truth stripped then Body stripped
  else Blank.

Definition docx_item (p : string * string) : item :=
  if startswith "Heading" (fst p) then Heading (str_strip (snd p))
  else if str_truth (str_strip (snd p)) then Body (str_strip (snd p))
  else Blank.

Lemma text_loop_items (lines : list string) :
  forall segments current buffer,
    text_loop lines segments current buffer
      = section_loop (List.map text_item lines) segments current buffer.
Proof.
  induction lines as [|line lines IH]; intros segments current buffer; [reflexivity|].
  cbn [text_loop List.map]. unfold text_item at 1.
  destruct (startswith "#" (rstrip line)); cbn [section_loop].
  - destruct (flush segments current buffer). apply IH.
  - destruct (str_truth (rstrip line)); cbn [section_loop]; apply IH.
Qed.

Lemma docx_loop_items (paragraphs : list (string * string)) :
  forall segments current buffer,
    docx_loop paragraphs segments current buffer
      = section_loop (List.map docx_item paragraphs) segments current buffer.
Proof.
  induction paragraphs as [|[style_name text] ps IH]; intros segments current buffer;
    [reflexivity|].
  cbn [docx_loop List.map]. unfold docx_item at 1. cbn [fst snd].
  destruct (startswith "Heading" style_name); cbn [section_loop].
  - destruct (flush segments current buffer). apply IH.
  - destruct (str_truth (str_strip text)); cbn [section_loop]; apply IH.
Qed.

(** A segment of a text or DOCX file: it holds a word, has no page
    number, and a section name that is not empty. *)
Definition good_segment (seg : segment) : Prop :=
  has_word (fst (fst seg)) = true /\
  snd (fst seg) = None /\
  exists sec, snd seg = Some sec /\ sec <> EmptyString.

Definition item_words (it : item) : list string :=
  match it with
  | Body line => str_split line
  | _ => []
  end.

Definition body_ok (it : item) : Prop :=
  match it with
  | Body line => has_word line = true
  | _ => True
  end.

Definition is_body (it : item) : bool :=
  match it with
  | Body _ => true
  | _ => false
  end.

(** The words of a list of segments, in order. *)
Definition words_of (segments : list segment) : list string :=
  List.concat (List.map segment_words segments).

Lemma has_word_split (s : string) : has_word s = true <-> str_split s <> [].
Proof.
  pose proof (str_split_nil s) as H. destruct (has_word s); split; intros H'.
  - intros Hnil. apply H in Hnil. discriminate.
  - reflexivity.
  - discriminate.
  - destruct H' . apply H. reflexivity.
Qed.

Lemma words_of_app (a b : list segment) : words_of (a ++ b) = words_of a ++ words_of b.
Proof. unfold words_of. rewrite List.map_app, List.concat_app. reflexivity. Qed.

Lemma good_segment_words (segments : list segment) :
  Forall good_segment segments -> words_of segments = [] -> segments = [].
Proof.
  intros Hgood Hnil. destruct Hgood as [|seg rest [Hword _] _]; [reflexivity|].
  unfold words_of in Hnil. cbn [List.map List.concat] in Hnil.
  apply app_eq_nil in Hnil as [Hnil _]. apply has_word_split in Hword. contradiction.
Qed.

Lemma flush_inv (segments : list segment) (current : string) (buffer : list string) :
  Forall good_segment segments ->
  current <> EmptyString ->
  Forall (fun l => has_word l = true) buffer ->
  Forall good_segment (fst (flush segments current buffer)) /\
  snd (flush segments current buffer) = [] /\
  words_of (fst (flush segments current buffer))
    = words_of segments ++ List.concat (List.map str_split buffer).
Proof.
  intros Hsegs Hcur Hbuf. destruct buffer as [|b buffer].
  - cbn [flush fst snd List.map List.concat]. rewrite app_nil_r. auto.
  - cbn [flush fst snd]. split; [|split; [reflexivity|]].
    + apply List.Forall_app. split; [exact Hsegs|]. constructor; [|constructor].
      split; [|split; [reflexivity|exists current; auto]].
      cbn [fst]. apply has_word_split. rewrite str_split_join_lines.
      cbn [List.map List.concat]. inversion Hbuf as [|? ? Hb _]; subst.
      apply has_word_split in Hb. intros Hnil. apply app_eq_nil in Hnil as [Hnil _].
      contradiction.
    + rewrite words_of_app. f_equal. unfold words_of, segment_words.
      cbn [List.map List.concat fst]. rewrite app_nil_r. apply str_split_join_lines.
Qed.

Lemma section_loop_inv (items : list item) :
  Forall body_ok items ->
  forall segments current buffer,
    Forall good_segment segments ->
    current <> EmptyString ->
    Forall (fun l => has_word l = true) buffer ->
    let r := section_loop items segments current buffer in
    Forall good_segment (fst (fst r)) /\
    snd (fst r) <> EmptyString /\
    Forall (fun l => has_word l = true) (snd r) /\
    words_of (fst (fst r)) ++ List.concat (List.map str_split (snd r))
      = words_of segments ++ List.concat (List.map str_split buffer)
          ++ List.concat (List.map item_words items).
Proof.
  induction 1 as [|it items Hit _ IH]; intros segments current buffer Hsegs Hcur Hbuf.
  - cbn [section_loop fst snd List.map List.concat]. rewrite app_nil_r. auto.
  - destruct it as [name|line|]; cbn [section_loop].
    + destruct (flush_inv segments current buffer Hsegs Hcur Hbuf) as (Hs & Hb & Hw).
      destruct (flush segments current buffer) as [segments' buffer']. cbn [fst snd] in *.
      subst buffer'.
      assert (Hcur' : (if str_truth name then name else current) <> EmptyString).
      { destruct name; [exact Hcur|discriminate]. }
      destruct (IH segments' (if str_truth name then name else current) []
                  Hs Hcur' (List.Forall_nil _)) as (H1 & H2 & H3 & H4).
      split; [exact H1|]. split; [exact H2|]. split; [exact H3|].
      rewrite H4, Hw. cbn [List.map List.concat item_words app].
      rewrite <- app_assoc. reflexivity.
    + assert (Hbuf' : Forall (fun l => has_word l = true) (buffer ++ [line])).
      { apply List.Forall_app. split; [exact Hbuf|]. constructor; [exact Hit|constructor]. }
      destruct (IH segments current (buffer ++ [line]) Hsegs Hcur Hbuf') as (H1 & H2 & H3 & H4).
      split; [exact H1|]. split; [exact H2|]. split; [exact H3|].
      rewrite H4. cbn [List.map List.concat item_words].
      rewrite List.map_app, List.concat_app. cbn [List.map List.concat].
      rewrite app_nil_r, <- !app_assoc. reflexivity.
    + destruct (IH segments current buffer Hsegs Hcur Hbuf) as (H1 & H2 & H3 & H4).
      split; [exact H1|]. split; [exact H2|]. split; [exact H3|].
      rewrite H4. reflexivity.
Qed.

(** The segments after the loop and the last flush. *)
Definition sections (items : list item) (start : string) : list segment :=
  let r := section_loop items [] start [] in
  fst (flush (fst (fst r)) (snd (fst r)) (snd r)).

Lemma sections_inv (items : list item) (start : string) :
  Forall body_ok items ->
  start <> EmptyString ->
  Forall good_segment (sections items start) /\
  words_of (sections items start) = List.concat (List.map item_words items).
Proof.
  intros Hitems Hstart. unfold sections.
  destruct (section_loop_inv items Hitems [] start [] (List.Forall_nil _) Hstart
              (List.Forall_nil _)) as (H1 & H2 & H3 & H4).
  cbv zeta in *.
  destruct (flush_inv _ _ _ H1 H2 H3) as (Hs & _ & Hw).
  split; [exact Hs|]. rewrite Hw, H4. reflexivity.
Qed.

Lemma item_words_nil (items : list item) :
  Forall body_ok items ->
  (List.concat (List.map item_words items) = [] <-> existsb is_body items = false).
Proof.
  induction 1 as [|it items Hit _ IH]; [cbn; tauto|].
  cbn [List.map List.concat existsb]. destruct it as [name|line|]; cbn [item_words is_body app orb].
  - exact IH.
  - split; [|discriminate]. intros Hnil. apply app_eq_nil in Hnil as [Hnil _].
    cbn [body_ok] in Hit. apply has_word_split in Hit. contradiction.
  - exact IH.
Qed.

Lemma sections_nil (items : list item) (start : string) :
  Forall body_ok items ->
  start <> EmptyString ->
  (sections items start = [] <-> existsb is_body items = false).
Proof.
  intros Hitems Hstart. destruct (sections_inv items start Hitems Hstart) as [Hgood Hwords].
  rewrite <- (item_words_nil items Hitems), <- Hwords. split.
  - intros ->. reflexivity.
  - apply good_segment_words. exact Hgood.
Qed.

(** ** [_extract_text]: headings, body lines and the fallback *)

(** A line that starts a section, and a line that goes into a buffer. *)
Definition heading_line (line : string) : bool := startswith "#" (rstrip line).

Definition body_line (line : string) : bool := negb (heading_line line) && has_word line.

Lemma text_item_ok (lines : list string) : Forall body_ok (List.map text_item lines).
Proof.
  apply List.Forall_forall. intros it Hit. apply in_map_iff in Hit as (line & <- & _).
  unfold text_item. destruct (startswith "#" (rstrip line)); [exact I|].
  destruct (str_truth (rstrip line)) eqn:H; [|exact I].
  cbn [body_ok]. rewrite (same_words _ _ (str_split_rstrip line)), <- str_truth_rstrip.
  exact H.
Qed.

Lemma text_item_words (line : string) :
  item_words (text_item line) = if heading_line line then [] else str_split line.
Proof.
  unfold text_item, heading_line. destruct (startswith "#" (rstrip line)); [reflexivity|].
  destruct (str_truth (rstrip line)) eqn:H; cbn [item_words].
  - apply str_split_rstrip.
  - rewrite str_truth_rstrip in H. apply str_split_nil in H. symmetry. exact H.
Qed.

Lemma text_item_is_body (line : string) : is_body (text_item line) = body_line line.
Proof.
  unfold text_item, body_line, heading_line.
  destruct (startswith "#" (rstrip line)); [reflexivity|].
  cbn [negb andb]. rewrite <- str_truth_rstrip.
  destruct (str_truth (rstrip line)); reflexivity.
Qed.

Lemma text_words (lines : list string) :
  List.concat (List.map item_words (List.map text_item lines))
    = List.concat (List.map str_split (List.filter (fun l => negb (heading_line l)) lines)).
Proof.
  induction lines as [|line lines IH]; [reflexivity|].
  cbn [List.map List.concat List.filter]. rewrite text_item_words, IH.
  destruct (heading_line line); reflexivity.
Qed.

Lemma text_bodies (lines : list string) :
  existsb is_body (List.map text_item lines) = existsb body_line lines.
Proof.
  induction lines as [|line lines IH]; [reflexivity|].
  cbn [List.map existsb]. rewrite text_item_is_body, IH. reflexivity.
Qed.

Lemma extract_text_sections (lines : list string) :
  _extract_text lines =
    match sections (List.map text_item lines) "Document" with
    | [] =>
        let full := str_strip (str_join "" lines) in
        if str_truth full then Extracted [(full, None, Some "Document")]
        else Failed (RuntimeError "File appears to be empty.")
    | segments => Extracted segments
    end.
Proof.
  unfold _extract_text, sections. rewrite text_loop_items.
  destruct (section_loop (List.map text_item lines) [] "Document" []) as [[segs cur] buf].
  cbn [fst snd]. destruct (flush segs cur buf) as [segs' buf'].
  cbn [fst]. destruct segs'; reflexivity.
Qed.

Lemma document_name : "Document" <> EmptyString.
Proof. discriminate. Qed.

(** With a body line, the segments are those of the loop. *)
Lemma extract_text_body (lines : list string) :
  existsb body_line lines = true ->
  exists segments,
    _extract_text lines = Extracted segments /\
    segments <> [] /\
    Forall good_segment segments /\
    words_of segments
      = List.concat (List.map str_split (List.filter (fun l => negb (heading_line l)) lines)).
Proof.
  intros Hbody. rewrite extract_text_sections.
  destruct (sections_inv _ "Document" (text_item_ok lines) document_name) as [Hgood Hwords].
  pose proof (sections_nil _ "Document" (text_item_ok lines) document_name) as Hnil.
  rewrite text_bodies, Hbody in Hnil. rewrite text_words in Hwords.
  destruct (sections (List.map text_item lines) "Document") as [|seg segs] eqn:Hsecs.
  - destruct Hnil as [Hnil _]. specialize (Hnil eq_refl). discriminate.
  - exists (seg :: segs). split; [reflexivity|]. split; [discriminate|]. auto.
Qed.

(** Without one, the whole file is one segment, or the file is empty. *)
Lemma extract_text_no_body (lines : list string) :
  existsb body_line lines = false ->
  _extract_text lines =
    if existsb has_word lines
    then Extracted [(str_strip (str_join "" lines), None, Some "Document")]
    else Failed (RuntimeError "File appears to be empty.").
Proof.
  intros Hbody. rewrite extract_text_sections.
  pose proof (sections_nil _ "Document" (text_item_ok lines) document_name) as Hnil.
  rewrite text_bodies in Hnil. apply Hnil in Hbody. rewrite Hbody.
  cbv zeta. rewrite str_truth_strip, has_word_concat. reflexivity.
Qed.

Lemma body_line_has_word (lines : list string) :
  existsb body_line lines = true -> existsb has_word lines = true.
Proof.
  intros H. apply existsb_exists in H as (line & Hin & Hline).
  apply existsb_exists. exists line. split; [exact Hin|].
  unfold body_line in Hline. apply andb_true_iff in Hline as [_ Hline]. exact Hline.
Qed.

(** X17. [_extract_text] raises exactly when no line holds a word, and then
    the [RuntimeError] of the empty file; otherwise it returns at least
    one segment, every segment with a word in its text, no page number
    and a section name that is not empty. *)
Theorem extract_text_outcome (lines : list string) :
  match _extract_text lines with
  | Extracted segments =>
      segments <> [] /\ Forall good_segment segments /\ existsb has_word lines = true
  | Failed e =>
      e = RuntimeError "File appears to be empty." /\ existsb has_word lines = false
  end.
Proof.
  destruct (existsb body_line lines) eqn:Hbody.
  - destruct (extract_text_body lines Hbody) as (segs & -> & Hne & Hgood & _).
    split; [exact Hne|]. split; [exact Hgood|]. apply body_line_has_word, Hbody.
  - rewrite (extract_text_no_body lines Hbody).
    destruct (existsb has_word lines) eqn:Hword; [|split; reflexivity].
    split; [discriminate|]. split; [|reflexivity].
    constructor; [|constructor]. split; [|split; [reflexivity|exists "Document"; split;
      [reflexivity|discriminate]]].
    cbn [fst]. rewrite has_word_strip, has_word_concat. exact Hword.
Qed.

(** X18. When the file has a body line, no word of a body line is lost or
    moved: the words of the segments, in order, are the words of the
    lines that are no headings. The headings give the section names
    only. *)
Theorem extract_text_words (lines : list string) :
  existsb body_line lines = true ->
  exists segments,
    _extract_text lines = Extracted segments /\
    words_of segments
      = List.concat (List.map str_split (List.filter (fun l => negb (heading_line l)) lines)).
Proof.
  intros Hbody. destruct (extract_text_body lines Hbody) as (segs & Heq & _ & _ & Hwords).
  exists segs. split; assumption.
Qed.

(** X19. A file of headings and blank lines only is not split by its
    headings: the fallback returns the whole file, stripped, marks of
    the headings included, as one segment of the section [Document]. *)
Theorem extract_text_headings_only (lines : list string) :
  existsb body_line lines = false ->
  existsb has_word lines = true ->
  _extract_text lines = Extracted [(str_strip (str_join "" lines), None, Some "Document")].
Proof.
  intros Hbody Hword. rewrite (extract_text_no_body lines Hbody), Hword. reflexivity.
Qed.

Definition demo_lines : list string :=
  ["# Title" +:+ newline_str; newline_str; "Alpha beta  " +:+ newline_str;
   "## Part one ##" +:+ newline_str; "gamma" +:+ newline_str; "#" +:+ newline_str; "delta"].

Lemma extract_text_words_witness :
  exists segments,
    _extract_text demo_lines = Extracted segments /\
    words_of segments = ["Alpha"; "beta"; "gamma"; "delta"].
Proof.
  apply (extract_text_words demo_lines). reflexivity.
Defined.

Lemma extract_text_headings_only_witness :
  _extract_text ["# Title" +:+ newline_str; newline_str; "## Part" +:+ newline_str]
    = Extracted [("# Title" +:+ newline_str +:+ newline_str +:+ "## Part", None, Some "Document")].
Proof.
  apply (extract_text_headings_only
           ["# Title" +:+ newline_str; newline_str; "## Part" +:+ newline_str]);
    reflexivity.
Defined.

Example demo_extract_text :
  _extract_text demo_lines
    = Extracted [("Alpha beta", None, Some "Title");
                 ("gamma", None, Some "Part one ##");
                 ("delta", None, Some "Part one ##")].
Proof. vm_compute. reflexivity. Qed.

(** ** [_extract_docx] *)

Definition heading_paragraph (p : string * string) : bool := startswith "Heading" (fst p).

Definition body_paragraph (p : string * string) : bool :=
  negb (heading_paragraph p) && has_word (snd p).

Lemma docx_item_ok (paragraphs : list (string * string)) :
  Forall body_ok (List.map docx_item paragraphs).
Proof.
  apply List.Forall_forall. intros it Hit. apply in_map_iff in Hit as (p & <- & _).
  unfold docx_item. destruct (startswith "Heading" (fst p)); [exact I|].
  destruct (str_truth (str_strip (snd p))) eqn:H; [|exact I].
  cbn [body_ok]. rewrite has_word_strip, <- str_truth_strip. exact H.
Qed.

Lemma docx_item_words (p : string * string) :
  item_words (docx_item p) = if heading_paragraph p then [] else str_split (snd p).
Proof.
  unfold docx_item, heading_paragraph. destruct (startswith "Heading" (fst p)); [reflexivity|].
  destruct (str_truth (str_strip (snd p))) eqn:H; cbn [item_words].
  - apply str_split_strip.
  - rewrite str_truth_strip in H. apply str_split_nil in H. symmetry. exact H.
Qed.

Lemma docx_item_is_body (p : string * string) : is_body (docx_item p) = body_paragraph p.
Proof.
  unfold docx_item, body_paragraph, heading_paragraph.
  destruct (startswith "Heading" (fst p)); [reflexivity|].
  cbn [negb andb]. rewrite <- str_truth_strip.
  destruct (str_truth (str_strip (snd p))); reflexivity.
Qed.

Lemma docx_words (paragraphs : list (string * string)) :
  List.concat (List.map item_words (List.map docx_item paragraphs))
    = List.concat (List.map (fun p => str_split (snd p))
                     (List.filter (fun p => negb (heading_paragraph p)) paragraphs)).
Proof.
  induction paragraphs as [|p ps IH]; [reflexivity|].
  cbn [List.map List.concat List.filter]. rewrite docx_item_words, IH.
  destruct (heading_paragraph p); reflexivity.
Qed.

Lemma docx_bodies (paragraphs : list (string * string)) :
  existsb is_body (List.map docx_item paragraphs) = existsb body_paragraph paragraphs.
Proof.
  induction paragraphs as [|p ps IH]; [reflexivity|].
  cbn [List.map existsb]. rewrite docx_item_is_body, IH. reflexivity.
Qed.

Lemma extract_docx_sections (paragraphs : list (string * string)) :
  _extract_docx paragraphs =
    match sections (List.map docx_item paragraphs) "Introduction" with
    | [] => Failed (RuntimeError "DOCX appears to contain no extractable text.")
    | segments => Extracted segments
    end.
Proof.
  unfold _extract_docx, sections. rewrite docx_loop_items.
  destruct (section_loop (List.map docx_item paragraphs) [] "Introduction" [])
    as [[segs cur] buf].
  cbn [fst snd]. destruct (flush segs cur buf) as [segs' buf'].
  cbn [fst]. destruct segs'; reflexivity.
Qed.

Lemma introduction_name : "Introduction" <> EmptyString.
Proof. discriminate. Qed.

Lemma extract_docx_cases (paragraphs : list (string * string)) :
  match _extract_docx paragraphs with
  | Extracted segments =>
      segments <> [] /\
      Forall good_segment segments /\
      words_of segments
        = List.concat (List.map (fun p => str_split (snd p))
                         (List.filter (fun p => negb (heading_paragraph p)) paragraphs))
  | Failed e =>
      e = RuntimeError "DOCX appears to contain no extractable text." /\
      existsb body_paragraph paragraphs = false
  end.
Proof.
  rewrite extract_docx_sections.
  destruct (sections_inv _ "Introduction" (docx_item_ok paragraphs) introduction_name)
    as [Hgood Hwords].
  pose proof (sections_nil _ "Introduction" (docx_item_ok paragraphs) introduction_name)
    as Hnil.
  rewrite docx_bodies in Hnil. rewrite docx_words in Hwords.
  destruct (sections (List.map docx_item paragraphs) "Introduction") as [|seg segs].
  - split; [reflexivity|]. apply Hnil. reflexivity.
  - split; [discriminate|]. split; assumption.
Qed.

(** X20. [_extract_docx] raises exactly when no paragraph outside the
    headings holds a word, a document of headings only included;
    otherwise it returns at least one segment, every segment with a
    word, no page number and a section name that is not empty, and the
    words of the segments are the words of the paragraphs that are no
    headings, in order. *)
Theorem extract_docx_outcome (paragraphs : list (string * string)) :
  match _extract_docx paragraphs with
  | Extracted segments =>
      segments <> [] /\
      Forall good_segment segments /\
      words_of segments
        = List.concat (List.map (fun p => str_split (snd p))
                         (List.filter (fun p => negb (heading_paragraph p)) paragraphs))
  | Failed e =>
      e = RuntimeError "DOCX appears to contain no extractable text." /\
      existsb body_paragraph paragraphs = false
  end.
Proof. exact (extract_docx_cases paragraphs). Qed.

Example demo_extract_docx :
  _extract_docx [("Normal", " Preface. "); ("Heading 1", " Scope "); ("Normal", "");
                 ("Normal", "First."); ("List Paragraph", "Second."); ("Heading 2", "  ");
                 ("Normal", "Third."); ("Heading 1", "Unused")]
    = Extracted [("Preface.", None, Some "Introduction");
                 ("First." +:+ newline_str +:+ "Second.", None, Some "Scope");
                 ("Third.", None, Some "Scope")] /\
  _extract_docx [("Heading 1", "Title"); ("Normal", "  ")]
    = Failed (RuntimeError "DOCX appears to contain no extractable text.").
Proof. split; vm_compute; reflexivity. Qed.

(** ** [_extract_pdf] *)

(** [page.extract_text() or ""]. *)
Definition page_text (t : option string) : string :=
  match t with
  | Some s => s
  | None => EmptyString
  end.

(** The segment of the page at index [k], numbered from [i]. *)
Definition page_segment (i : Z) (k : nat) (t : option string) : segment :=
  (page_text t, Some (i + Z.of_nat k), Some ("Page " +:+ int_str (i + Z.of_nat k))).

Definition segment_page (seg : segment) : Z :=
  match snd (fst seg) with
  | Some z => z
  | None => 0
  end.

Lemma pdf_pages_cons (i : Z) (t : option string) (rest : list (option string)) :
  pdf_pages i (t :: rest) =
    if has_word (page_text t)
    then page_segment i 0 t :: pdf_pages (i + 1) rest
    else pdf_pages (i + 1) rest.
Proof.
  cbn [pdf_pages].
  replace (match t with Some s => if str_truth s then s else "" | None => "" end)
    with (page_text t) by (destruct t as [[|c s]|]; reflexivity).
  rewrite str_truth_strip. unfold page_segment. cbn [Z.of_nat]. rewrite Z.add_0_r.
  reflexivity.
Qed.

Lemma pdf_pages_In (texts : list (option string)) :
  forall i seg,
    In seg (pdf_pages i texts) <->
    exists k t, texts !! k = Some t /\ has_word (page_text t) = true /\
                seg = page_segment i k t.
Proof.
  induction texts as [|t rest IH]; intros i seg.
  - cbn [pdf_pages In]. split; [tauto|]. intros (k & t & H & _). destruct k; discriminate.
  - rewrite pdf_pages_cons.
    assert (Hshift : forall k t', page_segment (i + 1) k t' = page_segment i (S k) t').
    { intros k t'. unfold page_segment. replace (i + 1 + Z.of_nat k)%Z with (i + Z.of_nat (S k))%Z by lia.
      reflexivity. }
    split.
    + intros H.
      assert (Hcases : (has_word (page_text t) = true /\ seg = page_segment i 0 t) \/
                       In seg (pdf_pages (i + 1) rest)).
      { destruct (has_word (page_text t)); [|right; exact H].
        destruct H as [<-|H]; [left; auto|right; exact H]. }
      destruct Hcases as [[Hw ->]|Hin].
      * exists 0%nat, t. auto.
      * apply IH in Hin as (k & t' & Hk & Hw & ->).
        exists (S k), t'. rewrite Hshift. auto.
    + intros (k & t' & Hk & Hw & ->). destruct k as [|k].
      * cbn in Hk. injection Hk as <-. rewrite Hw. left. reflexivity.
      * assert (Hin : In (page_segment i (S k) t') (pdf_pages (i + 1) rest)).
        { apply IH. exists k, t'. rewrite Hshift. auto. }
        destruct (has_word (page_text t)); [right|]; exact Hin.
Qed.

Lemma pdf_pages_sorted (texts : list (option string)) :
  forall i, StronglySorted (fun a b => (segment_page a < segment_page b)%Z) (pdf_pages i texts).
Proof.
  induction texts as [|t rest IH]; intros i; [constructor|].
  rewrite pdf_pages_cons. destruct (has_word (page_text t)); [|apply IH].
  constructor; [apply IH|]. apply List.Forall_forall. intros seg Hseg.
  apply pdf_pages_In in Hseg as (k & t' & _ & _ & ->).
  unfold segment_page, page_segment. cbn [fst snd]. lia.
Qed.

Lemma pdf_pages_nil (texts : list (option string)) :
  forall i, pdf_pages i texts = [] -> Forall (fun t => has_word (page_text t) = false) texts.
Proof.
  induction texts as [|t rest IH]; intros i H; [constructor|].
  rewrite pdf_pages_cons in H. destruct (has_word (page_text t)) eqn:Hw; [discriminate|].
  constructor; [exact Hw|exact (IH _ H)].
Qed.

Lemma extract_pdf_pages (texts : list (option string)) :
  _extract_pdf texts =
    match pdf_pages 1 texts with
    | [] =>
        Failed (RuntimeError
                  "PDF appears to contain no extractable text (may be scanned/image-only).")
    | _ => Extracted (pdf_pages 1 texts)
    end.
Proof. unfold _extract_pdf. destruct (pdf_pages 1 texts); reflexivity. Qed.

(** X21. [_extract_pdf] raises exactly when no page has a word in its text;
    otherwise its segments are the pages that have one, each with its
    whole text, its number counted from 1 and the section [Page n], in
    the order of the pages. *)
Theorem extract_pdf_outcome (texts : list (option string)) :
  match _extract_pdf texts with
  | Extracted segments =>
      segments <> [] /\
      (forall seg, In seg segments <->
         exists k t, texts !! k = Some t /\ has_word (page_text t) = true /\
                     seg = page_segment 1 k t) /\
      StronglySorted (fun a b => (segment_page a < segment_page b)%Z) segments
  | Failed e =>
      e = RuntimeError "PDF appears to contain no extractable text (may be scanned/image-only)."
      /\ Forall (fun t => has_word (page_text t) = false) texts
  end.
Proof.
  rewrite extract_pdf_pages.
  pose proof (pdf_pages_In texts 1) as Hin.
  pose proof (pdf_pages_sorted texts 1) as Hsorted.
  pose proof (pdf_pages_nil texts 1) as Hnil.
  destruct (pdf_pages 1 texts) as [|seg segs].
  - split; [reflexivity|]. apply Hnil. reflexivity.
  - split; [discriminate|]. split; assumption.
Qed.

Example demo_extract_pdf :
  _extract_pdf [Some "Cover page"; None; Some "  "; Some ("Body" +:+ newline_str)]
    = Extracted [("Cover page", Some 1, Some "Page 1");
                 ("Body" +:+ newline_str, Some 4, Some "Page 4")] /\
  _extract_pdf [None; Some ""]
    = Failed (RuntimeError
                "PDF appears to contain no extractable text (may be scanned/image-only).").
Proof. split; vm_compute; reflexivity. Qed.

(** ** From the extractors to the index and to the prompt *)

Lemma extract_text_good (lines : list string) (segments : list segment) :
  _extract_text lines = Extracted segments ->
  segments <> [] /\ Forall good_segment segments.
Proof.
  destruct (existsb body_line lines) eqn:Hbody.
  - destruct (extract_text_body lines Hbody) as (segs & -> & Hne & Hgood & _).
    intros [= <-]. auto.
  - rewrite (extract_text_no_body lines Hbody).
    destruct (existsb has_word lines) eqn:Hword; [|discriminate].
    intros [= <-]. split; [discriminate|].
    constructor; [|constructor]. split; [|split; [reflexivity|exists "Document"; split;
      [reflexivity|discriminate]]].
    cbn [fst]. rewrite has_word_strip, has_word_concat. exact Hword.
Qed.

Lemma extract_docx_good (paragraphs : list (string * string)) (segments : list segment) :
  _extract_docx paragraphs = Extracted segments ->
  segments <> [] /\ Forall good_segment segments.
Proof.
  intros H. pose proof (extract_docx_cases paragraphs) as Hcases. rewrite H in Hcases.
  destruct Hcases as (Hne & Hgood & _). auto.
Qed.

Lemma extract_pdf_good (texts : list (option string)) (segments : list segment) :
  _extract_pdf texts = Extracted segments ->
  segments <> [] /\
  Forall (fun seg => exists k t, texts !! k = Some t /\ has_word (page_text t) = true /\
                                 seg = page_segment 1 k t) segments.
Proof.
  rewrite extract_pdf_pages. pose proof (pdf_pages_In texts 1) as Hin.
  destruct (pdf_pages 1 texts) as [|seg segs]; [discriminate|].
  intros [= <-]. split; [discriminate|].
  apply List.Forall_forall. intros s Hs. apply Hin. exact Hs.
Qed.

(** What every extractor returns: at least one segment, and a word in
    every segment. *)
Lemma extracted_segments (texts : list (option string)) (paragraphs : list (string * string))
    (lines : list string) (segments : list segment) :
  In (Extracted segments) [_extract_pdf texts; _extract_docx paragraphs; _extract_text lines] ->
  segments <> [] /\ Forall (fun seg : segment => has_word (fst (fst seg)) = true) segments.
Proof.
  intros [H|[H|[H|[]]]].
  - destruct (extract_pdf_good texts segments H) as [Hne Hall]. split; [exact Hne|].
    eapply Forall_impl; [exact Hall|]. intros seg (k & t & _ & Hw & ->). exact Hw.
  - destruct (extract_docx_good paragraphs segments H) as [Hne Hall]. split; [exact Hne|].
    eapply Forall_impl; [exact Hall|]. intros seg [Hw _]. exact Hw.
  - destruct (extract_text_good lines segments H) as [Hne Hall]. split; [exact Hne|].
    eapply Forall_impl; [exact Hall|]. intros seg [Hw _]. exact Hw.
Qed.

Lemma chunk_count_pos (n : nat) : (1 <= n)%nat -> (1 <= chunk_count n)%nat.
Proof.
  intros Hn. unfold chunk_count.
  destruct (Nat.eqb_spec n 0); [lia|]. destruct (n <=? CHUNK_WORDS)%nat; lia.
Qed.

Lemma chunk_counts_length (segments : list segment) :
  Forall (fun seg : segment => has_word (fst (fst seg)) = true) segments ->
  (length segments
   <= sum_list (List.map (fun seg => chunk_count (length (segment_words seg))) segments))%nat.
Proof.
  induction 1 as [|seg segs Hseg _ IH]; [reflexivity|].
  cbn [length List.map sum_list].
  assert (1 <= chunk_count (length (segment_words seg)))%nat; [|lia].
  apply chunk_count_pos. apply has_word_split in Hseg. unfold segment_words.
  destruct (str_split (fst (fst seg))); [contradiction|cbn; lia].
Qed.

Lemma is_space_lower (c : ascii) : is_space (lower_char c) = is_space c.
Proof. destruct c as [[] [] [] [] [] [] [] []]; vm_compute; reflexivity. Qed.

Lemma has_word_lower (s : string) : has_word (str_lower s) = has_word s.
Proof.
  induction s as [|c s IH]; [reflexivity|].
  cbn [str_lower has_word]. rewrite is_space_lower, IH. reflexivity.
Qed.

Lemma chunk_of_tokens (uuid4_hex : nat -> string) (doc : string) (segments : list segment)
    (a b : nat) (c : pyval) :
  chunk_of uuid4_hex doc segments a b c ->
  exists tokens, tokenize_text c = Ok tokens /\ tokens <> [].
Proof.
  intros (text & page_num & section & i & j & _ & _ & Hwin & _ & H).
  cbv zeta in H. destruct H as (-> & Hsplit & Hlen).
  eexists. split; [reflexivity|].
  unfold _tokenize. apply has_word_split. rewrite has_word_lower.
  apply has_word_split. rewrite Hsplit. intros Hnil. rewrite Hnil in Hlen.
  cbn [length] in Hlen. lia.
Qed.

Section ExtractedDocuments.

Variable uuid4_hex : nat -> string.

(** X22. Whatever an extractor returns is chunked into at least one chunk
    per segment, and the corpus [load_index] tokenizes from these
    chunks has an entry per chunk and no entry without a token. *)
Theorem extracted_document_corpus (texts : list (option string))
    (paragraphs : list (string * string)) (lines : list string)
    (segments : list segment) (doc : string) (drawn : nat) :
  In (Extracted segments) [_extract_pdf texts; _extract_docx paragraphs; _extract_text lines] ->
  let chunks := fst (_build_chunks uuid4_hex doc segments drawn) in
  (1 <= length segments <= length chunks)%nat /\
  exists corpus,
    result_mapM tokenize_text chunks = Ok corpus /\
    length corpus = length chunks /\
    Forall (fun tokens => tokens <> []) corpus.
Proof.
  intros Hfrom chunks.
  destruct (extracted_segments texts paragraphs lines segments Hfrom) as [Hne Hwords].
  split.
  - split; [destruct segments; [congruence|cbn; lia]|].
    unfold chunks. rewrite (proj1 (build_chunks_length uuid4_hex doc segments drawn)).
    apply chunk_counts_length, Hwords.
  - destruct (storable_corpus chunks (build_chunks_storable uuid4_hex doc segments drawn))
      as [corpus Hcorpus].
    exists corpus. split; [exact Hcorpus|].
    split; [exact (result_mapM_length _ _ _ Hcorpus)|].
    apply List.Forall_forall. intros tokens Htokens.
    apply result_mapM_Forall2 in Hcorpus.
    destruct (Forall2_In_r _ _ _ _ Hcorpus Htokens) as (c & Hc & Hct).
    pose proof (build_chunks_chunk_of uuid4_hex doc segments drawn) as Hall.
    rewrite List.Forall_forall in Hall.
    destruct (chunk_of_tokens _ _ _ _ _ _ (Hall c Hc)) as (tokens' & Ht' & Hne').
    rewrite Hct in Ht'. injection Ht' as <-. exact Hne'.
Qed.

Lemma new_chunk_label (j : nat) (doc text : string) (page_num : option Z)
    (section : option string) (start : nat) :
  passage_loc (new_chunk uuid4_hex j doc text page_num section start) =
    Ok (match py_truth (py_opt_int page_num), py_truth (py_opt_str section) with
        | true, true =>
            "Page " +:+ py_str (py_opt_int page_num)
            +:+ " | Section: " +:+ py_str (py_opt_str section)
        | true, false => "Page " +:+ py_str (py_opt_int page_num)
        | false, true => "Section: " +:+ py_str (py_opt_str section)
        | false, false => "Location unknown"
        end).
Proof.
  unfold new_chunk. rewrite passage_loc_dict. reflexivity.
Qed.

Lemma chunk_of_segment (doc : string) (segments : list segment) (a b : nat) (c : pyval) :
  chunk_of uuid4_hex doc segments a b c ->
  exists text page_num section j chunk_text start,
    In (text, page_num, section) segments /\
    c = new_chunk uuid4_hex j doc chunk_text page_num section start.
Proof.
  intros (text & page_num & section & i & j & Hin & _ & _ & _ & H).
  cbv zeta in H. destruct H as (-> & _ & _).
  exists text, page_num, section, j. eexists. eexists. split; [exact Hin|reflexivity].
Qed.

(** X23. The chunks of a PDF carry the page twice in the prompt: as the
    page number and as the section [Page n], [n] a page of the file. *)
Theorem pdf_chunk_labels (texts : list (option string)) (segments : list segment)
    (doc : string) (drawn : nat) :
  _extract_pdf texts = Extracted segments ->
  Forall (fun c => exists n,
              (1 <= n <= Z.of_nat (length texts))%Z /\
              passage_loc c
                = Ok ("Page " +:+ int_str n +:+ " | Section: Page " +:+ int_str n))
    (fst (_build_chunks uuid4_hex doc segments drawn)).
Proof.
  intros Hpdf. destruct (extract_pdf_good texts segments Hpdf) as [_ Hsegs].
  eapply Forall_impl; [apply (build_chunks_chunk_of uuid4_hex doc segments drawn)|].
  intros c Hc. apply chunk_of_segment in Hc
    as (text & page_num & section & j & chunk_text & start & Hin & ->).
  rewrite List.Forall_forall in Hsegs.
  destruct (Hsegs _ Hin) as (k & t & Hk & _ & Heq).
  unfold page_segment in Heq. injection Heq as -> -> ->.
  apply lookup_lt_Some in Hk.
  exists (1 + Z.of_nat k)%Z. split; [lia|].
  rewrite new_chunk_label. cbn [py_opt_int py_opt_str py_truth py_str py_repr].
  destruct (Z.eqb_spec (1 + Z.of_nat k) 0) as [H0|_]; [lia|]. reflexivity.
Qed.

(** X24. The chunks of a DOCX or text file carry a section and no page: the
    label is [Section: ] and a name that is not empty, never
    [Location unknown]. *)
Theorem section_chunk_labels (paragraphs : list (string * string)) (lines : list string)
    (segments : list segment) (doc : string) (drawn : nat) :
  _extract_docx paragraphs = Extracted segments \/ _extract_text lines = Extracted segments ->
  Forall (fun c => exists sec,
              sec <> EmptyString /\ passage_loc c = Ok ("Section: " +:+ sec))
    (fst (_build_chunks uuid4_hex doc segments drawn)).
Proof.
  intros Hfrom.
  assert (Hsegs : Forall good_segment segments).
  { destruct Hfrom as [H|H]; [apply (extract_docx_good _ _ H)|apply (extract_text_good _ _ H)]. }
  eapply Forall_impl; [apply (build_chunks_chunk_of uuid4_hex doc segments drawn)|].
  intros c Hc. apply chunk_of_segment in Hc
    as (text & page_num & section & j & chunk_text & start & Hin & ->).
  rewrite List.Forall_forall in Hsegs.
  destruct (Hsegs _ Hin) as (_ & Hpage & sec & Hsec & Hne).
  cbn [fst snd] in Hpage, Hsec. subst page_num section.
  exists sec. split; [exact Hne|].
  rewrite new_chunk_label. cbn [py_opt_int py_opt_str py_truth py_str].
  destruct sec; [congruence|reflexivity].
Qed.

End ExtractedDocuments.

Lemma extracted_document_corpus_witness :
  let chunks := fst (_build_chunks demo_uuid "612e74787400"
                       [("Alpha beta", None, Some "Title");
                        ("gamma", None, Some "Part one ##");
                        ("delta", None, Some "Part one ##")] 0) in
  (1 <= 3 <= length chunks)%nat /\
  exists corpus,
    result_mapM tokenize_text chunks = Ok corpus /\
    length corpus = length chunks /\
    Forall (fun tokens => tokens <> []) corpus.
Proof.
  apply (extracted_document_corpus demo_uuid [] [] demo_lines
           [("Alpha beta", None, Some "Title");
            ("gamma", None, Some "Part one ##");
            ("delta", None, Some "Part one ##")] "612e74787400" 0).
  right. right. left. vm_compute. reflexivity.
Defined.

Lemma pdf_chunk_labels_witness :
  Forall (fun c => exists n,
              (1 <= n <= 4)%Z /\
              passage_loc c
                = Ok ("Page " +:+ int_str n +:+ " | Section: Page " +:+ int_str n))
    (fst (_build_chunks demo_uuid "612e74787400"
            [("Cover page", Some 1%Z, Some "Page 1");
             ("Body" +:+ newline_str, Some 4%Z, Some "Page 4")] 0)).
Proof.
  apply (pdf_chunk_labels demo_uuid
           [Some "Cover page"; None; Some "  "; Some ("Body" +:+ newline_str)]
           [("Cover page", Some 1%Z, Some "Page 1");
            ("Body" +:+ newline_str, Some 4%Z, Some "Page 4")] "612e74787400" 0).
  vm_compute. reflexivity.
Defined.

Lemma section_chunk_labels_witness :
  Forall (fun c => exists sec,
              sec <> EmptyString /\ passage_loc c = Ok ("Section: " +:+ sec))
    (fst (_build_chunks demo_uuid "612e74787400"
            [("Alpha beta", None, Some "Title");
             ("gamma", None, Some "Part one ##");
             ("delta", None, Some "Part one ##")] 0)).
Proof.
  apply (section_chunk_labels demo_uuid [] demo_lines
           [("Alpha beta", None, Some "Title");
            ("gamma", None, Some "Part one ##");
            ("delta", None, Some "Part one ##")] "612e74787400" 0).
  right. vm_compute. reflexivity.
Defined.

(** * indexer.py: [list_documents] *)

(** [s.endswith(suffix)]. *)
Fixpoint endswith (suffix s : string) : bool :=
  String.eqb s suffix ||
  match s with
  | String _ s' => endswith suffix s'
  | EmptyString => false
  end.

(** A path [INDEX_DIR.glob("*_chunks.json")] yields: a file of the
    index directory itself whose name ends with [_chunks.json]. *)
Definition is_index_file (path : string) : bool :=
  match strip_prefix (INDEX_DIR +:+ "/") path with
  | Some name => without_char "/" name && endswith "_chunks.json" name
  | None => false
  end.

(** [len(v)]. *)
Definition py_len (v : pyval) : result Z :=
  match v with
  | PList l => Ok (Z.of_nat (length l))
  | PDict d => Ok (Z.of_nat (length d))
  | PStr s => Ok (Z.of_nat (String.length s))
  | _ => Raise TypeError
  end.

(** The entry [list_documents] appends for the text of one index
    file. *)
Definition document_entry (text : string) : result pyval :=
  data ← json_loads text;
  doc_id ← py_item data "doc_id";
  filepath ← py_item data "filepath";
  chunks ← py_item data "chunks";
  n ← py_len chunks;
  Ok (PDict [("doc_id", doc_id); ("filepath", filepath); ("chunk_count", PInt n)]).

(** The paths of the loop, sorted. *)
Definition index_files (w : world) : list string :=
  py_sorted String.ltb (List.filter is_index_file (List.map fst (map_to_list (files w)))).

(** [list_documents]: without an index directory there is no file in
    it, and the loop below runs over nothing. *)
Definition list_documents (w : world) : result (list pyval) :=
  result_mapM
    (fun path =>
       match files w !! path with
       | Some text => document_entry text
       | None => Raise FileNotFoundError
       end)
    (index_files w).

Lemma endswith_app (suffix a : string) : endswith suffix (a +:+ suffix) = true.
Proof.
  induction a as [|c a IH].
  - cbn [String.append]. destruct suffix; cbn [endswith]; rewrite String.eqb_refl; reflexivity.
  - cbn [String.append endswith]. rewrite IH. apply orb_true_r.
Qed.

(** The index file of a doc_id without a slash is one the loop visits. *)
Lemma index_path_is_index_file (doc : string) :
  without_char "/" doc = true -> is_index_file (index_path doc) = true.
Proof.
  intros Hdoc. unfold is_index_file. rewrite (index_path_plain doc Hdoc).
  change (INDEX_DIR +:+ "/" +:+ doc +:+ "_chunks.json")
    with ((INDEX_DIR +:+ "/") +:+ (doc +:+ "_chunks.json")).
  rewrite strip_prefix_app, endswith_app, without_char_app, Hdoc. reflexivity.
Qed.

Lemma index_files_In (w : world) (path : string) :
  In path (index_files w) <-> is_index_file path = true /\ exists text, files w !! path = Some text.
Proof.
  unfold index_files. split.
  - intros H. apply (Permutation_in _ (py_sorted_perm _ _)) in H.
    apply filter_In in H as [H Hfile]. split; [exact Hfile|].
    apply in_map_iff in H as ([p text] & <- & H). exists text.
    apply elem_of_map_to_list. apply list_elem_of_In. exact H.
  - intros [Hfile [text Htext]].
    apply (Permutation_in _ (Permutation_sym (py_sorted_perm _ _))).
    apply filter_In. split; [|exact Hfile].
    apply in_map_iff. exists (path, text). split; [reflexivity|].
    apply list_elem_of_In. apply elem_of_map_to_list. exact Htext.
Qed.

Lemma Forall2_In_l {A B : Type} (R : A -> B -> Prop) (l : list A) (l' : list B) (x : A) :
  Forall2 R l l' -> In x l -> exists y, In y l' /\ R x y.
Proof.
  induction 1 as [|a b l l' Hab _ IH]; intros Hx; [destruct Hx|].
  destruct Hx as [<-|Hx].
  - exists b. split; [left; reflexivity|exact Hab].
  - destruct (IH Hx) as (y & Hy & HR). exists y. split; [right; exact Hy|exact HR].
Qed.

(** The entry of the file [index_document] writes. *)
Lemma document_entry_record (doc filepath : string) (chunks : list pyval) :
  Forall storable_chunk chunks ->
  document_entry (json_dumps (index_record doc filepath chunks))
    = Ok (PDict [("doc_id", PStr doc); ("filepath", PStr filepath);
                 ("chunk_count", PInt (Z.of_nat (length chunks)))]).
Proof.
  intros Hstor. unfold document_entry.
  rewrite (json_loads_dumps _ (index_record_safe doc filepath chunks Hstor)).
  reflexivity.
Qed.

Section ListDocuments.

Variable md5_hexdigest : string -> string.
Variable uuid4_hex : nat -> string.

(** X25. After [index_document], when [list_documents] returns, it lists
    the document under its doc_id with its path and the number of
    chunks built. The doc_id holds no slash, as twelve hexadecimal
    digits do. *)
Theorem list_documents_after_index (filepath : string) (segments : list segment)
    (w : world) (docs : list pyval) :
  let doc := _doc_id md5_hexdigest filepath in
  let w' := snd (index_document md5_hexdigest uuid4_hex filepath segments w) in
  let chunks := fst (_build_chunks uuid4_hex doc segments (uuid_drawn w)) in
  without_char "/" doc = true ->
  list_documents w' = Ok docs ->
  In (PDict [("doc_id", PStr doc); ("filepath", PStr filepath);
             ("chunk_count", PInt (Z.of_nat (length chunks)))]) docs.
Proof.
  intros doc w' chunks Hdoc Hlist.
  assert (Hfile : files w' !! index_path doc
                  = Some (json_dumps (index_record doc filepath chunks))).
  { unfold w'. rewrite (proj2 (index_document_files md5_hexdigest uuid4_hex filepath segments w)).
    apply lookup_insert_eq. }
  assert (Hin : In (index_path doc) (index_files w')).
  { apply index_files_In. split; [apply index_path_is_index_file, Hdoc|eauto]. }
  unfold list_documents in Hlist. apply result_mapM_Forall2 in Hlist.
  destruct (Forall2_In_l _ _ _ _ Hlist Hin) as (entry & Hentry & Heq).
  rewrite Hfile in Heq.
  rewrite (document_entry_record doc filepath chunks
             (build_chunks_storable uuid4_hex doc segments (uuid_drawn w))) in Heq.
  injection Heq as <-. exact Hentry.
Qed.

End ListDocuments.

(** X26. [list_documents] gives one entry per index file and looks at no
    other file; one index file whose entry cannot be made makes the
    whole listing raise. *)
Theorem list_documents_entries (w : world) :
  match list_documents w with
  | Ok docs =>
      length docs = length (index_files w) /\
      Forall (fun entry => exists path text,
                  is_index_file path = true /\ files w !! path = Some text /\
                  document_entry text = Ok entry) docs
  | Raise e =>
      exists path text,
        is_index_file path = true /\ files w !! path = Some text /\
        document_entry text = Raise e
  end.
Proof.
  unfold list_documents.
  assert (Hall : Forall (fun path => is_index_file path = true /\
                                     exists text, files w !! path = Some text) (index_files w)).
  { apply List.Forall_forall. intros path. apply index_files_In. }
  induction Hall as [|path paths [Hfile [text Htext]] _ IH]; cbn [result_mapM].
  - split; [reflexivity|constructor].
  - rewrite Htext. destruct (document_entry text) as [entry|e] eqn:Hentry.
    + destruct (result_mapM _ paths) as [docs|e].
      * destruct IH as [Hlen Hdocs]. split; [cbn [length]; rewrite Hlen; reflexivity|].
        constructor; [|exact Hdocs]. exists path, text. auto.
      * exact IH.
    + exists path, text. auto.
Qed.

Lemma list_documents_after_index_witness :
  In (PDict [("doc_id", PStr (_doc_id demo_md5 "b.txt")); ("filepath", PStr "b.txt");
             ("chunk_count",
              PInt (Z.of_nat (length (fst (_build_chunks demo_uuid (_doc_id demo_md5 "b.txt")
                                             demo_segments (uuid_drawn demo_world))))))])
    [PDict [("doc_id", PStr "612e74787400"); ("filepath", PStr "a.txt"); ("chunk_count", PInt 3)];
     PDict [("doc_id", PStr "622e74787400"); ("filepath", PStr "b.txt"); ("chunk_count", PInt 3)]].
Proof.
  apply (list_documents_after_index demo_md5 demo_uuid "b.txt" demo_segments demo_world).
  - reflexivity.
  - vm_compute. reflexivity.
Defined.

Example demo_list_documents :
  list_documents empty_world = Ok [] /\
  list_documents
    {| files := <[".doc_qa_index/notes.txt" := "not an index"]> (files demo_world);
       uuid_drawn := 3 |}
    = Ok [PDict [("doc_id", PStr "612e74787400"); ("filepath", PStr "a.txt");
                 ("chunk_count", PInt 3)]] /\
  list_documents
    {| files := <[".doc_qa_index/x_chunks.json" := "{}"]> (files demo_world);
       uuid_drawn := 3 |}
    = Raise (KeyError "doc_id").
Proof. repeat split; vm_compute; reflexivity. Qed.

(** * indexer.py: an index built and loaded again *)

Lemma build_chunks_no_words (uuid4_hex : nat -> string) (doc : string)
    (segments : list segment) :
  Forall (fun seg : segment => has_word (fst (fst seg)) = false) segments ->
  forall drawn, _build_chunks uuid4_hex doc segments drawn = ([], drawn).
Proof.
  induction 1 as [|[[text page_num] section] rest Hseg _ IH]; intros drawn; [reflexivity|].
  rewrite build_chunks_cons, build_chunks_segment. cbn [fst snd] in *.
  apply str_split_nil in Hseg. rewrite Hseg. cbn [length].
  change (chunk_count 0) with 0%nat. rewrite Nat.add_0_r, IH. reflexivity.
Qed.

(** No chunk is built exactly when no segment holds a word. *)
Lemma build_chunks_nil (uuid4_hex : nat -> string) (doc : string) (segments : list segment) :
  forall drawn,
    fst (_build_chunks uuid4_hex doc segments drawn) = [] <->
    Forall (fun seg : segment => has_word (fst (fst seg)) = false) segments.
Proof.
  intros drawn. split.
  - revert drawn. induction segments as [|[[text page_num] section] rest IH]; intros drawn H;
      [constructor|].
    rewrite build_chunks_cons, build_chunks_segment in H. cbn [fst snd] in H.
    apply app_eq_nil in H as [Hhere Hrest].
    constructor; [|exact (IH _ Hrest)].
    cbn [fst]. apply str_split_nil.
    destruct (str_split text) as [|word words] eqn:Hwords; [reflexivity|].
    pose proof (chunk_count_pos (length (word :: words)) ltac:(cbn [length]; lia)) as Hpos.
    apply (f_equal (@length pyval)) in Hhere.
    rewrite length_map, length_seq in Hhere. cbn [length] in Hhere, Hpos. lia.
  - intros H. rewrite (build_chunks_no_words uuid4_hex doc segments H drawn). reflexivity.
Qed.

(** The corpus of the chunks built: an entry per chunk, none without a
    token. *)
Lemma build_chunks_corpus (uuid4_hex : nat -> string) (doc : string)
    (segments : list segment) (drawn : nat) :
  exists corpus,
    result_mapM tokenize_text (fst (_build_chunks uuid4_hex doc segments drawn)) = Ok corpus /\
    length corpus = length (fst (_build_chunks uuid4_hex doc segments drawn)) /\
    Forall (fun tokens => tokens <> []) corpus.
Proof.
  destruct (storable_corpus _ (build_chunks_storable uuid4_hex doc segments drawn))
    as [corpus Hcorpus].
  exists corpus. split; [exact Hcorpus|].
  split; [exact (result_mapM_length _ _ _ Hcorpus)|].
  apply List.Forall_forall. intros tokens Htokens.
  apply result_mapM_Forall2 in Hcorpus.
  destruct (Forall2_In_r _ _ _ _ Hcorpus Htokens) as (c & Hc & Hct).
  pose proof (build_chunks_chunk_of uuid4_hex doc segments drawn) as Hall.
  rewrite List.Forall_forall in Hall.
  destruct (chunk_of_tokens _ _ _ _ _ _ (Hall c Hc)) as (tokens' & Ht' & Hne').
  rewrite Hct in Ht'. injection Ht' as <-. exact Hne'.
Qed.

Section IndexRoundTrip.

Variable md5_hexdigest : string -> string.
Variable uuid4_hex : nat -> string.
Context {bm25 : Type}.
Variable BM25Okapi : list (list string) -> result bm25.


End IndexRoundTrip.


